(** * Mem.c: a free-list allocator (malloc / free / calloc / realloc)

    Shallow embedding of [src/Mem.c] and the properties its specification
    states about it.

    Modelling decisions, all read off the source:
    - LP64 data model: [size_t] and pointers are 64-bit unsigned words,
      [int] is 32 bits, [sizeof(struct _block)] is 24
      (8 + 8 + 1 + 3, padded to the alignment of [size_t]).
    - Block headers live in a finite map from header address to header;
      payload bytes live in a separate byte store.  A header that was never
      written cannot be read (the result is [Undef]).
    - The operating system is the program break [brk] together with the
      bounds between which [sbrk] may move it; a move outside them is
      denied.
    - The byte store is total, and only the headers are checked for having
      been written.
    - [assert] is live (no NDEBUG): a failed assertion is [Abort].
    - [while] loops run on fuel, the number of headers in memory plus one;
      a loop that needs more is walking a cycle ([Timeout]). *)

From stdpp Require Import gmap list.
From Stdlib Require Import ZArith Lia.

Local Open Scope Z_scope.

(** ** Machine integers *)

Definition to_size_t (z : Z) : Z := z mod 2 ^ 64.
Definition to_int (z : Z) : Z := (z + 2 ^ 31) mod 2 ^ 32 - 2 ^ 31.
Definition to_intptr (z : Z) : Z := (z + 2 ^ 63) mod 2 ^ 64 - 2 ^ 63.

Definition INT_MAX : Z := 2 ^ 31 - 1.
Definition NULL : Z := 0.
(* (void * ) -1, what sbrk returns when the request is denied *)
Definition SBRK_FAILED : Z := 2 ^ 64 - 1.
Definition sizeof_block : Z := 24.

(* #define ALIGN4(s) (((((s) - 1) >> 2) << 2) + 4) *)
Definition ALIGN4 (s : Z) : Z :=
  to_size_t (to_size_t (Z.shiftl (Z.shiftr (to_size_t (s - 1)) 2) 2) + 4).

(* #define BLOCK_DATA(b) ((b) + 1) *)
Definition BLOCK_DATA (b : Z) : Z := to_size_t (b + sizeof_block).
(* #define BLOCK_HEADER(ptr) ((struct _block * )(ptr) - 1) *)
Definition BLOCK_HEADER (ptr : Z) : Z := to_size_t (ptr - sizeof_block).

(** ** Data model *)

(* struct _block *)
Record block : Type := mkBlock {
  blk_size : Z;
  blk_next : Z;
  blk_free : bool
}.

Definition set_size (v : Z) (b : block) : block :=
  {| blk_size := v; blk_next := blk_next b; blk_free := blk_free b |}.
Definition set_next (v : Z) (b : block) : block :=
  {| blk_size := blk_size b; blk_next := v; blk_free := blk_free b |}.
Definition set_free (v : bool) (b : block) : block :=
  {| blk_size := blk_size b; blk_next := blk_next b; blk_free := v |}.

(* the nine counters printed by printStatistics *)
Record stats : Type := mkStats {
  num_mallocs : Z;
  num_frees : Z;
  num_reuses : Z;
  num_grows : Z;
  num_splits : Z;
  num_coalesces : Z;
  num_blocks : Z;
  num_requested : Z;
  max_heap : Z
}.

Record state : Type := mkState {
  atexit_registered : Z;
  counters : stats;
  heapList : Z;
  actualLast : Z;
  blocks : gmap Z block;   (* header memory *)
  bytes : Z -> Z;          (* payload memory *)
  brk : Z                  (* program break *)
}.

Definition set_atexit_registered (v : Z) (st : state) : state :=
  {| atexit_registered := v; counters := counters st; heapList := heapList st;
     actualLast := actualLast st; blocks := blocks st; bytes := bytes st;
     brk := brk st |}.
Definition set_counters (f : stats -> stats) (st : state) : state :=
  {| atexit_registered := atexit_registered st; counters := f (counters st);
     heapList := heapList st; actualLast := actualLast st;
     blocks := blocks st; bytes := bytes st; brk := brk st |}.
Definition set_heapList (v : Z) (st : state) : state :=
  {| atexit_registered := atexit_registered st; counters := counters st;
     heapList := v; actualLast := actualLast st; blocks := blocks st;
     bytes := bytes st; brk := brk st |}.
Definition set_actualLast (v : Z) (st : state) : state :=
  {| atexit_registered := atexit_registered st; counters := counters st;
     heapList := heapList st; actualLast := v; blocks := blocks st;
     bytes := bytes st; brk := brk st |}.
Definition set_blocks (f : gmap Z block -> gmap Z block) (st : state) : state :=
  {| atexit_registered := atexit_registered st; counters := counters st;
     heapList := heapList st; actualLast := actualLast st;
     blocks := f (blocks st); bytes := bytes st; brk := brk st |}.
Definition set_bytes (f : (Z -> Z) -> (Z -> Z)) (st : state) : state :=
  {| atexit_registered := atexit_registered st; counters := counters st;
     heapList := heapList st; actualLast := actualLast st;
     blocks := blocks st; bytes := f (bytes st); brk := brk st |}.
Definition set_brk (v : Z) (st : state) : state :=
  {| atexit_registered := atexit_registered st; counters := counters st;
     heapList := heapList st; actualLast := actualLast st;
     blocks := blocks st; bytes := bytes st; brk := v |}.

(* num_x++ on an int *)
Definition incr_frees (s : stats) : stats :=
  {| num_mallocs := num_mallocs s; num_frees := to_int (num_frees s + 1);
     num_reuses := num_reuses s; num_grows := num_grows s;
     num_splits := num_splits s; num_coalesces := num_coalesces s;
     num_blocks := num_blocks s; num_requested := num_requested s;
     max_heap := max_heap s |}.
Definition incr_reuses (s : stats) : stats :=
  {| num_mallocs := num_mallocs s; num_frees := num_frees s;
     num_reuses := to_int (num_reuses s + 1); num_grows := num_grows s;
     num_splits := num_splits s; num_coalesces := num_coalesces s;
     num_blocks := num_blocks s; num_requested := num_requested s;
     max_heap := max_heap s |}.
Definition incr_splits (s : stats) : stats :=
  {| num_mallocs := num_mallocs s; num_frees := num_frees s;
     num_reuses := num_reuses s; num_grows := num_grows s;
     num_splits := to_int (num_splits s + 1);
     num_coalesces := num_coalesces s; num_blocks := num_blocks s;
     num_requested := num_requested s; max_heap := max_heap s |}.
Definition incr_coalesces (s : stats) : stats :=
  {| num_mallocs := num_mallocs s; num_frees := num_frees s;
     num_reuses := num_reuses s; num_grows := num_grows s;
     num_splits := num_splits s;
     num_coalesces := to_int (num_coalesces s + 1);
     num_blocks := num_blocks s; num_requested := num_requested s;
     max_heap := max_heap s |}.
(* max_heap += size; num_grows++; num_blocks++;  (int += size_t is computed
   in size_t and converted back) *)
Definition count_grow (size : Z) (s : stats) : stats :=
  {| num_mallocs := num_mallocs s; num_frees := num_frees s;
     num_reuses := num_reuses s; num_grows := to_int (num_grows s + 1);
     num_splits := num_splits s; num_coalesces := num_coalesces s;
     num_blocks := to_int (num_blocks s + 1);
     num_requested := num_requested s;
     max_heap := to_int (to_size_t (to_size_t (max_heap s) + size)) |}.
(* num_requested += size; num_mallocs++; *)
Definition count_malloc (size : Z) (s : stats) : stats :=
  {| num_mallocs := to_int (num_mallocs s + 1); num_frees := num_frees s;
     num_reuses := num_reuses s; num_grows := num_grows s;
     num_splits := num_splits s; num_coalesces := num_coalesces s;
     num_blocks := num_blocks s;
     num_requested := to_int (to_size_t (to_size_t (num_requested s) + size));
     max_heap := max_heap s |}.

(** ** Outcomes and the state monad *)

Inductive result (A : Type) : Type :=
| Done (a : A)   (* the call returns *)
| Abort          (* assert failed: the process is killed *)
| Undef          (* a header that was never written is read *)
| Timeout.       (* a loop ran out of fuel *)
Arguments Done {A} a.
Arguments Abort {A}.
Arguments Undef {A}.
Arguments Timeout {A}.

Definition M (A : Type) : Type := state -> result (A * state).

#[global] Instance M_ret : MRet M := fun A a st => Done (a, st).
#[global] Instance M_bind : MBind M := fun A B k m st =>
  match m st with
  | Done (a, st') => k a st'
  | Abort => Abort
  | Undef => Undef
  | Timeout => Timeout
  end.

Definition gets {A : Type} (f : state -> A) : M A := fun st => Done (f st, st).
Definition modify (f : state -> state) : M unit := fun st => Done (tt, f st).
Definition lift {A : Type} (r : result A) : M A := fun st =>
  match r with
  | Done a => Done (a, st)
  | Abort => Abort
  | Undef => Undef
  | Timeout => Timeout
  end.
Definition assert (b : bool) : M unit := fun st => if b then Done (tt, st) else Abort.
Definition when (b : bool) (m : M unit) : M unit := if b then m else mret tt.

(* reading and writing header fields *)
Definition blank : block := {| blk_size := 0; blk_next := NULL; blk_free := false |}.
Definition upd (a : Z) (f : block -> block) (h : gmap Z block) : gmap Z block :=
  <[a := f (default blank (h !! a))]> h.
Definition load (a : Z) : M block := fun st =>
  match blocks st !! a with
  | Some b => Done (b, st)
  | None => Undef
  end.
Definition store (a : Z) (f : block -> block) : M unit := modify (set_blocks (upd a f)).

Definition fuel_of (h : gmap Z block) : nat := S (size h).

(* memset and memcpy on the byte store.  The store is total: a fill or a
   copy that runs past the memory obtained from sbrk is not a fault here,
   so what is proved of calloc and realloc bounds the request and shows
   that the range lies inside the block *)
Definition memset (dst c n : Z) (m : Z -> Z) : Z -> Z := fun a =>
  if (dst <=? a) && (a <? dst + n) then c else m a.
Definition memcpy (dst src n : Z) (m : Z -> Z) : Z -> Z := fun a =>
  if (dst <=? a) && (a <? dst + n) then m (src + (a - dst)) else m a.

(** ** Build configuration and environment *)

(* -DFIT=0, -DBEST=0, -DWORST=0 or -DNEXT=0 *)
Inductive strategy : Type := FIT | BEST | WORST | NEXT.

Record config : Type := mkConfig {
  fit : strategy;
  brk_lo : Z;    (* lowest break the OS accepts: the initial break *)
  brk_hi : Z     (* highest break the OS accepts *)
}.

Definition init_state (c : config) : state :=
  {| atexit_registered := 0;
     counters := mkStats 0 0 0 0 0 0 0 0 0;
     heapList := NULL; actualLast := NULL;
     blocks := ∅; bytes := fun _ => 0; brk := brk_lo c |}.

(** ** The program *)

Definition fits (b : block) (size : Z) : bool :=
  blk_free b && (size <=? blk_size b).

(* while (curr && !(curr->free && curr->size >= size))
     { *last = curr; curr = curr->next; } *)
Fixpoint first_fit_loop (fuel : nat) (h : gmap Z block) (size curr last : Z)
  : result (Z * Z) :=
  match fuel with
  | O => Timeout
  | S fuel' =>
    if curr =? NULL then Done (curr, last) else
    match h !! curr with
    | None => Undef
    | Some b =>
      if fits b size then Done (curr, last)
      else first_fit_loop fuel' h size (blk_next b) curr
    end
  end.

(* while (curr) { if (curr->free && curr->size >= size && curr->size < smallest)
     { smallest = curr->size; bestFit = curr; } *last = curr; curr = curr->next; } *)
Fixpoint best_fit_loop (fuel : nat) (h : gmap Z block)
    (size curr last smallest bestFit : Z) : result (Z * Z) :=
  match fuel with
  | O => Timeout
  | S fuel' =>
    if curr =? NULL then Done (bestFit, last) else
    match h !! curr with
    | None => Undef
    | Some b =>
      if fits b size && (blk_size b <? to_size_t smallest)
      then best_fit_loop fuel' h size (blk_next b) curr (to_int (blk_size b)) curr
      else best_fit_loop fuel' h size (blk_next b) curr smallest bestFit
    end
  end.

(* while (curr) { if (curr->free && curr->size >= size && curr->size > largest)
     { largest = curr->size; worstFit = curr; } *last = curr; curr = curr->next; } *)
Fixpoint worst_fit_loop (fuel : nat) (h : gmap Z block)
    (size curr last largest worstFit : Z) : result (Z * Z) :=
  match fuel with
  | O => Timeout
  | S fuel' =>
    if curr =? NULL then Done (worstFit, last) else
    match h !! curr with
    | None => Undef
    | Some b =>
      if fits b size && (to_size_t largest <? blk_size b)
      then worst_fit_loop fuel' h size (blk_next b) curr (to_int (blk_size b)) curr
      else worst_fit_loop fuel' h size (blk_next b) curr largest worstFit
    end
  end.

(* while (curr && !(curr->free && curr->size >= size))
     { *last = curr; actualLast = curr; curr = curr->next; } *)
Fixpoint next_fit_loop (fuel : nat) (h : gmap Z block) (size curr last al : Z)
  : result (Z * Z * Z) :=
  match fuel with
  | O => Timeout
  | S fuel' =>
    if curr =? NULL then Done (curr, last, al) else
    match h !! curr with
    | None => Undef
    | Some b =>
      if fits b size then Done (curr, last, al)
      else next_fit_loop fuel' h size (blk_next b) curr curr
    end
  end.

Section Program.

Variable c : config.

(* struct _block *findFreeBlock(struct _block **last, size_t size):
   returns the block and the final value of *last *)
Definition findFreeBlock (last size : Z) : M (Z * Z) :=
  curr ← gets heapList;
  h ← gets blocks;
  match fit c with
  | FIT => lift (first_fit_loop (fuel_of h) h size curr last)
  | BEST => lift (best_fit_loop (fuel_of h) h size curr last INT_MAX NULL)
  | WORST => lift (worst_fit_loop (fuel_of h) h size curr last 0 NULL)
  | NEXT =>
    al ← gets actualLast;
    '(curr', last', al') ← lift (next_fit_loop (fuel_of h) h size al last al);
    modify (set_actualLast al');;
    if curr' =? NULL
    then lift (first_fit_loop (fuel_of h) h size curr last')
    else mret (curr', last')
  end.

(* sbrk(increment): the old break on success, (void * ) -1 on denial;
   sbrk(0) only reports the break.  A break outside the bounds is denied,
   above as below; the increment is negative only for a request of at
   least 2^63 - 24 bytes *)
Definition sbrk (increment : Z) : M Z := fun st =>
  if increment =? 0 then Done (brk st, st)
  else if (brk_lo c <=? brk st + increment) && (brk st + increment <=? brk_hi c)
  then Done (brk st, set_brk (brk st + increment) st)
  else Done (SBRK_FAILED, st).

Definition growHeap (last size : Z) : M Z :=
  curr ← sbrk 0;
  prev ← sbrk (to_intptr (to_size_t (sizeof_block + size)));
  assert (curr =? prev);;
  if curr =? SBRK_FAILED then mret NULL else
  hl ← gets heapList;
  when (hl =? NULL) (modify (set_heapList curr));;
  when (negb (last =? NULL)) (store last (set_next curr));;
  store curr (set_size size);;
  store curr (set_next NULL);;
  store curr (set_free false);;
  modify (set_counters (count_grow size));;
  mret curr.

Definition malloc (size : Z) : M Z :=
  ar ← gets atexit_registered;
  when (ar =? 0) (modify (set_atexit_registered 1));;
  let size := ALIGN4 size in
  if size =? 0 then mret NULL else
  last ← gets heapList;
  '(next, last) ← findFreeBlock last size;
  fnd ← (if next =? NULL then mret false
         else b ← load next; mret (to_size_t (size + sizeof_block) <? blk_size b));
  when fnd (
    let newBlock := to_size_t (next + sizeof_block + size) in
    b ← load next;
    store newBlock (set_size (to_size_t (to_size_t (blk_size b - size) - sizeof_block)));;
    store newBlock (set_free true);;
    b ← load next;
    store newBlock (set_next (blk_next b));;
    store next (set_size size);;
    store next (set_next newBlock);;
    modify (set_counters incr_splits));;
  let finish (next : Z) : M Z :=
    store next (set_free false);;
    modify (set_counters (count_malloc size));;
    mret (BLOCK_DATA next) in
  if next =? NULL then
    next ← growHeap last size;
    if next =? NULL then mret NULL else finish next
  else
    modify (set_counters incr_reuses);;
    finish next.

(* while (temp) { if (temp->free && temp->next && temp->next->free) { ... }
     temp = temp->next; } *)
Fixpoint coalesce_loop (fuel : nat) (temp : Z) : M unit :=
  match fuel with
  | O => lift Timeout
  | S fuel' =>
    if temp =? NULL then mret tt else
    t ← load temp;
    mrg ← (if blk_free t && negb (blk_next t =? NULL)
           then n ← load (blk_next t); mret (blk_free n)
           else mret false);
    when mrg (
      t ← load temp;
      n ← load (blk_next t);
      store temp (set_size (to_size_t (blk_size t + to_size_t (blk_size n + sizeof_block))));;
      t ← load temp;
      n ← load (blk_next t);
      store temp (set_next (blk_next n));;
      modify (set_counters incr_coalesces));;
    t ← load temp;
    coalesce_loop fuel' (blk_next t)
  end.

Definition free (ptr : Z) : M unit :=
  if ptr =? NULL then mret tt else
  let curr := BLOCK_HEADER ptr in
  b ← load curr;
  assert (negb (blk_free b));;
  store curr (set_free true);;
  temp ← gets heapList;
  h ← gets blocks;
  coalesce_loop (fuel_of h) temp;;
  modify (set_counters incr_frees).

Definition calloc (nmemb size : Z) : M Z :=
  let total_size := to_size_t (nmemb * size) in
  ptr ← malloc total_size;
  when (negb (ptr =? NULL)) (modify (set_bytes (memset ptr 0 total_size)));;
  mret ptr.

Definition realloc (ptr size : Z) : M Z :=
  if ptr =? NULL then malloc size else
  if size =? 0 then free ptr;; mret NULL else
  newPtr ← malloc size;
  when (negb (newPtr =? NULL)) (
    oldBlock ← load (BLOCK_HEADER ptr);
    modify (set_bytes (memcpy newPtr ptr
      (if blk_size oldBlock <? size then blk_size oldBlock else size)));;
    free ptr);;
  mret newPtr.

End Program.

(** ** Predicates used by the properties *)

(* the state malloc continues with after its atexit bookkeeping *)
Definition registered (st : state) : state :=
  if atexit_registered st =? 0 then set_atexit_registered 1 st else st.

(* the NULL-terminated list that starts at a header address *)
Inductive heap_list (h : gmap Z block) : Z -> list (Z * block) -> Prop :=
| heap_list_nil : heap_list h NULL []
| heap_list_cons a b l :
    a <> NULL -> h !! a = Some b -> heap_list h (blk_next b) l ->
    heap_list h a ((a, b) :: l).

(* two neighbours of the list are both free *)
Fixpoint adjacent_free (l : list (Z * block)) : Prop :=
  match l with
  | [] => False
  | (_, b) :: l' =>
    match l' with
    | [] => False
    | (_, n) :: _ => (blk_free b = true /\ blk_free n = true) \/ adjacent_free l'
    end
  end.

(* size_t fields hold 64-bit unsigned values *)
Definition sized (b : block) : Prop := 0 <= blk_size b < 2 ^ 64.

(* the environment: breaks are user-space addresses *)
Definition env_ok (c : config) : Prop :=
  0 < brk_lo c /\ brk_lo c <= brk_hi c /\ brk_hi c < 2 ^ 63.

(* what the next field of a block that ends at address y holds when the
   heap ends at e *)
Definition nxt (e y : Z) : Z := if y =? e then NULL else y.

(* blocks l laid out back to back from address a to address m, in a heap
   that ends at e *)
Fixpoint seg (h : gmap Z block) (e a : Z) (l : list block) (m : Z) : Prop :=
  match l with
  | [] => a = m
  | b :: l' =>
    h !! a = Some b /\ 0 <= blk_size b /\
    blk_next b = nxt e (a + sizeof_block + blk_size b) /\
    seg h e (a + sizeof_block + blk_size b) l' m
  end.

(* the heap invariant: the list is the sequence of blocks laid out back to
   back between the initial break and the current break, every header in
   memory lies between the two, and the next-fit cursor is NULL (it is only
   assigned inside a loop that starts from it) *)
Record wf (c : config) (st : state) : Prop := mkWf {
  wf_env : env_ok c;
  wf_brk : brk_lo c <= brk st <= brk_hi c;
  wf_dom : forall a, is_Some (blocks st !! a) -> brk_lo c <= a < brk st;
  wf_head : heapList st = nxt (brk st) (brk_lo c);
  wf_cursor : actualLast st = NULL;
  wf_seg : exists l, seg (blocks st) (brk st) (brk_lo c) l (brk st)
}.

(* the list is address-ordered: each next block starts where the block
   before it ends *)
Fixpoint address_ordered (l : list (Z * block)) : Prop :=
  match l with
  | [] => True
  | (a, b) :: l' =>
    match l' with
    | [] => True
    | (a', _) :: _ => a < a' /\ a' = a + sizeof_block + blk_size b
    end /\ address_ordered l'
  end.

(* header memory after malloc has split the block at next *)
Definition split_blocks (size next : Z) (h : gmap Z block) : gmap Z block :=
  let newBlock := to_size_t (next + sizeof_block + size) in
  let b := default blank (h !! next) in
  let h1 := upd newBlock (set_free true)
              (upd newBlock
                 (set_size (to_size_t (to_size_t (blk_size b - size) - sizeof_block))) h) in
  let b1 := default blank (h1 !! next) in
  upd next (set_next newBlock)
    (upd next (set_size size) (upd newBlock (set_next (blk_next b1)) h1)).

Definition split_state (size next : Z) (st : state) : state :=
  set_counters incr_splits (set_blocks (split_blocks size next) st).

(* the state after the last three statements of malloc *)
Definition finish_state (size next : Z) (st : state) : state :=
  set_counters (count_malloc size) (set_blocks (upd next (set_free false)) st).

(* the state growHeap leaves when the break has moved *)
Definition grown_state (last size : Z) (st : state) : state :=
  let curr := brk st in
  let st1 := set_brk (brk st + to_intptr (to_size_t (sizeof_block + size))) st in
  let st2 := if heapList st1 =? NULL then set_heapList curr st1 else st1 in
  let st3 := if negb (last =? NULL)
             then set_blocks (upd last (set_next curr)) st2 else st2 in
  set_counters (count_grow size)
    (set_blocks (fun h => upd curr (set_free false)
       (upd curr (set_next NULL) (upd curr (set_size size) h))) st3).

(* the state after free has merged block n into block t at temp *)
Definition merged_state (temp : Z) (t n : block) (st : state) : state :=
  set_counters incr_coalesces
    (set_blocks (fun h =>
       upd temp (set_next (blk_next n))
         (upd temp (set_size (to_size_t (blk_size t + to_size_t (blk_size n + sizeof_block)))) h))
       st).

(* the address of the last element of a list, or d when it is empty *)
Definition last_addr (l : list (Z * block)) (d : Z) : Z :=
  match last l with
  | Some ab => ab.1
  | None => d
  end.

(* the blocks of a layout paired with their addresses *)
Fixpoint place (a : Z) (l : list block) : list (Z * block) :=
  match l with
  | [] => []
  | b :: l' => (a, b) :: place (a + sizeof_block + blk_size b) l'
  end.

(* a list element that the scan passes over *)
Definition unfit (size : Z) (ab : Z * block) : Prop := fits ab.2 size = false.

(* block b at address r of the list is free and large enough *)
Definition fitting (size : Z) (l : list (Z * block)) (r : Z) (b : block) : Prop :=
  (r, b) ∈ l /\ fits b size = true.

(* st' differs from st in header memory and counters only *)
Definition heap_only (st st' : state) : Prop :=
  atexit_registered st' = atexit_registered st /\
  heapList st' = heapList st /\
  actualLast st' = actualLast st /\
  bytes st' = bytes st /\
  brk st' = brk st.

(** ** The layout, the allocations and what the properties say of them *)

(* the layout of the heap of st: its blocks in address order *)
Definition layout (c : config) (st : state) (l : list block) : Prop :=
  seg (blocks st) (brk st) (brk_lo c) l (brk st).

(* what a layout shows of a block: its size and whether it is free *)
Definition view (l : list block) : list (Z * bool) :=
  (fun b => (blk_size b, blk_free b)) <$> l.

(* the bytes that blocks of these sizes take, one header each *)
Definition extent (v : list (Z * bool)) : Z :=
  foldr (fun x n => sizeof_block + x.1 + n) 0 v.

(* two neighbours of a view are both free *)
Fixpoint adjacent_free_view (v : list (Z * bool)) : Prop :=
  match v with
  | [] => False
  | (_, f) :: v' =>
    match v' with
    | [] => False
    | (_, f') :: _ => (f = true /\ f' = true) \/ adjacent_free_view v'
    end
  end.

(* one pass of free's loop, on the view: a free block followed by a free
   block absorbs it, and the pass goes on behind the absorbed block *)
Fixpoint coalesce_pass (v : list (Z * bool)) : list (Z * bool) :=
  match v with
  | [] => []
  | (s, f) :: v' =>
    match v' with
    | [] => [(s, f)]
    | (s', f') :: v'' =>
      if f && f' then (s + s' + sizeof_block, true) :: coalesce_pass v''
      else (s, f) :: coalesce_pass v'
    end
  end.

(* st' is st after some merges of free's loop: the same flags at every
   header, the same live headers, k more coalesces counted *)
Definition coalesced (st st' : state) : Prop :=
  heap_only st st' /\
  (forall a, blk_free <$> blocks st' !! a = blk_free <$> blocks st !! a) /\
  (forall a b, blocks st !! a = Some b -> blk_free b = false -> blocks st' !! a = Some b) /\
  exists k : nat, counters st' = Nat.iter k incr_coalesces (counters st).

(* the view of the blocks that take the place of a reused block b *)
Definition reuse_view (size : Z) (b : block) : list (Z * bool) :=
  if size + sizeof_block <? blk_size b
  then [(size, false); (blk_size b - size - sizeof_block, true)]
  else [(blk_size b, false)].

(* the state after malloc has reused the block at next *)
Definition reused_state (size next : Z) (b : block) (st : state) : state :=
  finish_state size next (set_counters incr_reuses
    (if to_size_t (size + sizeof_block) <? blk_size b
     then split_state size next st else st)).

(* the payloads of the live blocks of a view that starts at address a: the
   payload address and the size of each, in address order *)
Fixpoint payloads (a : Z) (v : list (Z * bool)) : list (Z * Z) :=
  match v with
  | [] => []
  | (s, f) :: v' =>
    if f then payloads (a + sizeof_block + s) v'
    else (a + sizeof_block, s) :: payloads (a + sizeof_block + s) v'
  end.

(* the allocations of a state: the payloads of the live blocks of its list *)
Definition allocations (c : config) (st : state) (A : list (Z * Z)) : Prop :=
  exists l, layout c st l /\ A = payloads (brk_lo c) (view l).

(* payloads from address a to address e, each at least a header after the
   end of the one before *)
Fixpoint apart (a e : Z) (A : list (Z * Z)) : Prop :=
  match A with
  | [] => a <= e
  | (p, s) :: A' => a + sizeof_block <= p /\ 0 <= s /\ apart (p + s) e A'
  end.

(* what the counters say about each other and about the break *)
Definition stats_ok (c : config) (st : state) : Prop :=
  num_blocks (counters st) = num_grows (counters st) /\
  num_mallocs (counters st)
    = to_int (num_reuses (counters st) + num_grows (counters st)) /\
  to_int (brk st - brk_lo c)
    = to_int (max_heap (counters st) + sizeof_block * num_grows (counters st)).

(* every size field in header memory is a multiple of 4 *)
Definition aligned_headers (h : gmap Z block) : Prop :=
  forall a b, h !! a = Some b -> blk_size b mod 4 = 0.
Definition sizes_aligned (st : state) : Prop := aligned_headers (blocks st).

(** ** Sequences of calls *)

(* a call of a client program *)
Inductive call : Type :=
| Malloc (size : Z)
| Free (ptr : Z)
| Calloc (nmemb size : Z)
| Realloc (ptr size : Z).

Definition perform (c : config) (k : call) : M Z :=
  match k with
  | Malloc size => malloc c size
  | Free ptr => free ptr;; mret NULL
  | Calloc nmemb size => calloc c nmemb size
  | Realloc ptr size => realloc c ptr size
  end.

Fixpoint run_calls (c : config) (ks : list call) : M unit :=
  match ks with
  | [] => mret tt
  | k :: ks' => perform c k;; run_calls c ks'
  end.

(* the rounded number of bytes a call asks malloc for *)
Definition request (k : call) : Z :=
  match k with
  | Malloc size => ALIGN4 size
  | Free _ => 0
  | Calloc nmemb size => ALIGN4 (to_size_t (nmemb * size))
  | Realloc _ size => ALIGN4 size
  end.

(** ** Example environments and runs *)

Definition c_first : config := mkConfig FIT 4096 (2 ^ 40).
Definition c_worst : config := mkConfig WORST 4096 (2 ^ 40).
Definition c_best : config := mkConfig BEST 4096 (2 ^ 40).
(* an environment whose break cannot move *)
Definition c_full : config := mkConfig FIT 4096 4096.

(* three blocks, freed left, right, middle *)
Definition run_free_lrm : M (Z * Z * Z) :=
  p1 ← malloc c_first 16;
  p2 ← malloc c_first 16;
  p3 ← malloc c_first 16;
  free p1;;
  free p3;;
  free p2;;
  mret (p1, p2, p3).

(* three blocks, freed middle, left, right *)
Definition run_free_mlr : M (Z * Z * Z) :=
  p1 ← malloc c_first 16;
  p2 ← malloc c_first 16;
  p3 ← malloc c_first 16;
  free p2;;
  free p1;;
  free p3;;
  mret (p1, p2, p3).

(* a request that wraps the sbrk increment to a negative value *)
Definition run_shrink : M Z :=
  p1 ← malloc c_first 1000;
  p2 ← malloc c_first (2 ^ 64 - 1000);
  malloc c_first 4.

(* two free blocks of 2^31 and 2^31 + 4 bytes, kept apart by live ones *)
Definition run_big_blocks (c : config) : M unit :=
  p1 ← malloc c (2 ^ 31);
  p2 ← malloc c 4;
  p3 ← malloc c (2 ^ 31 + 4);
  p4 ← malloc c 4;
  free p1;;
  free p3.

(* the state a run ends in *)
Definition final_state {A : Type} (r : result (A * state)) (d : state) : state :=
  match r with
  | Done (_, st) => st
  | _ => d
  end.

Definition st_big : state :=
  final_state (run_big_blocks c_worst (init_state c_worst)) (init_state c_worst).
(* the list that run_big_blocks builds *)
Definition big_list : list (Z * block) :=
  [ (4096, mkBlock 2147483648 2147487768 true);
    (2147487768, mkBlock 4 2147487796 false);
    (2147487796, mkBlock 2147483652 4294971472 true);
    (4294971472, mkBlock 4 NULL false) ].

(* two free blocks of 16 and 40 bytes, kept apart by live ones *)
Definition run_two_gaps : M unit :=
  p1 ← malloc c_worst 16;
  p2 ← malloc c_worst 8;
  p3 ← malloc c_worst 40;
  p4 ← malloc c_worst 8;
  free p1;;
  free p3.
Definition st_two_gaps : state :=
  final_state (run_two_gaps (init_state c_worst)) (init_state c_worst).
(* the list that run_two_gaps builds *)
Definition two_gaps_list : list (Z * block) :=
  [ (4096, mkBlock 16 4136 true);
    (4136, mkBlock 8 4168 false);
    (4168, mkBlock 40 4232 true);
    (4232, mkBlock 8 NULL false) ].

(* a block of 100 bytes, allocated and freed *)
Definition run_reuse : M unit :=
  p ← malloc c_first 100;
  free p.
Definition st_reuse : state :=
  final_state (run_reuse (init_state c_first)) (init_state c_first).

(* a block of SIZE_MAX - 3 bytes, allocated and freed *)
Definition run_huge : M unit :=
  p ← malloc c_first (2 ^ 64 - 4);
  free p.
Definition st_huge : state :=
  final_state (run_huge (init_state c_first)) (init_state c_first).

(* one live block of 12 bytes *)
Definition st_live : state :=
  final_state (malloc c_first 10 (init_state c_first)) (init_state c_first).

Definition c_next : config := mkConfig NEXT 4096 (2 ^ 40).

(* two live blocks, of 12 and of 32 bytes *)
Definition st_two : state := final_state (malloc c_first 32 st_live) st_live.
(* the first of them freed *)
Definition st_freed : state := final_state (free 4120 st_two) st_two.
(* the first of them moved to a block of 40 bytes *)
Definition st_moved : state := final_state (realloc c_first 4120 40 st_two) st_two.
(* a second block, of 3 * 4 zeroed bytes *)
Definition st_zeroed : state := final_state (calloc c_first 3 4 st_live) st_live.
(* the block of 100 bytes before it is freed *)
Definition st_hundred : state :=
  final_state (malloc c_first 100 (init_state c_first)) (init_state c_first).
(* a client program *)
Definition calls_example : list call :=
  [Malloc 100; Malloc 32; Free 4120; Malloc 10; Calloc 2 8].
Definition st_run : state :=
  final_state (run_calls c_first calls_example (init_state c_first)) (init_state c_first).

(** * Properties *)

Ltac munfold :=
  unfold store, when, assert in *;
  unfold mbind, M_bind, mret, M_ret, gets, modify, lift in *;
  cbv beta iota.

Ltac state_simpl :=
  cbn [atexit_registered counters heapList actualLast blocks bytes brk
       set_atexit_registered set_counters set_heapList set_actualLast
       set_blocks set_bytes set_brk] in *.

(** ** Machine arithmetic *)

Lemma to_size_t_id z : 0 <= z < 2 ^ 64 -> to_size_t z = z.
Proof. intros. unfold to_size_t. apply Z.mod_small. lia. Qed.

Lemma to_size_t_range z : 0 <= to_size_t z < 2 ^ 64.
Proof. unfold to_size_t. apply Z.mod_pos_bound. lia. Qed.

Lemma to_int_id z : - 2 ^ 31 <= z <= INT_MAX -> to_int z = z.
Proof.
  unfold to_int, INT_MAX. intros. rewrite Z.mod_small; lia.
Qed.

Lemma to_intptr_id z : - 2 ^ 63 <= z < 2 ^ 63 -> to_intptr z = z.
Proof.
  unfold to_intptr. intros. rewrite Z.mod_small; lia.
Qed.

Lemma to_size_t_add_ne next k : 0 < k < 2 ^ 64 -> to_size_t (next + k) <> next.
Proof.
  intros Hk. unfold to_size_t. change (2 ^ 64) with 18446744073709551616 in *.
  Z.div_mod_to_equations. lia.
Qed.

Lemma int_add_size n s : to_int (to_size_t (to_size_t n + s)) = to_int (n + s).
Proof.
  unfold to_int, to_size_t.
  change (2 ^ 64) with (2 ^ 32 * 2 ^ 32). change (2 ^ 31) with 2147483648.
  change (2 ^ 32) with 4294967296.
  Z.div_mod_to_equations. lia.
Qed.

Lemma min_ltb a b : (if a <? b then a else b) = Z.min a b.
Proof. destruct (Z.ltb_spec a b); lia. Qed.

Lemma ALIGN4_round s :
  0 <= s < 2 ^ 64 -> ALIGN4 s = to_size_t (4 * ((s + 3) / 4)).
Proof.
  intros Hs. unfold ALIGN4, to_size_t.
  rewrite Z.shiftl_mul_pow2, Z.shiftr_div_pow2 by lia.
  change (2 ^ 2) with 4. change (2 ^ 64) with 18446744073709551616.
  Z.div_mod_to_equations. lia.
Qed.

Lemma ALIGN4_range s : 0 <= ALIGN4 s < 2 ^ 64.
Proof. apply to_size_t_range. Qed.

Lemma ALIGN4_small s :
  1 <= s <= 2 ^ 64 - 4 -> s <= ALIGN4 s < s + 4 /\ ALIGN4 s mod 4 = 0.
Proof.
  intros Hs. rewrite ALIGN4_round by lia. unfold to_size_t.
  change (2 ^ 64) with 18446744073709551616 in *.
  Z.div_mod_to_equations. lia.
Qed.

Lemma ALIGN4_zero s :
  0 <= s < 2 ^ 64 -> (ALIGN4 s = 0 <-> s = 0 \/ 2 ^ 64 - 4 < s).
Proof.
  intros Hs. rewrite ALIGN4_round by lia. unfold to_size_t.
  change (2 ^ 64) with 18446744073709551616 in *.
  Z.div_mod_to_equations. lia.
Qed.

Lemma ALIGN4_idem s : 0 <= s < 2 ^ 64 -> ALIGN4 (ALIGN4 s) = ALIGN4 s.
Proof.
  intros Hs. pose proof (ALIGN4_range s) as Hr.
  rewrite (ALIGN4_round (ALIGN4 s)) by exact Hr.
  rewrite (ALIGN4_round s) in * by lia. unfold to_size_t in *.
  change (2 ^ 64) with 18446744073709551616 in *.
  Z.div_mod_to_equations. lia.
Qed.

(** ** States, header memory and payload memory *)

Lemma state_eq st1 st2 :
  atexit_registered st1 = atexit_registered st2 ->
  counters st1 = counters st2 ->
  heapList st1 = heapList st2 ->
  actualLast st1 = actualLast st2 ->
  blocks st1 = blocks st2 ->
  bytes st1 = bytes st2 ->
  brk st1 = brk st2 ->
  st1 = st2.
Proof. destruct st1, st2. simpl. intros. subst. reflexivity. Qed.

Lemma set_actualLast_same st : set_actualLast (actualLast st) st = st.
Proof. by destruct st. Qed.

Lemma heap_only_refl st : heap_only st st.
Proof. by repeat split. Qed.

Lemma heap_only_trans st1 st2 st3 :
  heap_only st1 st2 -> heap_only st2 st3 -> heap_only st1 st3.
Proof.
  intros (?&?&?&?&?) (?&?&?&?&?). repeat split; congruence.
Qed.

Lemma registered_fields st :
  counters (registered st) = counters st /\ heapList (registered st) = heapList st /\
  actualLast (registered st) = actualLast st /\ blocks (registered st) = blocks st /\
  bytes (registered st) = bytes st /\ brk (registered st) = brk st.
Proof. unfold registered. by destruct (atexit_registered st =? 0). Qed.

Lemma heapList_registered st : heapList (registered st) = heapList st.
Proof. unfold registered. by destruct (atexit_registered st =? 0). Qed.

Lemma upd_lookup a f h b : h !! a = Some b -> upd a f h !! a = Some (f b).
Proof. intros H. unfold upd. rewrite lookup_insert_eq, H. done. Qed.

Lemma upd_lookup_eq a f h : upd a f h !! a = Some (f (default blank (h !! a))).
Proof. unfold upd. by rewrite lookup_insert_eq. Qed.

Lemma upd_lookup_ne a a' f h : a <> a' -> upd a f h !! a' = h !! a'.
Proof. intros H. unfold upd. by rewrite lookup_insert_ne. Qed.

Lemma upd_is_Some a a' f h : is_Some (h !! a') -> is_Some (upd a f h !! a').
Proof.
  intros H. unfold upd. destruct (decide (a = a')) as [->|].
  - rewrite lookup_insert_eq. eauto.
  - by rewrite lookup_insert_ne.
Qed.

Lemma upd_is_Some_inv a f h x : is_Some (upd a f h !! x) -> x = a \/ is_Some (h !! x).
Proof.
  unfold upd. destruct (decide (a = x)) as [->|Hne]; [by left|].
  rewrite lookup_insert_ne by done. by right.
Qed.

Lemma upd_dom x f h y : is_Some (h !! x) -> (is_Some (upd x f h !! y) <-> is_Some (h !! y)).
Proof.
  intros Hx. unfold upd. destruct (decide (x = y)) as [->|].
  - rewrite lookup_insert_eq. split; eauto.
  - by rewrite lookup_insert_ne.
Qed.

Lemma fits_spec b size : fits b size = true <-> blk_free b = true /\ size <= blk_size b.
Proof. unfold fits. rewrite andb_true_iff, Z.leb_le. done. Qed.

Lemma memset_inside dst c n m a : dst <= a < dst + n -> memset dst c n m a = c.
Proof.
  intros H. unfold memset.
  destruct (Z.leb_spec dst a); [|lia]. destruct (Z.ltb_spec a (dst + n)); [done|lia].
Qed.

Lemma memset_outside dst c n m a : a < dst \/ dst + n <= a -> memset dst c n m a = m a.
Proof.
  intros H. unfold memset.
  destruct (Z.leb_spec dst a); [|done]. destruct (Z.ltb_spec a (dst + n)); [lia|done].
Qed.

Lemma memcpy_inside dst src n m i :
  0 <= i < n -> memcpy dst src n m (dst + i) = m (src + i).
Proof.
  intros H. unfold memcpy.
  destruct (Z.leb_spec dst (dst + i)); [|lia].
  destruct (Z.ltb_spec (dst + i) (dst + n)); [|lia]. cbn [andb]. f_equal. lia.
Qed.

(** ** What the functions compute *)

Lemma malloc_prologue {A} (k : unit -> M A) st :
  (gets atexit_registered ≫= λ ar : Z,
     when (ar =? 0) (modify (set_atexit_registered 1)) ≫= k) st
  = k tt (registered st).
Proof.
  munfold. unfold registered. destruct (atexit_registered st =? 0); reflexivity.
Qed.

Lemma malloc_zero c size st :
  ALIGN4 size = 0 -> malloc c size st = Done (NULL, registered st).
Proof.
  intros H. unfold malloc, registered. rewrite H. munfold. simpl.
  destruct (atexit_registered st =? 0); reflexivity.
Qed.

Lemma malloc_ext c s1 s2 st : ALIGN4 s1 = ALIGN4 s2 -> malloc c s1 st = malloc c s2 st.
Proof. intros H. unfold malloc. rewrite H. reflexivity. Qed.

Lemma growHeap_eq c last size st :
  growHeap c last size st =
  let incr := to_intptr (to_size_t (sizeof_block + size)) in
  if incr =? 0 then
    if brk st =? SBRK_FAILED then Done (NULL, st)
    else Done (brk st, grown_state last size st)
  else if (brk_lo c <=? brk st + incr) && (brk st + incr <=? brk_hi c) then
    if brk st =? SBRK_FAILED then Done (NULL, set_brk (brk st + incr) st)
    else Done (brk st, grown_state last size st)
  else if brk st =? SBRK_FAILED then Done (NULL, st) else Abort.
Proof.
  unfold growHeap, grown_state, sbrk. munfold. cbn [Z.eqb]. cbv zeta.
  destruct (to_intptr (to_size_t (sizeof_block + size)) =? 0) eqn:E0.
  - apply Z.eqb_eq in E0. rewrite E0, Z.add_0_r, Z.eqb_refl.
    destruct (brk st =? SBRK_FAILED); [reflexivity|].
    state_simpl.
    destruct (heapList st =? NULL), (last =? NULL); reflexivity.
  - destruct ((brk_lo c <=? _) && _).
    + rewrite Z.eqb_refl. destruct (brk st =? SBRK_FAILED); [reflexivity|].
      state_simpl.
      destruct (heapList st =? NULL), (last =? NULL); reflexivity.
    + destruct (brk st =? SBRK_FAILED); reflexivity.
Qed.

Lemma grown_state_fields last size st :
  counters (grown_state last size st) = count_grow size (counters st) /\
  bytes (grown_state last size st) = bytes st /\
  atexit_registered (grown_state last size st) = atexit_registered st.
Proof.
  unfold grown_state. cbv zeta. state_simpl.
  destruct (heapList st =? NULL), (negb (last =? NULL)); done.
Qed.

Lemma malloc_eq c size st :
  malloc c size st =
  let sz := ALIGN4 size in
  if sz =? 0 then Done (NULL, registered st) else
  match findFreeBlock c (heapList st) sz (registered st) with
  | Done ((next, last), st1) =>
    if next =? NULL then
      match growHeap c last sz st1 with
      | Done (nb, st2) =>
        if nb =? NULL then Done (NULL, st2)
        else Done (BLOCK_DATA nb, finish_state sz nb st2)
      | Abort => Abort | Undef => Undef | Timeout => Timeout
      end
    else
      match blocks st1 !! next with
      | Some b =>
        Done (BLOCK_DATA next,
              finish_state sz next (set_counters incr_reuses
                (if to_size_t (sz + sizeof_block) <? blk_size b
                 then split_state sz next st1 else st1)))
      | None => Undef
      end
  | Abort => Abort | Undef => Undef | Timeout => Timeout
  end.
Proof.
  unfold malloc. rewrite malloc_prologue. cbv zeta beta.
  destruct (ALIGN4 size =? 0); [reflexivity|].
  munfold. rewrite heapList_registered.
  destruct (findFreeBlock c (heapList st) (ALIGN4 size) (registered st))
    as [[[next last] st1]| | |]; [|done..].
  destruct (next =? NULL) eqn:En.
  - destruct (growHeap c last (ALIGN4 size) st1) as [[nb st2]| | |]; [|done..].
    destruct (nb =? NULL); reflexivity.
  - unfold load, split_state, split_blocks, finish_state. cbv zeta.
    cbn [blocks set_blocks set_counters].
    destruct (blocks st1 !! next) as [b|] eqn:Hb; [|done].
    destruct (to_size_t (ALIGN4 size + sizeof_block) <? blk_size b); [|reflexivity].
    cbn [default]. rewrite Hb. cbn [blocks set_blocks default].
    match goal with |- context [match ?h !! next with Some _ => _ | None => _ end] =>
      let H := fresh in
      assert (H : is_Some (h !! next)) by (do 2 apply upd_is_Some; eauto);
      destruct H as [b1 H]; rewrite H end.
    do 2 f_equal. apply state_eq; state_simpl; try reflexivity.
    rewrite Hb. cbn [default]. unfold id. rewrite H. reflexivity.
Qed.

(* header memory after the split of block b at next and the final
   next->free = false *)
Lemma split_lookup size next b h :
  h !! next = Some b -> sized b -> 0 <= size -> size + sizeof_block < blk_size b ->
  to_size_t (next + sizeof_block + size) <> next /\
  upd next (set_free false) (split_blocks size next h) !! next =
    Some (mkBlock size (to_size_t (next + sizeof_block + size)) false) /\
  upd next (set_free false) (split_blocks size next h)
    !! to_size_t (next + sizeof_block + size) =
    Some (mkBlock (blk_size b - size - sizeof_block) (blk_next b) true) /\
  forall x, x <> next -> x <> to_size_t (next + sizeof_block + size) ->
    upd next (set_free false) (split_blocks size next h) !! x = h !! x.
Proof.
  intros Hb Hsized Hsz Hex. unfold sized in Hsized.
  set (nb := to_size_t (next + sizeof_block + size)).
  assert (Hne : nb <> next).
  { unfold nb. rewrite <- Z.add_assoc. apply to_size_t_add_ne.
    unfold sizeof_block in *. lia. }
  assert (HX : to_size_t (to_size_t (blk_size b - size) - sizeof_block)
               = blk_size b - size - sizeof_block).
  { rewrite (to_size_t_id (blk_size b - size)) by (unfold sizeof_block in *; lia).
    apply to_size_t_id. unfold sizeof_block in *. lia. }
  split; [done|].
  unfold split_blocks. cbv zeta. fold nb.
  rewrite Hb. cbn [default from_option]. unfold id. rewrite HX.
  rewrite !(upd_lookup_ne nb next) by done. rewrite Hb. cbn [default from_option]. unfold id.
  split; [|split].
  - rewrite !upd_lookup_eq. rewrite !(upd_lookup_ne nb next) by done. rewrite Hb.
    reflexivity.
  - rewrite !(upd_lookup_ne next nb) by done. rewrite !upd_lookup_eq.
    destruct (h !! nb); reflexivity.
  - intros x Hx1 Hx2. rewrite !(upd_lookup_ne next x) by done.
    rewrite !(upd_lookup_ne nb x) by done. reflexivity.
Qed.

Lemma sbrk_denied c incr st :
  incr <> 0 -> ~ (brk_lo c <= brk st + incr <= brk_hi c) ->
  sbrk c incr st = Done (SBRK_FAILED, st).
Proof.
  intros H0 Hd. unfold sbrk. destruct (Z.eqb_spec incr 0); [done|].
  destruct (Z.leb_spec (brk_lo c) (brk st + incr)), (Z.leb_spec (brk st + incr) (brk_hi c));
    simpl; try reflexivity. lia.
Qed.

Lemma growHeap_denied c last size st :
  to_intptr (to_size_t (sizeof_block + size)) <> 0 ->
  ~ (brk_lo c <= brk st + to_intptr (to_size_t (sizeof_block + size)) <= brk_hi c) ->
  brk st <> SBRK_FAILED ->
  growHeap c last size st = Abort.
Proof.
  intros H0 Hd Hb. unfold growHeap. munfold.
  change (sbrk c 0 st) with (Done (brk st, st)). cbv beta iota.
  rewrite sbrk_denied by assumption.
  destruct (Z.eqb_spec (brk st) SBRK_FAILED); [done|reflexivity].
Qed.

Lemma malloc_os_denial_aborts c size st last st1 :
  ALIGN4 size <> 0 ->
  findFreeBlock c (heapList st) (ALIGN4 size) (registered st) = Done ((NULL, last), st1) ->
  to_intptr (to_size_t (sizeof_block + ALIGN4 size)) <> 0 ->
  ~ (brk_lo c <= brk st1 + to_intptr (to_size_t (sizeof_block + ALIGN4 size)) <= brk_hi c) ->
  brk st1 <> SBRK_FAILED ->
  malloc c size st = Abort.
Proof.
  intros Hz Hf H0 Hd Hb. unfold malloc.
  destruct (Z.eqb_spec (ALIGN4 size) 0); [done|].
  munfold.
  unfold registered in *.
  destruct (atexit_registered st =? 0); cbn [heapList set_atexit_registered];
    rewrite Hf; cbn [Z.eqb NULL]; cbv beta iota;
    rewrite growHeap_denied by assumption; reflexivity.
Qed.

Lemma free_eq ptr st b :
  ptr <> NULL -> blocks st !! BLOCK_HEADER ptr = Some b ->
  free ptr st =
  if blk_free b then Abort else
  match coalesce_loop (fuel_of (upd (BLOCK_HEADER ptr) (set_free true) (blocks st)))
          (heapList st) (set_blocks (upd (BLOCK_HEADER ptr) (set_free true)) st) with
  | Done (_, st2) => Done (tt, set_counters incr_frees st2)
  | Abort => Abort | Undef => Undef | Timeout => Timeout
  end.
Proof.
  intros Hp Hb. unfold free. destruct (Z.eqb_spec ptr NULL) as [|_]; [done|].
  munfold. unfold load. rewrite Hb. destruct (blk_free b); reflexivity.
Qed.

Lemma coalesce_step_skip fuel temp st t :
  temp <> NULL -> blocks st !! temp = Some t ->
  (blk_free t = false \/ blk_next t = NULL \/
   exists n, blocks st !! blk_next t = Some n /\ blk_free n = false) ->
  coalesce_loop (S fuel) temp st = coalesce_loop fuel (blk_next t) st.
Proof.
  intros Hne Ht Hc. cbn [coalesce_loop].
  destruct (Z.eqb_spec temp NULL) as [|_]; [done|]. munfold. unfold load. rewrite Ht.
  destruct Hc as [Hf|[Hn|(n & Hn & Hf)]].
  - rewrite Hf. cbn [andb]. rewrite Ht. reflexivity.
  - rewrite Hn. cbn [Z.eqb NULL negb]. rewrite andb_false_r. rewrite Ht, Hn. reflexivity.
  - destruct (blk_free t && negb (blk_next t =? NULL)).
    + rewrite Hn, Hf, Ht. reflexivity.
    + rewrite Ht. reflexivity.
Qed.

Lemma coalesce_step_merge fuel temp st t n :
  temp <> NULL -> blocks st !! temp = Some t -> blk_free t = true ->
  blk_next t <> NULL -> blk_next t <> temp ->
  blocks st !! blk_next t = Some n -> blk_free n = true ->
  coalesce_loop (S fuel) temp st =
  coalesce_loop fuel (blk_next n) (merged_state temp t n st).
Proof.
  intros Hne Ht Hft Hnn Hnt Hn Hfn. cbn [coalesce_loop].
  destruct (Z.eqb_spec temp NULL) as [|_]; [done|]. munfold. unfold load. rewrite Ht.
  destruct (Z.eqb_spec (blk_next t) NULL) as [|_]; [done|]. rewrite Hft. cbn [andb negb].
  rewrite Hn, Hfn, Ht, Hn. state_simpl.
  rewrite (upd_lookup _ _ _ _ Ht). state_simpl. cbn [blk_next set_size].
  rewrite upd_lookup_ne by done. rewrite Hn.
  unfold merged_state. state_simpl.
  erewrite upd_lookup; [|by apply upd_lookup]. reflexivity.
Qed.

Lemma coalesce_loop_no_abort fuel temp st : coalesce_loop fuel temp st <> Abort.
Proof.
  revert temp st. induction fuel as [|fuel IH]; intros temp st; simpl; [done|].
  destruct (temp =? NULL); [done|].
  munfold. unfold load.
  repeat (simpl; match goal with
  | |- context [match ?h !! ?a with Some _ => _ | None => _ end] =>
      destruct (h !! a) eqn:?; try done
  | |- context [if ?b then _ else _] => destruct b eqn:?; try done
  end).
Qed.

Lemma coalesce_loop_bytes : forall fuel temp st st',
  coalesce_loop fuel temp st = Done (tt, st') -> bytes st' = bytes st.
Proof.
  induction fuel as [|fuel IH]; intros temp st st'; cbn [coalesce_loop]; [done|].
  destruct (temp =? NULL); [by intros [= <-]|].
  munfold. unfold load.
  repeat (state_simpl; match goal with
  | |- context [match ?h !! ?a with Some _ => _ | None => _ end] =>
      destruct (h !! a); [|done]
  | |- context [if ?b then _ else _] => destruct b
  end);
  intros H; apply IH in H; rewrite H; reflexivity.
Qed.

Lemma free_bytes ptr st st' : free ptr st = Done (tt, st') -> bytes st' = bytes st.
Proof.
  unfold free. destruct (ptr =? NULL); [by intros [= <-]|].
  munfold. unfold load. destruct (blocks st !! BLOCK_HEADER ptr) as [b|]; [|done].
  destruct (blk_free b); [done|]. cbn [negb].
  match goal with |- context [coalesce_loop ?f ?t ?s] =>
    destruct (coalesce_loop f t s) as [[[] st2]| | |] eqn:Hloop; [|done..] end.
  intros [= <-]. apply coalesce_loop_bytes in Hloop. state_simpl. done.
Qed.

(** ** The heap list *)

Lemma heap_list_det h a l1 l2 : heap_list h a l1 -> heap_list h a l2 -> l1 = l2.
Proof.
  intros H1. revert l2. induction H1 as [|a b l Ha Hb Hl IH]; intros l2 H2.
  - inversion H2; [done|]. done.
  - inversion H2 as [|a' b' l' Ha' Hb' Hl']; subst; [done|].
    rewrite Hb in Hb'. injection Hb' as <-. f_equal. by apply IH.
Qed.

Lemma heap_list_suffix h a l1 x b l2 :
  heap_list h a (l1 ++ (x, b) :: l2) -> heap_list h x ((x, b) :: l2).
Proof.
  revert a. induction l1 as [|[y c] l1 IH]; intros a H; simpl in H.
  - inversion H; subst. done.
  - inversion H; subst. eauto.
Qed.

Lemma heap_list_NoDup h a l : heap_list h a l -> NoDup l.*1.
Proof.
  induction 1 as [|a b l Ha Hb Hl IH]; simpl; [constructor|].
  constructor; [|done].
  intros Hin. apply list_elem_of_fmap in Hin as ([x b'] & Hx & Hin). simpl in Hx. subst x.
  apply list_elem_of_split in Hin as (l1 & l2 & ->).
  pose proof (heap_list_suffix _ _ _ _ _ _ Hl) as Hs.
  assert (Hc : heap_list h a ((a, b) :: l1 ++ (a, b') :: l2)) by (by constructor).
  pose proof (heap_list_det _ _ _ _ Hs Hc) as He.
  apply (f_equal length) in He. simpl in He. rewrite length_app in He. simpl in He. lia.
Qed.

Lemma heap_list_lookup h a l x b : heap_list h a l -> (x, b) ∈ l -> h !! x = Some b /\ x <> NULL.
Proof.
  induction 1 as [|a b' l Ha Hb Hl IH]; intros Hin.
  - by apply elem_of_nil in Hin.
  - apply elem_of_cons in Hin as [[= -> ->]|Hin]; [done|]. by apply IH.
Qed.

Lemma heap_list_length h a l : heap_list h a l -> (length l <= size h)%nat.
Proof.
  intros Hl. pose proof (heap_list_NoDup _ _ _ Hl) as Hnd.
  rewrite <- (length_fmap fst l).
  rewrite <- size_dom. rewrite <- (size_list_to_set (C := gset Z) (l.*1)) by done.
  apply subseteq_size. intros x Hx. apply elem_of_list_to_set in Hx.
  apply list_elem_of_fmap in Hx as ([y b] & -> & Hin). simpl.
  apply elem_of_dom. destruct (heap_list_lookup _ _ _ _ _ Hl Hin) as [-> _]. eauto.
Qed.

Lemma heap_list_fuel h a l : heap_list h a l -> (length l < fuel_of h)%nat.
Proof. intros H. apply heap_list_length in H. unfold fuel_of. lia. Qed.

Lemma last_addr_cons ab l d : last_addr (ab :: l) d = last_addr l ab.1.
Proof.
  unfold last_addr. destruct l as [|p l]; [done|].
  change (last (ab :: p :: l)) with (last (p :: l)).
  destruct (last (p :: l)) eqn:E; [done|]. by apply last_None in E.
Qed.

(** ** The scanning loops *)

Lemma first_fit_loop_spec h size l : forall fuel curr last,
  heap_list h curr l -> (length l < fuel)%nat ->
  exists r last', first_fit_loop fuel h size curr last = Done (r, last') /\
    ((r = NULL /\ Forall (unfit size) l /\ last' = last_addr l last) \/
     (exists l1 b l2, l = l1 ++ (r, b) :: l2 /\ Forall (unfit size) l1 /\
        fits b size = true /\ last' = last_addr l1 last)).
Proof.
  induction l as [|[a b] l IH]; intros fuel curr last Hl Hf.
  - inversion Hl; subst. destruct fuel; [simpl in Hf; lia|]. simpl.
    exists NULL, last. split; [done|]. left. done.
  - inversion Hl as [|a' b' l' Ha Hb Hl']; subst.
    destruct fuel as [|fuel]; [simpl in Hf; lia|]. simpl in Hf. simpl.
    destruct (Z.eqb_spec a NULL); [done|]. rewrite Hb.
    destruct (fits b size) eqn:Efit.
    + exists a, last. split; [done|]. right. exists [], b, l. done.
    + destruct (IH fuel (blk_next b) a Hl' ltac:(lia)) as (r & last' & -> & Hr).
      exists r, last'. split; [done|]. rewrite last_addr_cons. simpl.
      destruct Hr as [(-> & Hall & ->)|(l1 & b1 & l2 & -> & Hall & Hfit & ->)].
      * left. split; [done|]. split; [|done]. by constructor.
      * right. exists ((a, b) :: l1), b1, l2. split; [done|]. split; [by constructor|].
        split; [done|]. by rewrite last_addr_cons.
Qed.

Lemma next_fit_loop_null fuel h size last al :
  next_fit_loop (S fuel) h size NULL last al = Done (NULL, last, al).
Proof. reflexivity. Qed.

Lemma fitting_here size a b l : fits b size = true -> fitting size ((a, b) :: l) a b.
Proof. intros H. split; [apply elem_of_cons; by left|done]. Qed.

Lemma fitting_later size x l r b : fitting size l r b -> fitting size (x :: l) r b.
Proof. intros [Hin H]. split; [apply elem_of_cons; by right|done]. Qed.

Lemma fitting_suffix size l1 l2 r b : fitting size l2 r b -> fitting size (l1 ++ l2) r b.
Proof. intros [Hin H]. split; [apply elem_of_app; by right|done]. Qed.

(* the first loop of next fit over the rest of the list from curr *)
Lemma next_fit_loop_spec h size l : forall fuel curr last al,
  heap_list h curr l -> (length l < fuel)%nat ->
  exists r last' al', next_fit_loop fuel h size curr last al = Done (r, last', al') /\
    ((r = NULL /\ Forall (unfit size) l) \/ (exists b, fitting size l r b)).
Proof.
  induction l as [|[a b] l IH]; intros fuel curr last al Hl Hf.
  - inversion Hl; subst. destruct fuel; [simpl in Hf; lia|]. simpl.
    exists NULL, last, al. split; [done|]. left. done.
  - inversion Hl as [|a' b' l' Ha Hb Hl']; subst.
    destruct fuel as [|fuel]; [simpl in Hf; lia|]. simpl in Hf. simpl.
    destruct (Z.eqb_spec a NULL); [done|]. rewrite Hb.
    destruct (fits b size) eqn:Efit.
    + exists a, last, al. split; [done|]. right. exists b. by apply fitting_here.
    + destruct (IH fuel (blk_next b) a a Hl' ltac:(lia)) as (r & last' & al' & -> & Hr).
      exists r, last', al'. split; [done|].
      destruct Hr as [(-> & Hall)|(b1 & Hfit)].
      * left. split; [done|]. by constructor.
      * right. exists b1. by apply fitting_later.
Qed.

(* one step of a full scan: the rest of the list is scanned with candidate
   [cand] and bound [bound], and the block found is the candidate or fits *)
Local Ltac scan_rest IH fuel b a Hl' bound cand :=
  let r := fresh "r" in let b1 := fresh "b" in let Hfit := fresh "Hfit" in
  destruct (IH fuel (blk_next b) a bound cand Hl' ltac:(lia))
    as (r & -> & [->|(b1 & Hfit)]);
  eexists; (split; [reflexivity|]); eauto using fitting_here, fitting_later.

Lemma best_fit_loop_member h size l : forall fuel curr last sm bf,
  heap_list h curr l -> (length l < fuel)%nat ->
  exists r, best_fit_loop fuel h size curr last sm bf = Done (r, last_addr l last) /\
    (r = bf \/ exists b, fitting size l r b).
Proof.
  induction l as [|[a b] l IH]; intros fuel curr last sm bf Hl Hf.
  - inversion Hl; subst. destruct fuel; [simpl in Hf; lia|]. simpl.
    exists bf. split; [done|]. by left.
  - inversion Hl as [|a' b' l' Ha Hb Hl']; subst.
    destruct fuel as [|fuel]; [simpl in Hf; lia|]. simpl in Hf. simpl.
    destruct (Z.eqb_spec a NULL); [done|]. rewrite Hb. rewrite last_addr_cons. simpl.
    destruct (fits b size) eqn:Efit; simpl; [destruct (blk_size b <? to_size_t sm)|].
    + scan_rest IH fuel b a Hl' (to_int (blk_size b)) a.
    + scan_rest IH fuel b a Hl' sm bf.
    + scan_rest IH fuel b a Hl' sm bf.
Qed.

Lemma worst_fit_loop_member h size l : forall fuel curr last lg wf,
  heap_list h curr l -> (length l < fuel)%nat ->
  exists r, worst_fit_loop fuel h size curr last lg wf = Done (r, last_addr l last) /\
    (r = wf \/ exists b, fitting size l r b).
Proof.
  induction l as [|[a b] l IH]; intros fuel curr last lg wf Hl Hf.
  - inversion Hl; subst. destruct fuel; [simpl in Hf; lia|]. simpl.
    exists wf. split; [done|]. by left.
  - inversion Hl as [|a' b' l' Ha Hb Hl']; subst.
    destruct fuel as [|fuel]; [simpl in Hf; lia|]. simpl in Hf. simpl.
    destruct (Z.eqb_spec a NULL); [done|]. rewrite Hb. rewrite last_addr_cons. simpl.
    destruct (fits b size) eqn:Efit; simpl; [destruct (to_size_t lg <? blk_size b)|].
    + scan_rest IH fuel b a Hl' (to_int (blk_size b)) a.
    + scan_rest IH fuel b a Hl' lg wf.
    + scan_rest IH fuel b a Hl' lg wf.
Qed.

(* best fit keeps the smallest fitting size seen so far *)
Lemma best_fit_loop_spec h size l : forall fuel curr last sm bf,
  heap_list h curr l -> Forall (fun ab => sized ab.2) l ->
  (length l < fuel)%nat -> 0 <= sm <= INT_MAX ->
  exists r, best_fit_loop fuel h size curr last sm bf = Done (r, last_addr l last) /\
    ((r = bf /\ forall a' b', fitting size l a' b' -> sm <= blk_size b') \/
     (exists b, fitting size l r b /\ blk_size b < sm /\
        forall a' b', fitting size l a' b' -> blk_size b <= blk_size b')).
Proof.
  induction l as [|[a b] l IH]; intros fuel curr last sm bf Hl Hs Hf Hsm.
  - inversion Hl; subst. destruct fuel; [simpl in Hf; lia|]. simpl.
    exists bf. split; [done|]. left. split; [done|].
    intros a' b' [Hin _]. by apply elem_of_nil in Hin.
  - inversion Hl as [|a' b' l' Ha Hb Hl']; subst.
    apply Forall_cons in Hs as [Hsb Hs]. unfold sized in Hsb. simpl in Hsb.
    destruct fuel as [|fuel]; [simpl in Hf; lia|]. simpl in Hf. simpl.
    destruct (Z.eqb_spec a NULL); [done|]. rewrite Hb. rewrite last_addr_cons. simpl.
    assert (Hsm' : to_size_t sm = sm) by (apply to_size_t_id; unfold INT_MAX in Hsm; lia).
    rewrite Hsm'.
    destruct (fits b size && (blk_size b <? sm)) eqn:E.
    + apply andb_true_iff in E as [Efit Elt]. apply Z.ltb_lt in Elt.
      assert (Hti : to_int (blk_size b) = blk_size b)
        by (apply to_int_id; unfold INT_MAX in *; lia).
      rewrite Hti.
      destruct (IH fuel (blk_next b) a (blk_size b) a Hl' Hs ltac:(lia) ltac:(lia))
        as (r & -> & Hr).
      exists r. split; [done|]. right.
      destruct Hr as [(-> & Hmin)|(b1 & [Hin Hfit] & Hlt & Hmin)].
      * exists b. split; [split; [apply elem_of_cons; by left|done]|]. split; [done|].
        intros a' b' [Hin' Hfit']. apply elem_of_cons in Hin' as [[= -> ->]|Hin']; [lia|].
        by apply (Hmin a').
      * exists b1. split; [split; [apply elem_of_cons; by right|done]|]. split; [lia|].
        intros a' b' [Hin' Hfit']. apply elem_of_cons in Hin' as [[= -> ->]|Hin']; [lia|].
        by apply (Hmin a').
    + destruct (IH fuel (blk_next b) a sm bf Hl' Hs ltac:(lia) Hsm) as (r & -> & Hr).
      exists r. split; [done|].
      assert (Hb' : fits b size = true -> sm <= blk_size b).
      { intros Hfit. rewrite Hfit in E. simpl in E. by apply Z.ltb_ge in E. }
      destruct Hr as [(-> & Hmin)|(b1 & [Hin Hfit] & Hlt & Hmin)].
      * left. split; [done|].
        intros a' b' [Hin' Hfit']. apply elem_of_cons in Hin' as [[= -> ->]|Hin']; [by apply Hb'|].
        by apply (Hmin a').
      * right. exists b1. split; [split; [apply elem_of_cons; by right|done]|]. split; [done|].
        intros a' b' [Hin' Hfit']. apply elem_of_cons in Hin' as [[= -> ->]|Hin'].
        -- specialize (Hb' Hfit'). lia.
        -- by apply (Hmin a').
Qed.

(* worst fit keeps the largest fitting size seen so far, as long as the
   sizes fit the int that holds it *)
Lemma worst_fit_loop_spec h size l : forall fuel curr last lg wf,
  heap_list h curr l -> Forall (fun ab => 0 <= blk_size ab.2 < 2 ^ 31) l ->
  (length l < fuel)%nat -> 0 <= lg < 2 ^ 31 ->
  exists r, worst_fit_loop fuel h size curr last lg wf = Done (r, last_addr l last) /\
    ((r = wf /\ forall a' b', fitting size l a' b' -> blk_size b' <= lg) \/
     (exists b, fitting size l r b /\ lg < blk_size b /\
        forall a' b', fitting size l a' b' -> blk_size b' <= blk_size b)).
Proof.
  induction l as [|[a b] l IH]; intros fuel curr last lg wf Hl Hs Hf Hlg.
  - inversion Hl; subst. destruct fuel; [simpl in Hf; lia|]. simpl.
    exists wf. split; [done|]. left. split; [done|].
    intros a' b' [Hin _]. by apply elem_of_nil in Hin.
  - inversion Hl as [|a' b' l' Ha Hb Hl']; subst.
    apply Forall_cons in Hs as [Hsb Hs]. simpl in Hsb.
    destruct fuel as [|fuel]; [simpl in Hf; lia|]. simpl in Hf. simpl.
    destruct (Z.eqb_spec a NULL); [done|]. rewrite Hb. rewrite last_addr_cons. simpl.
    assert (Hlg' : to_size_t lg = lg) by (apply to_size_t_id; lia).
    rewrite Hlg'.
    destruct (fits b size && (lg <? blk_size b)) eqn:E.
    + apply andb_true_iff in E as [Efit Elt]. apply Z.ltb_lt in Elt.
      assert (Hti : to_int (blk_size b) = blk_size b)
        by (apply to_int_id; unfold INT_MAX in *; lia).
      rewrite Hti.
      destruct (IH fuel (blk_next b) a (blk_size b) a Hl' Hs ltac:(lia) ltac:(lia))
        as (r & -> & Hr).
      exists r. split; [done|]. right.
      destruct Hr as [(-> & Hmax)|(b1 & [Hin Hfit] & Hlt & Hmax)].
      * exists b. split; [split; [apply elem_of_cons; by left|done]|]. split; [done|].
        intros a' b' [Hin' Hfit']. apply elem_of_cons in Hin' as [[= -> ->]|Hin']; [lia|].
        by apply (Hmax a').
      * exists b1. split; [split; [apply elem_of_cons; by right|done]|]. split; [lia|].
        intros a' b' [Hin' Hfit']. apply elem_of_cons in Hin' as [[= -> ->]|Hin']; [lia|].
        by apply (Hmax a').
    + destruct (IH fuel (blk_next b) a lg wf Hl' Hs ltac:(lia) Hlg) as (r & -> & Hr).
      exists r. split; [done|].
      assert (Hb' : fits b size = true -> blk_size b <= lg).
      { intros Hfit. rewrite Hfit in E. simpl in E. by apply Z.ltb_ge in E. }
      destruct Hr as [(-> & Hmax)|(b1 & [Hin Hfit] & Hlt & Hmax)].
      * left. split; [done|].
        intros a' b' [Hin' Hfit']. apply elem_of_cons in Hin' as [[= -> ->]|Hin']; [by apply Hb'|].
        by apply (Hmax a').
      * right. exists b1. split; [split; [apply elem_of_cons; by right|done]|]. split; [done|].
        intros a' b' [Hin' Hfit']. apply elem_of_cons in Hin' as [[= -> ->]|Hin'].
        -- specialize (Hb' Hfit'). lia.
        -- by apply (Hmax a').
Qed.

Section Scanner.

Variable c : config.

Lemma findFreeBlock_FIT st l last size :
  fit c = FIT -> heap_list (blocks st) (heapList st) l ->
  exists r last', findFreeBlock c last size st = Done ((r, last'), st) /\
    ((r = NULL /\ Forall (unfit size) l /\ last' = last_addr l last) \/
     (exists l1 b l2, l = l1 ++ (r, b) :: l2 /\ Forall (unfit size) l1 /\
        fits b size = true /\ last' = last_addr l1 last)).
Proof.
  intros Hc Hl. unfold findFreeBlock. rewrite Hc. munfold.
  destruct (first_fit_loop_spec (blocks st) size l (fuel_of (blocks st)) (heapList st) last
              Hl (heap_list_fuel _ _ _ Hl)) as (r & last' & -> & Hr).
  eauto.
Qed.

Lemma findFreeBlock_BEST st l last size :
  fit c = BEST -> heap_list (blocks st) (heapList st) l ->
  Forall (fun ab => sized ab.2) l ->
  exists r, findFreeBlock c last size st = Done ((r, last_addr l last), st) /\
    ((r = NULL /\ forall a' b', fitting size l a' b' -> INT_MAX <= blk_size b') \/
     (exists b, fitting size l r b /\ blk_size b < INT_MAX /\
        forall a' b', fitting size l a' b' -> blk_size b <= blk_size b')).
Proof.
  intros Hc Hl Hs. unfold findFreeBlock. rewrite Hc. munfold.
  destruct (best_fit_loop_spec (blocks st) size l (fuel_of (blocks st)) (heapList st) last
              INT_MAX NULL Hl Hs (heap_list_fuel _ _ _ Hl)) as (r & -> & Hr).
  { unfold INT_MAX. lia. }
  exists r. split; [done|]. destruct Hr as [?|(b & ? & ? & ?)]; [by left|right; eauto].
Qed.

Lemma findFreeBlock_WORST st l last size :
  fit c = WORST -> heap_list (blocks st) (heapList st) l ->
  Forall (fun ab => 0 <= blk_size ab.2 < 2 ^ 31) l ->
  exists r, findFreeBlock c last size st = Done ((r, last_addr l last), st) /\
    ((r = NULL /\ forall a' b', fitting size l a' b' -> blk_size b' <= 0) \/
     (exists b, fitting size l r b /\
        forall a' b', fitting size l a' b' -> blk_size b' <= blk_size b)).
Proof.
  intros Hc Hl Hs. unfold findFreeBlock. rewrite Hc. munfold.
  destruct (worst_fit_loop_spec (blocks st) size l (fuel_of (blocks st)) (heapList st) last
              0 NULL Hl Hs (heap_list_fuel _ _ _ Hl)) as (r & -> & Hr); [lia|].
  exists r. split; [done|]. destruct Hr as [?|(b & ? & ? & ?)]; [by left|right; eauto].
Qed.

(* next fit from a cursor that is null or a block of the list: the scan
   from the cursor, then the scan from the head when the first found nothing *)
Lemma findFreeBlock_NEXT st l last size :
  fit c = NEXT -> heap_list (blocks st) (heapList st) l ->
  actualLast st = NULL \/ (exists b, (actualLast st, b) ∈ l) ->
  exists r last' st', findFreeBlock c last size st = Done ((r, last'), st') /\
    ((r = NULL /\ Forall (unfit size) l) \/ (exists b, fitting size l r b)).
Proof.
  intros Hc Hl Hal. unfold findFreeBlock. rewrite Hc. munfold.
  pose proof (heap_list_fuel _ _ _ Hl) as Hfuel.
  assert (Hscan : exists r1 last1 al1,
    next_fit_loop (fuel_of (blocks st)) (blocks st) size (actualLast st) last (actualLast st)
      = Done (r1, last1, al1) /\
    (r1 = NULL \/ exists b, fitting size l r1 b)).
  { destruct Hal as [->|(b & Hin)].
    - exists NULL, last, NULL. split; [reflexivity|by left].
    - apply list_elem_of_split in Hin as (l1 & l2 & ->).
      pose proof (heap_list_suffix _ _ _ _ _ _ Hl) as Hsuf.
      destruct (next_fit_loop_spec (blocks st) size _ (fuel_of (blocks st)) (actualLast st)
                  last (actualLast st) Hsuf) as (r & last' & al' & Hrun & Hr).
      { rewrite length_app in Hfuel. lia. }
      exists r, last', al'. split; [done|].
      destruct Hr as [[-> _]|(b1 & Hfit)]; [by left|].
      right. exists b1. by apply fitting_suffix. }
  destruct Hscan as (r1 & last1 & al1 & -> & Hr1).
  destruct (Z.eqb_spec r1 NULL) as [->|Hne].
  - destruct (first_fit_loop_spec (blocks st) size l (fuel_of (blocks st)) (heapList st) last1
                Hl Hfuel) as (r & last' & -> & Hr).
    eexists r, last', _. split; [reflexivity|].
    destruct Hr as [(-> & Hall & _)|(k1 & b & k2 & -> & _ & Hfit & _)]; [by left|].
    right. exists b. split; [|done]. apply elem_of_app. right. apply elem_of_cons. by left.
  - eexists r1, last1, _. split; [reflexivity|]. destruct Hr1 as [?|?]; [done|by right].
Qed.

End Scanner.

(* the scan changes the next-fit cursor at most *)
Lemma findFreeBlock_frame c last size st r st1 :
  findFreeBlock c last size st = Done (r, st1) ->
  atexit_registered st1 = atexit_registered st /\ counters st1 = counters st /\
  heapList st1 = heapList st /\ blocks st1 = blocks st /\
  bytes st1 = bytes st /\ brk st1 = brk st.
Proof.
  unfold findFreeBlock. munfold. destruct (fit c).
  - destruct (first_fit_loop _ _ _ _ _) as [?| | |]; [|done..]. by intros [= <- <-].
  - destruct (best_fit_loop _ _ _ _ _ _ _) as [?| | |]; [|done..]. by intros [= <- <-].
  - destruct (worst_fit_loop _ _ _ _ _ _ _) as [?| | |]; [|done..]. by intros [= <- <-].
  - destruct (next_fit_loop _ _ _ _ _ _) as [[[r1 l1] a1]| | |]; [|done..].
    destruct (r1 =? NULL).
    + destruct (first_fit_loop _ _ _ _ _) as [?| | |]; [|done..]. by intros [= <- <-].
    + by intros [= <- <-].
Qed.

(* whatever the heap looks like, a malloc that returns a block has counted
   the request once *)
Lemma malloc_counted c size st p st' :
  malloc c size st = Done (p, st') -> p <> NULL ->
  exists s, counters st' = count_malloc (ALIGN4 size) s /\
    num_requested s = num_requested (counters st) /\
    num_mallocs s = num_mallocs (counters st).
Proof.
  rewrite malloc_eq. cbv zeta.
  destruct (ALIGN4 size =? 0); [by intros [= <- <-]|].
  destruct (findFreeBlock _ _ _ _) as [[[next last] st1]| | |] eqn:Hfind; [|done..].
  destruct (findFreeBlock_frame _ _ _ _ _ _ Hfind) as (_ & Hc1 & _).
  destruct (registered_fields st) as (Hc & _).
  rewrite Hc in Hc1.
  destruct (next =? NULL).
  - destruct (growHeap c last (ALIGN4 size) st1) as [[nb st2]| | |] eqn:Hgrow; [|done..].
    destruct (nb =? NULL); [by intros [= <- <-]|].
    intros [= <- <-] _. eexists. split; [reflexivity|].
    rewrite growHeap_eq in Hgrow. cbv zeta in Hgrow.
    destruct (grown_state_fields last (ALIGN4 size) st1) as (Hg & _).
    assert (Hst2 : counters st2 = counters st1 \/ st2 = grown_state last (ALIGN4 size) st1).
    { destruct (_ =? 0) in Hgrow.
      - destruct (brk st1 =? SBRK_FAILED); injection Hgrow as <- <-; eauto.
      - destruct (_ && _).
        + destruct (brk st1 =? SBRK_FAILED); injection Hgrow as <- <-; eauto.
        + destruct (brk st1 =? SBRK_FAILED); [injection Hgrow as <- <-; eauto|done]. }
    state_simpl.
    destruct Hst2 as [->| ->]; [by rewrite Hc1|]. rewrite Hg, Hc1. done.
  - destruct (blocks st1 !! next) as [b|]; [|done].
    intros [= <- <-] _. eexists. split; [reflexivity|].
    unfold split_state. destruct (_ <? _); state_simpl; rewrite Hc1; done.
Qed.

Lemma malloc_bytes c size st p st' : malloc c size st = Done (p, st') -> bytes st' = bytes st.
Proof.
  rewrite malloc_eq. cbv zeta.
  destruct (ALIGN4 size =? 0); [intros [= <- <-]; apply registered_fields|].
  destruct (findFreeBlock _ _ _ _) as [[[next last] st1]| | |] eqn:Hfind; [|done..].
  destruct (findFreeBlock_frame _ _ _ _ _ _ Hfind) as (_ & _ & _ & _ & Hby & _).
  destruct (registered_fields st) as (_ & _ & _ & _ & Hby' & _).
  destruct (next =? NULL).
  - rewrite growHeap_eq. cbv zeta.
    destruct (grown_state_fields last (ALIGN4 size) st1) as (_ & Hg & _).
    repeat match goal with
    | |- context [if ?b then _ else _] => destruct b
    end; intros [= <- <-]; unfold finish_state; state_simpl; congruence.
  - destruct (blocks st1 !! next) as [b|]; [|done].
    intros [= <- <-]. unfold finish_state, split_state. destruct (_ <? _); state_simpl; congruence.
Qed.

(* what malloc returns when the scan has found the block b at next *)
Lemma malloc_reuse c size st next last st1 b :
  ALIGN4 size <> 0 ->
  findFreeBlock c (heapList st) (ALIGN4 size) (registered st) = Done ((next, last), st1) ->
  next <> NULL -> blocks st !! next = Some b ->
  malloc c size st =
  Done (BLOCK_DATA next,
        finish_state (ALIGN4 size) next (set_counters incr_reuses
          (if to_size_t (ALIGN4 size + sizeof_block) <? blk_size b
           then split_state (ALIGN4 size) next st1 else st1))) /\
  blocks st1 = blocks st /\ counters st1 = counters st.
Proof.
  intros Hnz Hfind Hnext Hb.
  destruct (findFreeBlock_frame _ _ _ _ _ _ Hfind) as (Ha & Hc & Hh & Hbl & Hby & Hbrk).
  destruct (registered_fields st) as (Hc' & Hh' & Ha' & Hb' & Hby' & Hbrk').
  rewrite Hc' in Hc. rewrite Hb' in Hbl. split; [|done].
  rewrite malloc_eq. cbv zeta.
  destruct (Z.eqb_spec (ALIGN4 size) 0) as [|_]; [done|]. rewrite Hfind.
  destruct (Z.eqb_spec next NULL) as [|_]; [done|]. by rewrite Hbl, Hb.
Qed.

(** ** Layouts *)

Lemma nxt_lt e y : y < e -> nxt e y = y.
Proof. unfold nxt. intros. destruct (Z.eqb_spec y e); [lia|done]. Qed.

Lemma nxt_end e : nxt e e = NULL.
Proof. unfold nxt. by rewrite Z.eqb_refl. Qed.

Lemma seg_le h e a l m : seg h e a l m -> a <= m.
Proof.
  revert a. induction l as [|b l IH]; intros a H; simpl in H; [lia|].
  destruct H as (_ & Hs & _ & H). apply IH in H. unfold sizeof_block in *. lia.
Qed.

Lemma seg_cons_lt h e a b l m :
  seg h e a (b :: l) m -> a + sizeof_block + blk_size b <= m /\ a < m.
Proof.
  intros (_ & Hs & _ & H). apply seg_le in H. unfold sizeof_block in *. lia.
Qed.

Lemma seg_nil_iff h e a l : seg h e a l a -> l = [].
Proof.
  destruct l as [|b l]; [done|]. intros H. apply seg_cons_lt in H. lia.
Qed.

Lemma seg_frame h h' e a l m :
  seg h e a l m -> (forall x, a <= x < m -> h' !! x = h !! x) -> seg h' e a l m.
Proof.
  revert a. induction l as [|b l IH]; intros a H Hfr; simpl in *; [done|].
  pose proof (seg_cons_lt h e a b l m H) as [Hle Hlt].
  destruct H as (Hb & Hs & Hn & H).
  split; [rewrite Hfr; [done|lia]|]. split; [done|]. split; [done|].
  apply IH; [done|]. intros x Hx. apply Hfr. unfold sizeof_block in *. lia.
Qed.

Lemma seg_app h e a l1 l2 m :
  seg h e a (l1 ++ l2) m <-> exists k, seg h e a l1 k /\ seg h e k l2 m.
Proof.
  revert a. induction l1 as [|b l1 IH]; intros a; simpl.
  - split; [intros H; eauto|]. by intros (k & -> & H).
  - split.
    + intros (Hb & Hs & Hn & H). apply IH in H as (k & H1 & H2). eauto 10.
    + intros (k & (Hb & Hs & Hn & H1) & H2). repeat (split; [done|]).
      apply IH. eauto.
Qed.

(* moving the end of the heap does not change blocks that end before it *)
Lemma seg_end h e e' a l m :
  seg h e a l m -> m < e -> m < e' -> seg h e' a l m.
Proof.
  revert a. induction l as [|b l IH]; intros a H He He'; simpl in *; [done|].
  pose proof (seg_cons_lt h e a b l m H) as [Hle Hlt].
  destruct H as (Hb & Hs & Hn & H).
  repeat (split; [done|]). split; [|by apply IH].
  rewrite Hn. rewrite !nxt_lt; [done|lia..].
Qed.

Lemma seg_heap_list h e a l :
  0 < a -> seg h e a l e -> heap_list h (nxt e a) (place a l).
Proof.
  revert a. induction l as [|b l IH]; intros a Ha H; simpl in *.
  - subst. rewrite nxt_end. constructor.
  - pose proof (seg_cons_lt h e a b l e H) as [Hle Hlt].
    destruct H as (Hb & Hs & Hn & H).
    rewrite nxt_lt by done. constructor; [unfold NULL; lia|done|].
    rewrite Hn. apply IH; [unfold sizeof_block; lia|done].
Qed.

Lemma place_length a l : length (place a l) = length l.
Proof. revert a. induction l as [|b l IH]; intros a; simpl; [done|]. by rewrite IH. Qed.

Lemma place_elem h e a l m x b :
  seg h e a l m -> (x, b) ∈ place a l ->
  exists l1 l2, l = l1 ++ b :: l2 /\ seg h e a l1 x /\ seg h e x (b :: l2) m.
Proof.
  revert a. induction l as [|b0 l IH]; intros a H Hin; simpl in *.
  - by apply elem_of_nil in Hin.
  - apply elem_of_cons in Hin as [[= -> ->]|Hin].
    + exists [], l. done.
    + destruct H as (Hb & Hs & Hn & H).
      destruct (IH _ H Hin) as (l1 & l2 & -> & H1 & H2).
      exists (b0 :: l1), l2. split; [done|]. split; [|done]. simpl. repeat (split; [done|]). done.
Qed.

Lemma place_last h e a l m d :
  seg h e a l m ->
  (l = [] /\ last_addr (place a l) d = d) \/
  (exists l0 b, l = l0 ++ [b] /\ seg h e a l0 (last_addr (place a l) d) /\
     seg h e (last_addr (place a l) d) [b] m).
Proof.
  revert a d. induction l as [|b0 l IH]; intros a d H.
  - by left.
  - right. cbn [place]. rewrite last_addr_cons. cbn [fst].
    destruct H as (Hb & Hs & Hn & H).
    destruct (IH _ a H) as [[-> Hd]|(l0 & b & -> & H1 & H2)].
    + rewrite Hd. exists [], b0. split; [done|]. split; [done|].
      simpl. simpl in H. done.
    + exists (b0 :: l0), b. split; [done|]. split; [|done].
      simpl. done.
Qed.

Lemma seg_dom h e a l m x b :
  seg h e a l m -> (x, b) ∈ place a l -> h !! x = Some b /\ a <= x < m.
Proof.
  intros H Hin. destruct (place_elem _ _ _ _ _ _ _ H Hin) as (l1 & l2 & -> & H1 & H2).
  apply seg_le in H1. pose proof (seg_cons_lt _ _ _ _ _ _ H2). destruct H2 as (Hb & _).
  split; [done|lia].
Qed.

Lemma place_ordered h e a l m : seg h e a l m -> address_ordered (place a l).
Proof.
  revert a. induction l as [|b l IH]; intros a H; simpl in *; [done|].
  destruct H as (Hb & Hs & Hn & H). split; [|by eapply IH].
  destruct l as [|b' l]; simpl; [done|]. unfold sizeof_block. lia.
Qed.

(* marking a header free or live keeps the layout *)
Lemma seg_set_free h e a l m x v :
  seg h e a l m -> is_Some (h !! x) ->
  exists l', seg (upd x (set_free v) h) e a l' m.
Proof.
  revert a. induction l as [|b l IH]; intros a H Hx; simpl in *.
  - exists []. done.
  - destruct H as (Hb & Hs & Hn & H). destruct (IH _ H Hx) as (l' & H').
    destruct (decide (x = a)) as [->|Hne].
    + exists (set_free v b :: l'). simpl. split; [by apply upd_lookup|].
      repeat (split; [done|]). done.
    + exists (b :: l'). simpl. split; [by rewrite upd_lookup_ne|]. repeat (split; [done|]). done.
Qed.

(** ** Coalescing over a layout *)

(* one pass of the loop over a layout leaves a layout between the same
   addresses *)
Lemma coalesce_loop_seg e : forall fuel l a st,
  0 < a -> e < 2 ^ 64 ->
  seg (blocks st) e a l e -> (length l < fuel)%nat ->
  exists st' l', coalesce_loop fuel (nxt e a) st = Done (tt, st') /\
    seg (blocks st') e a l' e /\
    (forall x, x < a -> blocks st' !! x = blocks st !! x) /\
    (forall x, is_Some (blocks st' !! x) <-> is_Some (blocks st !! x)) /\
    heap_only st st'.
Proof.
  induction fuel as [|fuel IH]; intros l a st Ha He Hseg Hf; [lia|].
  destruct l as [|t l].
  - simpl in Hseg. subst a. rewrite nxt_end. exists st, []. cbn [coalesce_loop].
    change (NULL =? NULL) with true. cbv iota.
    split; [reflexivity|]. split; [reflexivity|]. split; [done|]. split; [done|].
    apply heap_only_refl.
  - pose proof (seg_cons_lt _ _ _ _ _ _ Hseg) as [Hle Hlt].
    destruct Hseg as (Ht & Hs & Hn & Hseg).
    rewrite nxt_lt by done.
    assert (Hane : a <> NULL) by (unfold NULL; lia).
    assert (Skip : (blk_free t = false \/ blk_next t = NULL \/
               exists n, blocks st !! blk_next t = Some n /\ blk_free n = false) ->
      exists st' l', coalesce_loop (S fuel) a st = Done (tt, st') /\
        seg (blocks st') e a l' e /\
        (forall x, x < a -> blocks st' !! x = blocks st !! x) /\
        (forall x, is_Some (blocks st' !! x) <-> is_Some (blocks st !! x)) /\
        heap_only st st').
    { intros Hc. rewrite (coalesce_step_skip fuel a st t Hane Ht Hc). rewrite Hn.
      destruct (IH l (a + sizeof_block + blk_size t) st)
        as (st' & l' & Hrun & Hseg' & Hfr & Hdom & Hho);
        [unfold sizeof_block; lia|done|done|simpl in Hf; lia|].
      exists st', (t :: l'). split; [done|]. split.
      - simpl. rewrite Hfr by (unfold sizeof_block; lia). done.
      - split; [|done]. intros x Hx. apply Hfr. unfold sizeof_block. lia. }
    destruct l as [|n l2].
    + apply Skip. right. left. simpl in Hseg. rewrite Hn, Hseg. apply nxt_end.
    + pose proof (seg_cons_lt _ _ _ _ _ _ Hseg) as [Hle2 Hlt2].
      rewrite nxt_lt in Hn by done.
      destruct Hseg as (Hnb & Hsn & Hnn & Hseg).
      destruct (blk_free t) eqn:Hft; [|apply Skip; by left].
      destruct (blk_free n) eqn:Hfn; [|apply Skip; right; right; exists n; by rewrite Hn].
      rewrite (coalesce_step_merge fuel a st t n Hane Ht Hft);
        [|rewrite Hn; unfold NULL, sizeof_block; lia
         |rewrite Hn; unfold sizeof_block; lia
         |by rewrite Hn|done].
      rewrite Hnn.
      set (a1 := a + sizeof_block + blk_size t) in *.
      set (a2 := a1 + sizeof_block + blk_size n) in *.
      assert (Hfr0 : forall x, x <> a -> blocks (merged_state a t n st) !! x = blocks st !! x).
      { intros x Hx. unfold merged_state. state_simpl. rewrite !upd_lookup_ne by done. done. }
      destruct (IH l2 a2 (merged_state a t n st)) as (st' & l' & Hrun & Hseg' & Hfr & Hdom & Hho);
        [unfold a2, a1, sizeof_block; lia|done| |simpl in Hf; lia|].
      { eapply seg_frame; [exact Hseg|]. intros x Hx. apply Hfr0.
        unfold a2, a1, sizeof_block in *. lia. }
      exists st',
        (set_next (blk_next n)
           (set_size (to_size_t (blk_size t + to_size_t (blk_size n + sizeof_block))) t)
         :: l').
      split; [done|].
      assert (Hsz : to_size_t (blk_size t + to_size_t (blk_size n + sizeof_block))
                    = blk_size t + blk_size n + sizeof_block).
      { pose proof (seg_le _ _ _ _ _ Hseg).
        rewrite (to_size_t_id (blk_size n + sizeof_block))
          by (unfold a2, a1, sizeof_block in *; lia).
        rewrite to_size_t_id by (unfold a2, a1, sizeof_block in *; lia). lia. }
      split.
      { cbn [seg]. cbn [blk_size blk_next set_next set_size]. rewrite Hsz.
        split.
        - rewrite Hfr by (unfold a2, a1, sizeof_block; lia).
          unfold merged_state. state_simpl.
          erewrite upd_lookup; [|by apply upd_lookup]. by rewrite Hsz.
        - split; [unfold sizeof_block; lia|].
          replace (a + sizeof_block + (blk_size t + blk_size n + sizeof_block)) with a2
            by (unfold a2, a1; lia).
          split; [done|done]. }
      split.
      { intros x Hx. rewrite Hfr by (unfold a2, a1, sizeof_block; lia). apply Hfr0. lia. }
      split.
      { intros x. rewrite Hdom. unfold merged_state. state_simpl.
        rewrite upd_dom by (apply upd_is_Some; eauto).
        apply upd_dom. eauto. }
      eapply heap_only_trans; [|exact Hho]. unfold merged_state, heap_only. state_simpl. done.
Qed.

(** ** The invariant *)

Lemma wf_init c : env_ok c -> wf c (init_state c).
Proof.
  intros Hc. pose proof Hc as (H1 & H2 & H3).
  split; simpl; [done|lia| |by rewrite nxt_end|done|by exists []].
  intros a [b Hb]. by rewrite lookup_empty in Hb.
Qed.

Lemma wf_registered c st : wf c st -> wf c (registered st).
Proof.
  intros [H1 H2 H3 H4 H5 H6]. unfold registered.
  destruct (atexit_registered st =? 0); by split.
Qed.

Lemma wf_set_bytes c f st : wf c st -> wf c (set_bytes f st).
Proof. intros [H1 H2 H3 H4 H5 H6]. by split. Qed.

Lemma wf_heap_list c st :
  wf c st -> exists l, seg (blocks st) (brk st) (brk_lo c) l (brk st) /\
    heap_list (blocks st) (heapList st) (place (brk_lo c) l).
Proof.
  intros [Henv Hbrk Hdom Hhead Hcur [l Hseg]]. exists l. split; [done|].
  rewrite Hhead. apply seg_heap_list; [apply Henv|done].
Qed.

Lemma wf_address_ordered c st :
  wf c st -> exists l, heap_list (blocks st) (heapList st) l /\ address_ordered l.
Proof.
  intros Hwf. destruct (wf_heap_list c st Hwf) as (l & Hseg & Hl).
  exists (place (brk_lo c) l). split; [done|]. by eapply place_ordered.
Qed.

Lemma wf_heap_only c st st' l' :
  wf c st -> heap_only st st' ->
  (forall x, is_Some (blocks st' !! x) -> brk_lo c <= x < brk st) ->
  seg (blocks st') (brk st) (brk_lo c) l' (brk st) ->
  wf c st'.
Proof.
  intros [Henv Hbrk Hdom Hhead Hcur _] (Ha & Hh & Hal & Hby & Hb) Hd Hseg.
  split; [done|by rewrite Hb| |by rewrite Hh, Hb|by rewrite Hal|exists l'; by rewrite Hb].
  intros a Ha'. rewrite Hb. apply Hd, Ha'.
Qed.

Lemma BLOCK_DATA_wf c st l a b :
  wf c st -> seg (blocks st) (brk st) (brk_lo c) l (brk st) ->
  (a, b) ∈ place (brk_lo c) l ->
  BLOCK_DATA a = a + sizeof_block /\ BLOCK_DATA a <> NULL /\
  BLOCK_HEADER (BLOCK_DATA a) = a.
Proof.
  intros Hwf Hseg Hin. destruct (seg_dom _ _ _ _ _ _ _ Hseg Hin) as [Hlk Hrange].
  pose proof (wf_env c st Hwf) as (He1 & He2 & He3).
  pose proof (wf_brk c st Hwf) as Hbrk.
  unfold BLOCK_DATA, BLOCK_HEADER.
  rewrite (to_size_t_id (a + sizeof_block)) by (unfold sizeof_block; lia).
  split; [done|]. split; [unfold NULL, sizeof_block; lia|].
  replace (a + sizeof_block - sizeof_block) with a by lia.
  apply to_size_t_id. lia.
Qed.

(* free of a live header of a well-formed heap returns, and the heap stays
   well formed *)
Lemma free_wf_live c ptr st b :
  wf c st -> ptr <> NULL -> blocks st !! BLOCK_HEADER ptr = Some b ->
  blk_free b = false ->
  exists st', free ptr st = Done (tt, st') /\ wf c st' /\
    bytes st' = bytes st /\ brk st' = brk st.
Proof.
  intros Hwf Hp Hb Hf. rewrite (free_eq ptr st b Hp Hb), Hf.
  set (st1 := set_blocks (upd (BLOCK_HEADER ptr) (set_free true)) st).
  destruct Hwf as [Henv Hbrk Hdom Hhead Hcur [l Hseg]].
  destruct (seg_set_free _ _ _ _ _ (BLOCK_HEADER ptr) true Hseg ltac:(eauto)) as (l1 & Hseg1).
  assert (Hwf1 : wf c st1).
  { split; try done. 2: by exists l1.
    intros a Ha. apply Hdom. unfold st1 in Ha. state_simpl.
    apply upd_dom in Ha; eauto. }
  destruct (wf_heap_list c st1 Hwf1) as (l1' & Hseg1' & Hl1).
  pose proof (heap_list_fuel _ _ _ Hl1) as Hfuel. rewrite place_length in Hfuel.
  destruct Henv as (H1 & H2 & H3).
  destruct (coalesce_loop_seg (brk st) (fuel_of (blocks st1)) l1' (brk_lo c) st1)
    as (st2 & l2 & Hrun & Hseg2 & Hfr & Hd2 & Hho); [done|simpl in *; lia|done|done|].
  change (heapList st) with (heapList st1). rewrite (wf_head c st1 Hwf1).
  change (brk st1) with (brk st). change (upd _ _ (blocks st)) with (blocks st1).
  rewrite Hrun. eexists. split; [reflexivity|].
  split.
  - apply (wf_heap_only c st1 _ l2 Hwf1).
    + destruct Hho as (?&?&?&?&?). repeat split; done.
    + intros x Hx. state_simpl. apply (wf_dom c st1 Hwf1), Hd2, Hx.
    + done.
  - destruct Hho as (?&?&?&?&?). state_simpl. split; done.
Qed.

Lemma free_wf c ptr st st' : wf c st -> free ptr st = Done (tt, st') -> wf c st'.
Proof.
  intros Hwf Hfree. destruct (Z.eqb_spec ptr NULL) as [->|Hp].
  { cbv in Hfree. injection Hfree as <-. done. }
  destruct (blocks st !! BLOCK_HEADER ptr) as [b|] eqn:Hb.
  - destruct (blk_free b) eqn:Hf.
    + rewrite (free_eq ptr st b Hp Hb), Hf in Hfree. done.
    + destruct (free_wf_live c ptr st b Hwf Hp Hb Hf) as (st2 & Hrun & Hwf2 & _).
      rewrite Hrun in Hfree. injection Hfree as <-. done.
  - unfold free in Hfree. destruct (Z.eqb_spec ptr NULL); [done|].
    munfold. unfold load in Hfree. rewrite Hb in Hfree. done.
Qed.

(* whatever the strategy, the scan of a well-formed list returns a fitting
   block of the list, or NULL together with the tail of the list *)
Lemma findFreeBlock_wf c st l last size :
  heap_list (blocks st) (heapList st) l -> actualLast st = NULL ->
  exists r last', findFreeBlock c last size st = Done ((r, last'), st) /\
    ((r = NULL /\ last' = last_addr l last) \/ (exists b, fitting size l r b)).
Proof.
  intros Hl Hal. pose proof (heap_list_fuel _ _ _ Hl) as Hfuel.
  assert (Hfirst : exists r last',
    first_fit_loop (fuel_of (blocks st)) (blocks st) size (heapList st) last = Done (r, last') /\
    ((r = NULL /\ last' = last_addr l last) \/ (exists b, fitting size l r b))).
  { destruct (first_fit_loop_spec (blocks st) size l _ (heapList st) last Hl Hfuel)
      as (r & last' & Hrun & Hr).
    exists r, last'. split; [done|].
    destruct Hr as [(-> & _ & ->)|(l1 & b & l2 & -> & _ & Hfit & _)]; [by left|].
    right. exists b. split; [|done]. set_solver. }
  unfold findFreeBlock. destruct (fit c) eqn:Hc; munfold.
  - destruct Hfirst as (r & last' & -> & Hr). eauto.
  - destruct (best_fit_loop_member (blocks st) size l _ (heapList st) last INT_MAX NULL Hl Hfuel)
      as (r & -> & Hr).
    exists r, (last_addr l last). split; [done|]. destruct Hr as [->|?]; [by left|by right].
  - destruct (worst_fit_loop_member (blocks st) size l _ (heapList st) last 0 NULL Hl Hfuel)
      as (r & -> & Hr).
    exists r, (last_addr l last). split; [done|]. destruct Hr as [->|?]; [by left|by right].
  - rewrite Hal. unfold fuel_of at 1. rewrite next_fit_loop_null.
    change (NULL =? NULL) with true. cbv iota.
    assert (Hst : set_actualLast NULL st = st)
      by (rewrite <- Hal; apply set_actualLast_same).
    rewrite Hst.
    destruct Hfirst as (r & last' & -> & Hr). eauto.
Qed.

Lemma scan_reports_tail c st l last size r last' st1 :
  wf c st -> heap_list (blocks st) (heapList st) l ->
  findFreeBlock c last size st = Done ((r, last'), st1) -> r = NULL ->
  last' = last_addr l last /\ st1 = st.
Proof.
  intros Hwf Hl Hrun ->.
  destruct (findFreeBlock_wf c st l last size Hl (wf_cursor c st Hwf))
    as (r & last1 & Hrun' & Hr).
  rewrite Hrun' in Hrun. injection Hrun as -> -> ->.
  destruct Hr as [(_ & ->)|(b & Hin & _)]; [done|].
  by destruct (heap_list_lookup _ _ _ _ _ Hl Hin).
Qed.

(* the heap after malloc has reused a block of the list *)
Lemma reuse_wf c st l size next b :
  wf c st -> seg (blocks st) (brk st) (brk_lo c) l (brk st) ->
  0 <= size -> fitting size (place (brk_lo c) l) next b ->
  wf c (finish_state size next (set_counters incr_reuses
         (if to_size_t (size + sizeof_block) <? blk_size b
          then split_state size next st else st))).
Proof.
  intros Hwf Hseg Hsz [Hin Hfit].
  apply fits_spec in Hfit as [Hfree Hle].
  destruct (place_elem _ _ _ _ _ _ _ Hseg Hin) as (l1 & l2 & -> & Hseg1 & Hseg2).
  pose proof (seg_le _ _ _ _ _ Hseg1) as Hlo.
  pose proof (seg_cons_lt _ _ _ _ _ _ Hseg2) as [Hend Hlt].
  pose proof (wf_env c st Hwf) as (He1 & He2 & He3).
  pose proof (wf_brk c st Hwf) as Hbrk.
  destruct Hseg2 as (Hb & Hs & Hn & Hseg2).
  destruct (Z.ltb_spec (to_size_t (size + sizeof_block)) (blk_size b)) as [Hsplit|Hno].
  - rewrite to_size_t_id in Hsplit by (unfold sizeof_block in *; lia).
    destruct (split_lookup size next b (blocks st) Hb) as (Hne & Hnext & Hnew & Hframe);
      [unfold sized, sizeof_block in *; lia|done|done|].
    rewrite (to_size_t_id (next + sizeof_block + size)) in *
      by (unfold sizeof_block in *; lia).
    set (nb := next + sizeof_block + size) in *.
    set (X := blk_size b - size - sizeof_block) in *.
    apply (wf_heap_only c st _
             (l1 ++ mkBlock size nb false :: mkBlock X (blk_next b) true :: l2) Hwf).
    + unfold heap_only, finish_state, split_state. state_simpl. done.
    + unfold finish_state, split_state. state_simpl. intros x Hx.
      destruct (decide (x = next)) as [->|Hx1]; [lia|].
      destruct (decide (x = nb)) as [->|Hx2]; [unfold nb, sizeof_block in *; lia|].
      rewrite Hframe in Hx by done. by apply (wf_dom c st Hwf).
    + unfold finish_state, split_state. state_simpl.
      apply seg_app. exists next. split.
      * eapply seg_frame; [exact Hseg1|]. intros x Hx.
        apply Hframe; unfold nb, sizeof_block; lia.
      * cbn [seg blk_size blk_next]. fold nb.
        split; [done|]. split; [done|].
        split; [rewrite nxt_lt; [done|unfold nb, X, sizeof_block in *; lia]|].
        split; [done|]. split; [unfold X, sizeof_block in *; lia|].
        replace (nb + sizeof_block + X) with (next + sizeof_block + blk_size b)
          by (unfold nb, X; lia).
        split; [done|].
        eapply seg_frame; [exact Hseg2|]. intros x Hx.
        apply Hframe; unfold nb, X, sizeof_block in *; lia.
  - assert (Hl : exists l',
      seg (upd next (set_free false) (blocks st)) (brk st) (brk_lo c) l' (brk st)).
    { eapply seg_set_free; [exact Hseg|eauto]. }
    destruct Hl as (l' & Hl').
    apply (wf_heap_only c st _ l' Hwf).
    + unfold heap_only, finish_state. state_simpl. done.
    + intros x. unfold finish_state. state_simpl. rewrite upd_dom by eauto.
      apply (wf_dom c st Hwf).
    + unfold finish_state. state_simpl. done.
Qed.

(* the heap after malloc has grown it by a block of size bytes *)
Lemma grow_wf c st l last size :
  wf c st -> seg (blocks st) (brk st) (brk_lo c) l (brk st) ->
  last = last_addr (place (brk_lo c) l) (heapList st) ->
  0 <= size -> size + sizeof_block < 2 ^ 63 ->
  (growHeap c last size st = Abort /\ brk_hi c < brk st + sizeof_block + size) \/
  (growHeap c last size st = Done (brk st, grown_state last size st) /\
   brk st <> NULL /\ brk st + sizeof_block + size <= brk_hi c /\
   wf c (finish_state size (brk st) (grown_state last size st))).
Proof.
  intros Hwf Hseg Hlast Hsz Hbound.
  pose proof (wf_env c st Hwf) as (He1 & He2 & He3).
  pose proof (wf_brk c st Hwf) as Hbrk.
  pose proof (wf_head c st Hwf) as Hhead.
  assert (Hincr : to_intptr (to_size_t (sizeof_block + size)) = sizeof_block + size).
  { rewrite to_size_t_id by (unfold sizeof_block in *; lia).
    apply to_intptr_id. unfold sizeof_block in *. lia. }
  rewrite growHeap_eq. cbv zeta. rewrite Hincr.
  destruct (Z.eqb_spec (sizeof_block + size) 0) as [|_]; [unfold sizeof_block in *; lia|].
  destruct (Z.eqb_spec (brk st) SBRK_FAILED) as [|_]; [unfold SBRK_FAILED in *; lia|].
  destruct (Z.leb_spec (brk_lo c) (brk st + (sizeof_block + size))) as [_|];
    [|unfold sizeof_block in *; lia].
  destruct (Z.leb_spec (brk st + (sizeof_block + size)) (brk_hi c)) as [Hok|Hdenied];
    cbn [andb]; [right|left; split; [done|lia]].
  split; [done|]. split; [unfold NULL; lia|]. split; [lia|].
  set (e := brk st) in *. set (e' := e + (sizeof_block + size)).
  set (st' := finish_state size e (grown_state last size st)).
  assert (Hbrk' : brk st' = e').
  { unfold st', finish_state, grown_state. cbv zeta. rewrite Hincr.
    destruct (heapList _ =? NULL), (negb (last =? NULL)); reflexivity. }
  assert (Hcur' : actualLast st' = NULL).
  { unfold st', finish_state, grown_state. cbv zeta.
    destruct (heapList _ =? NULL), (negb (last =? NULL)); apply (wf_cursor c st Hwf). }
  assert (Hblocks : blocks st' =
    upd e (set_free false) (upd e (set_free false) (upd e (set_next NULL) (upd e (set_size size)
      (if negb (last =? NULL) then upd last (set_next e) (blocks st) else blocks st))))).
  { unfold st', finish_state, grown_state. cbv zeta.
    destruct (heapList _ =? NULL), (negb (last =? NULL)); reflexivity. }
  assert (Hnew : blocks st' !! e = Some (mkBlock size NULL false)).
  { rewrite Hblocks. rewrite !upd_lookup_eq. cbn [default from_option]. unfold id. reflexivity. }
  assert (Hhl' : heapList st' = if heapList st =? NULL then e else heapList st).
  { unfold st', finish_state, grown_state. cbv zeta. state_simpl.
    destruct (heapList st =? NULL), (negb (last =? NULL)); reflexivity. }
  destruct (place_last _ _ _ _ _ (heapList st) Hseg) as [[-> Hd]|(l0 & t & -> & Hseg0 & Hsegt)].
  - (* the first block of the heap *)
    simpl in Hseg.
    assert (Hhl : heapList st = NULL) by (rewrite Hhead; fold e; rewrite <- Hseg; apply nxt_end).
    assert (Hnull : last = NULL) by (rewrite Hlast, Hd; exact Hhl).
    clear Hlast Hd. subst last. change (negb (NULL =? NULL)) with false in Hblocks.
    cbv iota in Hblocks.
    split; [done|rewrite Hbrk'; unfold e', sizeof_block in *; lia| | | done|].
    + intros x Hx. rewrite Hbrk'. rewrite Hblocks in Hx.
      do 4 (apply upd_is_Some_inv in Hx as [->|Hx]; [unfold e', sizeof_block; lia|]).
      apply (wf_dom c st Hwf) in Hx. fold e in Hx. unfold e', sizeof_block. lia.
    + rewrite Hhl', Hhl, Hbrk'. change (NULL =? NULL) with true. cbv iota.
      rewrite <- Hseg. rewrite nxt_lt; [done|unfold e', sizeof_block; lia].
    + exists [mkBlock size NULL false]. rewrite Hbrk'. rewrite <- Hseg in *.
      cbn [seg blk_size blk_next]. split; [done|]. split; [done|].
      replace (brk_lo c + sizeof_block + size) with e' by (unfold e'; lia).
      split; [by rewrite nxt_end|done].
  - (* a block after the tail *)
    rewrite <- Hlast in *.
    pose proof (seg_le _ _ _ _ _ Hseg0) as Hlo.
    pose proof (seg_cons_lt _ _ _ _ _ _ Hsegt) as [Hend Hlt].
    destruct Hsegt as (Ht & Hst & Hnt & Hte). simpl in Hte.
    assert (Hhl : heapList st = brk_lo c) by (rewrite Hhead; apply nxt_lt; lia).
    assert (Hlne : (last =? NULL) = false) by (apply Z.eqb_neq; unfold NULL; lia).
    rewrite Hlne in Hblocks. cbn [negb] in Hblocks.
    assert (Htail : blocks st' !! last = Some (set_next e t)).
    { rewrite Hblocks. rewrite !(upd_lookup_ne e last) by lia. by apply upd_lookup. }
    assert (Hframe : forall x, x <> e -> x <> last -> blocks st' !! x = blocks st !! x).
    { intros x Hx1 Hx2. rewrite Hblocks. rewrite !(upd_lookup_ne e x) by done.
      by rewrite upd_lookup_ne. }
    split; [done|rewrite Hbrk'; unfold e', sizeof_block in *; lia| | |done|].
    + intros x Hx. rewrite Hbrk'. rewrite Hblocks in Hx.
      do 4 (apply upd_is_Some_inv in Hx as [->|Hx]; [unfold e', sizeof_block; lia|]).
      apply upd_is_Some_inv in Hx as [->|Hx]; [unfold e', sizeof_block; lia|].
      apply (wf_dom c st Hwf) in Hx. fold e in Hx. unfold e', sizeof_block. lia.
    + rewrite Hhl', Hhl, Hbrk'.
      destruct (Z.eqb_spec (brk_lo c) NULL) as [|_]; [unfold NULL in *; lia|].
      rewrite nxt_lt; [done|unfold e', sizeof_block; lia].
    + exists (l0 ++ [set_next e t; mkBlock size NULL false]). rewrite Hbrk'.
      apply seg_app. exists last. split.
      * eapply seg_frame; [eapply seg_end; [exact Hseg0|lia|unfold e', sizeof_block; lia]|].
        intros x Hx. apply Hframe; lia.
      * cbn [seg blk_size blk_next set_next]. rewrite Hte.
        split; [done|]. split; [done|].
        split; [rewrite nxt_lt; [done|unfold e', sizeof_block; lia]|].
        split; [done|]. split; [done|].
        replace (e + sizeof_block + size) with e' by (unfold e'; lia).
        split; [by rewrite nxt_end|done].
Qed.

(* the paths of malloc through a well-formed heap *)
Lemma malloc_wf_cases c size st :
  wf c st ->
  (ALIGN4 size = 0 /\ malloc c size st = Done (NULL, registered st)) \/
  (ALIGN4 size <> 0 /\
   exists l, seg (blocks st) (brk st) (brk_lo c) l (brk st) /\
     ((exists next b, fitting (ALIGN4 size) (place (brk_lo c) l) next b /\
         malloc c size st =
         Done (BLOCK_DATA next,
               finish_state (ALIGN4 size) next (set_counters incr_reuses
                 (if to_size_t (ALIGN4 size + sizeof_block) <? blk_size b
                  then split_state (ALIGN4 size) next (registered st)
                  else registered st)))) \/
      malloc c size st =
      match growHeap c (last_addr (place (brk_lo c) l) (heapList st)) (ALIGN4 size)
              (registered st) with
      | Done (nb, st2) =>
        if nb =? NULL then Done (NULL, st2)
        else Done (BLOCK_DATA nb, finish_state (ALIGN4 size) nb st2)
      | Abort => Abort | Undef => Undef | Timeout => Timeout
      end)).
Proof.
  intros Hwf. rewrite malloc_eq. cbv zeta.
  destruct (Z.eqb_spec (ALIGN4 size) 0) as [Hz|Hnz]; [by left|right].
  split; [done|].
  pose proof (wf_registered c st Hwf) as Hwfr.
  destruct (registered_fields st) as (Hc & Hh & Ha & Hb & Hby & Hbrk).
  destruct (wf_heap_list c _ Hwfr) as (l & Hseg & Hl).
  exists l. split; [by rewrite <- Hb, <- Hbrk|].
  destruct (findFreeBlock_wf c (registered st) _ (heapList st) (ALIGN4 size) Hl
              (wf_cursor c _ Hwfr)) as (r & last' & -> & Hr).
  destruct Hr as [(-> & ->)|(b & Hfit)].
  - right. change (NULL =? NULL) with true. cbv iota. reflexivity.
  - left. exists r, b. split; [done|].
    destruct Hfit as [Hin Hfit].
    destruct (heap_list_lookup _ _ _ _ _ Hl Hin) as [Hlk Hne].
    destruct (Z.eqb_spec r NULL) as [|_]; [done|]. rewrite Hlk. reflexivity.
Qed.

(* malloc keeps the invariant when the rounded request plus a header is
   below 2^63, the largest increment sbrk can be asked for *)
Lemma malloc_wf c size st :
  wf c st -> ALIGN4 size + sizeof_block < 2 ^ 63 ->
  (malloc c size st = Abort /\ ALIGN4 size <> 0 /\
   brk_hi c < brk st + sizeof_block + ALIGN4 size) \/
  (exists p st', malloc c size st = Done (p, st') /\ wf c st' /\
     (p = NULL <-> ALIGN4 size = 0)).
Proof.
  intros Hwf Hbound.
  pose proof (wf_registered c st Hwf) as Hwfr.
  destruct (registered_fields st) as (Hc & Hh & Ha & Hb & Hby & Hbrk).
  pose proof (ALIGN4_range size) as Hrange.
  destruct (malloc_wf_cases c size st Hwf)
    as [[Hz ->]|(Hnz & l & Hseg & [(next & b & Hfit & ->)| ->])].
  - right. exists NULL, (registered st). done.
  - right. eexists _, _. split; [reflexivity|]. split.
    + apply (reuse_wf c (registered st) l); [done|by rewrite Hb, Hbrk|lia|done].
    + destruct Hfit as [Hin _].
      destruct (BLOCK_DATA_wf c st l next b Hwf Hseg Hin) as (_ & Hne & _). done.
  - destruct (grow_wf c (registered st) l (last_addr (place (brk_lo c) l) (heapList st))
                (ALIGN4 size) Hwfr) as [[-> Hden]|(-> & Hne & Hok & Hwf')];
      [by rewrite Hb, Hbrk|by rewrite Hh|lia|lia| |].
    + left. rewrite Hbrk in Hden. done.
    + right. destruct (Z.eqb_spec (brk (registered st)) NULL) as [|_]; [done|].
      eexists _, _. split; [reflexivity|]. split; [done|].
      pose proof (wf_env c st Hwf) as (He1 & He2 & He3).
      pose proof (wf_brk c st Hwf) as Hbrk'.
      unfold BLOCK_DATA. rewrite Hbrk.
      rewrite to_size_t_id by (unfold sizeof_block; lia).
      unfold NULL, sizeof_block. lia.
Qed.

Lemma malloc_result_cases c size st p st' :
  wf c st -> malloc c size st = Done (p, st') ->
  (p = NULL /\ ALIGN4 size = 0 /\ st' = registered st) \/
  (p <> NULL /\ ALIGN4 size <> 0 /\ bytes st' = bytes st /\
   exists s, counters st' = count_malloc (ALIGN4 size) s /\
     num_requested s = num_requested (counters st) /\
     num_mallocs s = num_mallocs (counters st)).
Proof.
  intros Hwf Hrun.
  pose proof (wf_registered c st Hwf) as Hwfr.
  destruct (registered_fields st) as (Hc & Hh & Ha & Hb & Hby & Hbrk).
  destruct (malloc_wf_cases c size st Hwf)
    as [[Hz Hm]|(Hnz & l & Hseg & [(next & b & Hfit & Hm)|Hm])];
    rewrite Hm in Hrun.
  - injection Hrun as <- <-. by left.
  - injection Hrun as <- <-. right.
    destruct Hfit as [Hin _].
    destruct (BLOCK_DATA_wf c st l next b Hwf Hseg Hin) as (_ & Hne & _).
    split; [done|]. split; [done|]. split.
    + unfold finish_state, split_state. destruct (_ <? _); state_simpl; done.
    + eexists. split; [reflexivity|].
      unfold split_state. destruct (_ <? _); state_simpl; rewrite Hc; done.
  - rewrite growHeap_eq in Hrun. cbv zeta in Hrun.
    pose proof (wf_env c st Hwf) as (He1 & He2 & He3).
    pose proof (wf_brk c st Hwf) as Hbrk'.
    rewrite Hbrk in Hrun.
    assert (E1 : (brk st =? SBRK_FAILED) = false)
      by (apply Z.eqb_neq; unfold SBRK_FAILED; lia).
    assert (E2 : (brk st =? NULL) = false) by (apply Z.eqb_neq; unfold NULL; lia).
    rewrite E1 in Hrun.
    assert (Hne : BLOCK_DATA (brk st) <> NULL).
    { unfold BLOCK_DATA. rewrite to_size_t_id by (unfold sizeof_block; lia).
      unfold NULL, sizeof_block. lia. }
    destruct (grown_state_fields (last_addr (place (brk_lo c) l) (heapList st))
                (ALIGN4 size) (registered st)) as (Hgc & Hgb & _).
    assert (Hgoal : forall st2, st2 = finish_state (ALIGN4 size) (brk st)
              (grown_state (last_addr (place (brk_lo c) l) (heapList st)) (ALIGN4 size)
                 (registered st)) ->
            bytes st2 = bytes st /\
            exists s, counters st2 = count_malloc (ALIGN4 size) s /\
              num_requested s = num_requested (counters st) /\
              num_mallocs s = num_mallocs (counters st)).
    { intros st2 ->. unfold finish_state. state_simpl. rewrite Hgb, Hgc, Hc, Hby.
      split; [done|]. eexists. split; [reflexivity|]. done. }
    destruct (_ =? 0).
    + rewrite E2 in Hrun. injection Hrun as <- <-.
      right. split; [done|]. split; [done|]. by apply Hgoal.
    + destruct (_ && _); [|done].
      rewrite E2 in Hrun. injection Hrun as <- <-.
      right. split; [done|]. split; [done|]. by apply Hgoal.
Qed.

Lemma calloc_wf c nmemb size st :
  wf c st -> ALIGN4 (to_size_t (nmemb * size)) + sizeof_block < 2 ^ 63 ->
  calloc c nmemb size st = Abort \/
  exists p st', calloc c nmemb size st = Done (p, st') /\ wf c st'.
Proof.
  intros Hwf Hb. unfold calloc. cbv zeta. munfold.
  destruct (malloc_wf c (to_size_t (nmemb * size)) st Hwf Hb)
    as [[-> _]|(q & st1 & -> & Hwf1 & _)]; [by left|].
  right. destruct (negb (q =? NULL)); eexists _, _; (split; [reflexivity|]);
    [by apply wf_set_bytes|done].
Qed.

Lemma realloc_wf c ptr size st p st' :
  wf c st -> ALIGN4 size + sizeof_block < 2 ^ 63 ->
  realloc c ptr size st = Done (p, st') -> wf c st'.
Proof.
  intros Hwf Hb. unfold realloc.
  destruct (ptr =? NULL).
  { destruct (malloc_wf c size st Hwf Hb) as [[-> _]|(q & st1 & -> & Hwf1 & _)]; [done|].
    by intros [= <- <-]. }
  destruct (size =? 0).
  { munfold. destruct (free ptr st) as [[[] st1]| | |] eqn:Hfree; [|done..].
    intros [= <- <-]. by eapply free_wf. }
  munfold.
  destruct (malloc_wf c size st Hwf Hb) as [[-> _]|(q & st1 & -> & Hwf1 & _)]; [done|].
  destruct (negb (q =? NULL)); [|by intros [= <- <-]].
  unfold load. destruct (blocks st1 !! BLOCK_HEADER ptr) as [ob|]; [|done].
  match goal with |- context [free ptr ?s] =>
    destruct (free ptr s) as [[[] st2]| | |] eqn:Hfree; [|done..] end.
  intros [= <- <-]. eapply free_wf; [|exact Hfree]. by apply wf_set_bytes.
Qed.

Lemma realloc_copy c ptr size st newPtr st1 oldBlock st' :
  ptr <> NULL -> size <> 0 ->
  malloc c size st = Done (newPtr, st1) -> newPtr <> NULL ->
  blocks st1 !! BLOCK_HEADER ptr = Some oldBlock ->
  free ptr (set_bytes (memcpy newPtr ptr (Z.min (blk_size oldBlock) size)) st1)
    = Done (tt, st') ->
  realloc c ptr size st = Done (newPtr, st') /\
  forall i, 0 <= i < Z.min (blk_size oldBlock) size ->
    bytes st' (newPtr + i) = bytes st (ptr + i).
Proof.
  intros Hp Hs Hm Hq Hob Hfree. split.
  - unfold realloc. destruct (Z.eqb_spec ptr NULL) as [|_]; [done|].
    destruct (Z.eqb_spec size 0) as [|_]; [done|].
    munfold. rewrite Hm. destruct (Z.eqb_spec newPtr NULL) as [|_]; [done|]. cbn [negb].
    unfold load. rewrite Hob. rewrite min_ltb, Hfree. reflexivity.
  - intros i Hi. rewrite (free_bytes _ _ _ Hfree). state_simpl.
    rewrite memcpy_inside by done. by rewrite (malloc_bytes _ _ _ _ _ Hm).
Qed.

(** ** The layout and its view *)

Lemma view_app l1 l2 : view (l1 ++ l2) = view l1 ++ view l2.
Proof. apply fmap_app. Qed.

Lemma view_cons b l : view (b :: l) = (blk_size b, blk_free b) :: view l.
Proof. reflexivity. Qed.

Lemma seg_extent h e a l m : seg h e a l m -> m = a + extent (view l).
Proof.
  revert a. induction l as [|b l IH]; intros a; simpl; [lia|].
  intros (_ & _ & _ & Hseg). apply IH in Hseg. lia.
Qed.

Lemma seg_det h e a l1 l2 m : seg h e a l1 m -> seg h e a l2 m -> l1 = l2.
Proof.
  revert a l2. induction l1 as [|b l1 IH]; intros a l2 H1 H2.
  - simpl in H1. subst m. symmetry. by eapply seg_nil_iff.
  - destruct l2 as [|b2 l2].
    + simpl in H2. subst m. by apply seg_nil_iff in H1.
    + destruct H1 as (Hb & _ & _ & H1). destruct H2 as (Hb2 & _ & _ & H2).
      rewrite Hb in Hb2. injection Hb2 as <-. f_equal. by eapply IH.
Qed.

Lemma place_app a l1 l2 :
  place a (l1 ++ l2) = place a l1 ++ place (a + extent (view l1)) l2.
Proof.
  revert a. induction l1 as [|b l1 IH]; intros a; simpl.
  - by rewrite Z.add_0_r.
  - rewrite IH. do 3 f_equal. lia.
Qed.

Lemma adjacent_free_place a l : adjacent_free (place a l) <-> adjacent_free_view (view l).
Proof.
  revert a. induction l as [|b l IH]; intros a; [done|].
  destruct l as [|n l]; [done|].
  specialize (IH (a + sizeof_block + blk_size b)). simpl in *. by rewrite IH.
Qed.

Lemma wf_layout c st : wf c st -> exists l, layout c st l.
Proof. intros Hwf. apply (wf_seg c st Hwf). Qed.

Lemma layout_heap_list c st l :
  wf c st -> layout c st l -> heap_list (blocks st) (heapList st) (place (brk_lo c) l).
Proof.
  intros Hwf Hl. destruct (wf_heap_list c st Hwf) as (l0 & Hseg & Hhl).
  by rewrite (seg_det _ _ _ _ _ _ Hl Hseg).
Qed.

Lemma ALIGN4_mod4 s : ALIGN4 s mod 4 = 0.
Proof.
  unfold ALIGN4, to_size_t. rewrite Z.shiftl_mul_pow2 by lia.
  change (2 ^ 2) with 4. change (2 ^ 64) with 18446744073709551616.
  generalize (Z.shiftr ((s - 1) mod 18446744073709551616) 2). intros q.
  Z.div_mod_to_equations. lia.
Qed.

(** ** What the loop of free keeps *)

Lemma coalesced_refl st : coalesced st st.
Proof.
  split; [apply heap_only_refl|]. split; [done|]. split; [done|]. by exists 0%nat.
Qed.

Lemma coalesced_trans st1 st2 st3 :
  coalesced st1 st2 -> coalesced st2 st3 -> coalesced st1 st3.
Proof.
  intros (Ho1 & Hf1 & Hl1 & k1 & Hk1) (Ho2 & Hf2 & Hl2 & k2 & Hk2).
  split; [by eapply heap_only_trans|]. split; [intros a; by rewrite Hf2|].
  split; [intros a b Ha Hb; apply Hl2; [by apply Hl1|done]|].
  exists (k2 + k1)%nat. by rewrite Nat.iter_add, <- Hk1.
Qed.

(* one merge at temp, a free block *)
Lemma coalesced_merge temp t sz nx st :
  blocks st !! temp = Some t -> blk_free t = true ->
  coalesced st
    (set_counters incr_coalesces
       (set_blocks (upd temp (set_next nx)) (set_blocks (upd temp (set_size sz)) st))).
Proof.
  intros Ht Hf. split; [done|]. state_simpl. split; [|split; [|by exists 1%nat]].
  - intros a. destruct (decide (a = temp)) as [->|Hne].
    + erewrite upd_lookup; [|by apply upd_lookup]. by rewrite Ht.
    + by rewrite !upd_lookup_ne.
  - intros a b Ha Hb. destruct (decide (a = temp)) as [->|Hne]; [congruence|].
    by rewrite !upd_lookup_ne.
Qed.

Lemma coalesce_loop_coalesced : forall fuel temp st st',
  coalesce_loop fuel temp st = Done (tt, st') -> coalesced st st'.
Proof.
  induction fuel as [|fuel IH]; intros temp st st'; cbn [coalesce_loop]; [done|].
  destruct (temp =? NULL); [intros [= <-]; apply coalesced_refl|].
  munfold. unfold load.
  destruct (blocks st !! temp) as [t|] eqn:Ht; [|done].
  destruct (blk_free t) eqn:Hf; cbn [andb].
  2: { rewrite Ht. apply IH. }
  destruct (negb (blk_next t =? NULL)).
  2: { rewrite Ht. apply IH. }
  destruct (blocks st !! blk_next t) as [n|]; [|done].
  destruct (blk_free n).
  2: { rewrite Ht. apply IH. }
  rewrite Ht.
  repeat (state_simpl; match goal with
  | |- context [match ?h !! ?a with Some _ => _ | None => _ end] =>
      destruct (h !! a); [|done]
  end).
  intros H. apply IH in H. eapply coalesced_trans; [|exact H].
  by eapply coalesced_merge.
Qed.

(* free of a non-null pointer that returns: the block was live, and the
   final state is the marked state after the loop, with one more free *)
Lemma free_done ptr st st' :
  ptr <> NULL -> free ptr st = Done (tt, st') ->
  exists b st2,
    blocks st !! BLOCK_HEADER ptr = Some b /\ blk_free b = false /\
    coalesced (set_blocks (upd (BLOCK_HEADER ptr) (set_free true)) st) st2 /\
    st' = set_counters incr_frees st2.
Proof.
  intros Hp Hrun.
  destruct (blocks st !! BLOCK_HEADER ptr) as [b|] eqn:Hb.
  - rewrite (free_eq ptr st b Hp Hb) in Hrun. destruct (blk_free b) eqn:Hf; [done|].
    match type of Hrun with context [coalesce_loop ?f ?t ?s] =>
      destruct (coalesce_loop f t s) as [[[] st2]| | |] eqn:Hloop; [|done..] end.
    injection Hrun as <-. exists b, st2. split; [done|]. split; [done|].
    split; [by eapply coalesce_loop_coalesced|done].
  - unfold free in Hrun. destruct (Z.eqb_spec ptr NULL); [done|].
    munfold. unfold load in Hrun. by rewrite Hb in Hrun.
Qed.

(** ** The scan on its own *)

Lemma findFreeBlock_pure c last size st r st1 :
  fit c <> NEXT -> findFreeBlock c last size st = Done (r, st1) -> st1 = st.
Proof.
  intros Hfit. unfold findFreeBlock. munfold. destruct (fit c); [| | |done].
  - destruct (first_fit_loop _ _ _ _ _) as [?| | |]; [|done..]. by intros [= <- <-].
  - destruct (best_fit_loop _ _ _ _ _ _ _) as [?| | |]; [|done..]. by intros [= <- <-].
  - destruct (worst_fit_loop _ _ _ _ _ _ _) as [?| | |]; [|done..]. by intros [= <- <-].
Qed.

Lemma findFreeBlock_NEXT_FIT c c' last size st :
  fit c = NEXT -> fit c' = FIT -> actualLast st = NULL ->
  findFreeBlock c last size st = findFreeBlock c' last size st.
Proof.
  intros Hc Hc' Hal. unfold findFreeBlock. rewrite Hc, Hc'. munfold. rewrite Hal.
  unfold fuel_of. rewrite next_fit_loop_null. cbv beta iota.
  change (NULL =? NULL) with true. cbv iota.
  rewrite <- Hal at 1. by rewrite set_actualLast_same.
Qed.

Lemma growHeap_config c c' last size st :
  brk_lo c' = brk_lo c -> brk_hi c' = brk_hi c ->
  growHeap c last size st = growHeap c' last size st.
Proof. intros Hlo Hhi. rewrite !growHeap_eq. cbv zeta. by rewrite Hlo, Hhi. Qed.

(** ** The loop of free as a pass over the view *)

Lemma iter_incr_coalesces_succ k s :
  Nat.iter k incr_coalesces (incr_coalesces s) = Nat.iter (S k) incr_coalesces s.
Proof. by rewrite Nat.iter_succ_r. Qed.

Lemma num_coalesces_iter k s :
  num_coalesces (Nat.iter k incr_coalesces s)
  = Nat.iter k (fun n => to_int (n + 1)) (num_coalesces s).
Proof. induction k as [|k IH]; [done|]. simpl. by rewrite IH. Qed.

(* the loop over a layout computes coalesce_pass, and counts one coalesce for
   every block that disappears *)
Lemma coalesce_loop_view e : forall fuel l a st,
  0 < a -> e < 2 ^ 64 ->
  seg (blocks st) e a l e -> (length l < fuel)%nat ->
  exists st' l', coalesce_loop fuel (nxt e a) st = Done (tt, st') /\
    seg (blocks st') e a l' e /\
    view l' = coalesce_pass (view l) /\
    (length l' <= length l)%nat /\
    counters st' = Nat.iter (length l - length l') incr_coalesces (counters st) /\
    (forall x, x < a -> blocks st' !! x = blocks st !! x) /\
    (forall x, is_Some (blocks st' !! x) <-> is_Some (blocks st !! x)) /\
    heap_only st st'.
Proof.
  induction fuel as [|fuel IH]; intros l a st Ha He Hseg Hf; [lia|].
  destruct l as [|t l].
  - simpl in Hseg. subst a. rewrite nxt_end. exists st, []. cbn [coalesce_loop].
    change (NULL =? NULL) with true. cbv iota.
    split; [reflexivity|]. split; [reflexivity|]. split; [reflexivity|].
    split; [done|]. split; [done|]. split; [done|]. split; [done|].
    apply heap_only_refl.
  - pose proof (seg_cons_lt _ _ _ _ _ _ Hseg) as [Hle Hlt].
    destruct Hseg as (Ht & Hs & Hn & Hseg).
    rewrite nxt_lt by done.
    assert (Hane : a <> NULL) by (unfold NULL; lia).
    assert (Skip : (blk_free t = false \/ blk_next t = NULL \/
               exists n, blocks st !! blk_next t = Some n /\ blk_free n = false) ->
      coalesce_pass (view (t :: l)) = (blk_size t, blk_free t) :: coalesce_pass (view l) ->
      exists st' l', coalesce_loop (S fuel) a st = Done (tt, st') /\
        seg (blocks st') e a l' e /\
        view l' = coalesce_pass (view (t :: l)) /\
        (length l' <= length (t :: l))%nat /\
        counters st' =
          Nat.iter (length (t :: l) - length l') incr_coalesces (counters st) /\
        (forall x, x < a -> blocks st' !! x = blocks st !! x) /\
        (forall x, is_Some (blocks st' !! x) <-> is_Some (blocks st !! x)) /\
        heap_only st st').
    { intros Hc Hpass. rewrite (coalesce_step_skip fuel a st t Hane Ht Hc). rewrite Hn.
      destruct (IH l (a + sizeof_block + blk_size t) st)
        as (st' & l' & Hrun & Hseg' & Hv & Hlen & Hcnt & Hfr & Hdom & Hho);
        [unfold sizeof_block; lia|done|done|simpl in Hf; lia|].
      exists st', (t :: l'). split; [done|]. split.
      { simpl. rewrite Hfr by (unfold sizeof_block; lia). done. }
      split; [rewrite Hpass; cbn [view fmap list_fmap]; f_equal; exact Hv|].
      split; [simpl; lia|]. split; [exact Hcnt|].
      split; [|done]. intros x Hx. apply Hfr. unfold sizeof_block. lia. }
    destruct l as [|n l2].
    + apply Skip; [|done]. right. left. simpl in Hseg. rewrite Hn, Hseg. apply nxt_end.
    + pose proof (seg_cons_lt _ _ _ _ _ _ Hseg) as [Hle2 Hlt2].
      rewrite nxt_lt in Hn by done.
      destruct Hseg as (Hnb & Hsn & Hnn & Hseg).
      destruct (blk_free t) eqn:Hft.
      2: { apply Skip; [by left|]. simpl. by rewrite Hft. }
      destruct (blk_free n) eqn:Hfn.
      2: { apply Skip; [right; right; exists n; by rewrite Hn|].
           simpl. by rewrite Hft, Hfn. }
      rewrite (coalesce_step_merge fuel a st t n Hane Ht Hft);
        [|rewrite Hn; unfold NULL, sizeof_block; lia
         |rewrite Hn; unfold sizeof_block; lia
         |by rewrite Hn|done].
      rewrite Hnn.
      set (a1 := a + sizeof_block + blk_size t) in *.
      set (a2 := a1 + sizeof_block + blk_size n) in *.
      assert (Hfr0 : forall x, x <> a -> blocks (merged_state a t n st) !! x = blocks st !! x).
      { intros x Hx. unfold merged_state. state_simpl. rewrite !upd_lookup_ne by done. done. }
      destruct (IH l2 a2 (merged_state a t n st))
        as (st' & l' & Hrun & Hseg' & Hv & Hlen & Hcnt & Hfr & Hdom & Hho);
        [unfold a2, a1, sizeof_block; lia|done| |simpl in Hf; lia|].
      { eapply seg_frame; [exact Hseg|]. intros x Hx. apply Hfr0.
        unfold a2, a1, sizeof_block in *. lia. }
      exists st',
        (set_next (blk_next n)
           (set_size (to_size_t (blk_size t + to_size_t (blk_size n + sizeof_block))) t)
         :: l').
      split; [done|].
      assert (Hsz : to_size_t (blk_size t + to_size_t (blk_size n + sizeof_block))
                    = blk_size t + blk_size n + sizeof_block).
      { pose proof (seg_le _ _ _ _ _ Hseg).
        rewrite (to_size_t_id (blk_size n + sizeof_block))
          by (unfold a2, a1, sizeof_block in *; lia).
        rewrite to_size_t_id by (unfold a2, a1, sizeof_block in *; lia). lia. }
      split.
      { cbn [seg]. cbn [blk_size blk_next set_next set_size]. rewrite Hsz.
        split.
        - rewrite Hfr by (unfold a2, a1, sizeof_block; lia).
          unfold merged_state. state_simpl.
          erewrite upd_lookup; [|by apply upd_lookup]. by rewrite Hsz.
        - split; [unfold sizeof_block; lia|].
          replace (a + sizeof_block + (blk_size t + blk_size n + sizeof_block)) with a2
            by (unfold a2, a1; lia).
          split; [done|done]. }
      split.
      { cbn [view fmap list_fmap coalesce_pass]. rewrite Hft, Hfn. cbn [andb].
        cbn [blk_size blk_free set_next set_size]. rewrite Hsz, Hft.
        f_equal. exact Hv. }
      split; [simpl; lia|].
      split.
      { rewrite Hcnt. unfold merged_state. state_simpl.
        rewrite iter_incr_coalesces_succ. f_equal. simpl. lia. }
      split.
      { intros x Hx. rewrite Hfr by (unfold a2, a1, sizeof_block; lia). apply Hfr0. lia. }
      split.
      { intros x. rewrite Hdom. unfold merged_state. state_simpl.
        rewrite upd_dom by (apply upd_is_Some; eauto).
        apply upd_dom. eauto. }
      eapply heap_only_trans; [|exact Hho]. unfold merged_state, heap_only. state_simpl. done.
Qed.

(** ** free on the layout *)

Lemma seg_split h e a l1 b l2 m :
  seg h e a (l1 ++ b :: l2) m ->
  seg h e a l1 (a + extent (view l1)) /\
  seg h e (a + extent (view l1)) (b :: l2) m.
Proof.
  intros Hseg. apply seg_app in Hseg as (k & H1 & H2).
  by rewrite <- (seg_extent _ _ _ _ _ H1).
Qed.

Lemma seg_set_free_at h e a l1 b l2 m v :
  seg h e a (l1 ++ b :: l2) m ->
  seg (upd (a + extent (view l1)) (set_free v) h) e a (l1 ++ set_free v b :: l2) m.
Proof.
  intros Hseg. apply seg_split in Hseg as [H1 H2].
  set (x := a + extent (view l1)) in *.
  pose proof (seg_le _ _ _ _ _ H1) as Hle.
  destruct H2 as (Hb & Hs & Hn & H2).
  apply seg_app. exists x. split.
  - eapply seg_frame; [exact H1|]. intros y Hy. apply upd_lookup_ne. lia.
  - cbn [seg blk_size blk_next set_free]. split; [by apply upd_lookup|].
    split; [done|]. split; [done|].
    eapply seg_frame; [exact H2|]. intros y Hy. apply upd_lookup_ne.
    unfold sizeof_block in *. lia.
Qed.

Lemma layout_block c st l1 b l2 :
  wf c st -> layout c st (l1 ++ b :: l2) ->
  let hdr := brk_lo c + extent (view l1) in
  blocks st !! hdr = Some b /\
  brk_lo c <= hdr /\ hdr + sizeof_block + blk_size b <= brk st /\ 0 <= blk_size b /\
  BLOCK_DATA hdr = hdr + sizeof_block /\ BLOCK_HEADER (hdr + sizeof_block) = hdr /\
  hdr + sizeof_block <> NULL.
Proof.
  intros Hwf Hl hdr. apply seg_split in Hl as [H1 H2]. fold hdr in H1, H2.
  pose proof (seg_le _ _ _ _ _ H1) as Hle.
  pose proof (seg_cons_lt _ _ _ _ _ _ H2) as [Hend _].
  destruct H2 as (Hb & Hs & _).
  pose proof (wf_env c st Hwf) as (He1 & He2 & He3).
  pose proof (wf_brk c st Hwf) as Hbrk.
  split; [done|]. split; [done|]. split; [done|]. split; [done|].
  unfold BLOCK_DATA, BLOCK_HEADER, NULL.
  replace (hdr + sizeof_block - sizeof_block) with hdr by lia.
  rewrite !to_size_t_id by (unfold sizeof_block in *; lia).
  split; [done|]. split; [done|]. unfold sizeof_block. lia.
Qed.

(* free of a live block of the layout: the block is marked free and the
   loop makes one pass over the list *)
Lemma free_layout c st l1 b l2 :
  wf c st -> layout c st (l1 ++ b :: l2) -> blk_free b = false ->
  exists st' l',
    free (brk_lo c + extent (view l1) + sizeof_block) st = Done (tt, st') /\
    wf c st' /\ layout c st' l' /\
    view l' = coalesce_pass (view l1 ++ (blk_size b, true) :: view l2) /\
    (length l' <= length (l1 ++ b :: l2))%nat /\
    counters st' =
      incr_frees (Nat.iter (length (l1 ++ b :: l2) - length l') incr_coalesces (counters st)) /\
    heap_only st st'.
Proof.
  intros Hwf Hl Hlive.
  destruct (layout_block c st l1 b l2 Hwf Hl) as (Hb & Hlo & Hhi & Hs & _ & Hhdr & Hnn).
  set (hdr := brk_lo c + extent (view l1)) in *.
  pose proof (wf_env c st Hwf) as (He1 & He2 & He3).
  pose proof (wf_brk c st Hwf) as Hbrk.
  destruct (free_wf_live c (hdr + sizeof_block) st b Hwf Hnn) as (st' & Hrun & Hwf' & _);
    [by rewrite Hhdr|done|].
  exists st'. rewrite Hrun.
  rewrite (free_eq _ st b Hnn) in Hrun by (by rewrite Hhdr).
  rewrite Hlive, Hhdr in Hrun.
  pose proof (seg_set_free_at _ _ _ _ _ _ _ true Hl) as Hseg. fold hdr in Hseg.
  set (st1 := set_blocks (upd hdr (set_free true)) st) in *.
  assert (Hfuel : (length (l1 ++ set_free true b :: l2)
                   < fuel_of (upd hdr (set_free true) (blocks st)))%nat).
  { rewrite <- (place_length (brk_lo c)).
    eapply heap_list_fuel. apply (seg_heap_list _ (brk st)); [lia|exact Hseg]. }
  destruct (coalesce_loop_view (brk st) _ _ (brk_lo c) st1 ltac:(lia) ltac:(lia) Hseg Hfuel)
    as (st2 & l' & Hloop & Hseg' & Hv & Hlen & Hcnt & _ & _ & Hho).
  rewrite <- (wf_head c st Hwf) in Hloop. change (heapList st1) with (heapList st) in Hrun.
  rewrite Hloop in Hrun. injection Hrun as <-.
  destruct Hho as (Ho1 & Ho2 & Ho3 & Ho4 & Ho5).
  exists l'. split; [done|]. split; [done|].
  split; [unfold layout; state_simpl; by rewrite Ho5|].
  split.
  { rewrite Hv, view_app. cbn [view fmap list_fmap blk_size blk_free set_free]. done. }
  rewrite !length_app in *. cbn [length] in *.
  split; [done|]. split; [state_simpl; by rewrite Hcnt|].
  unfold heap_only. state_simpl. done.
Qed.

(** ** malloc on the layout *)

Lemma place_elem_app a l1 b l2 :
  (a + extent (view l1), b) ∈ place a (l1 ++ b :: l2).
Proof. rewrite place_app. apply elem_of_app. right. apply list_elem_of_here. Qed.

(* a split of the placed list is a split of the layout *)
Lemma place_split l : forall a pl1 r b pl2,
  place a l = pl1 ++ (r, b) :: pl2 ->
  exists l1 l2, l = l1 ++ b :: l2 /\ pl1 = place a l1 /\ r = a + extent (view l1).
Proof.
  induction l as [|x l IH]; intros a pl1 r b pl2 H.
  - by destruct pl1.
  - destruct pl1 as [|p pl1]; simpl in H.
    + injection H as <- <- _. exists [], l. split; [done|]. split; [done|]. simpl. lia.
    + injection H as <- H. apply IH in H as (l1 & l2 & -> & -> & ->).
      exists (x :: l1), l2. split; [done|]. split; [done|]. simpl. lia.
Qed.

Lemma reuse_layout c st l1 b l2 size :
  wf c st -> layout c st (l1 ++ b :: l2) -> 0 <= size -> fits b size = true ->
  let next := brk_lo c + extent (view l1) in
  exists l', layout c (reused_state size next b st) l' /\
    view l' = view l1 ++ reuse_view size b ++ view l2 /\
    wf c (reused_state size next b st).
Proof.
  intros Hwf Hl Hsz Hfit next.
  assert (Hwf' : wf c (reused_state size next b st)).
  { apply (reuse_wf c st (l1 ++ b :: l2)); [done|done|done|].
    split; [apply place_elem_app|done]. }
  destruct (layout_block c st l1 b l2 Hwf Hl) as (Hb & Hlo & Hhi & Hs & _).
  fold next in Hb, Hlo, Hhi.
  apply fits_spec in Hfit as [Hfree Hle].
  pose proof (wf_env c st Hwf) as (He1 & He2 & He3).
  pose proof (wf_brk c st Hwf) as Hbrk.
  unfold reused_state, reuse_view in *.
  rewrite (to_size_t_id (size + sizeof_block)) in * by (unfold sizeof_block in *; lia).
  destruct (Z.ltb_spec (size + sizeof_block) (blk_size b)) as [Hsplit|Hno].
  - pose proof Hl as Hl0. apply seg_split in Hl as [Hseg1 Hseg2]. fold next in Hseg1, Hseg2.
    destruct Hseg2 as (_ & _ & Hn & Hseg2).
    destruct (split_lookup size next b (blocks st) Hb) as (Hne & Hnext & Hnew & Hframe);
      [unfold sized, sizeof_block in *; lia|done|done|].
    rewrite (to_size_t_id (next + sizeof_block + size)) in *
      by (unfold sizeof_block in *; lia).
    set (nb := next + sizeof_block + size) in *.
    set (X := blk_size b - size - sizeof_block) in *.
    exists (l1 ++ mkBlock size nb false :: mkBlock X (blk_next b) true :: l2).
    split; [|split; [by rewrite view_app|done]].
    unfold layout, finish_state, split_state. state_simpl.
    apply seg_app. exists next. split.
    + eapply seg_frame; [exact Hseg1|]. intros x Hx.
      apply Hframe; unfold nb, sizeof_block; lia.
    + cbn [seg blk_size blk_next]. fold nb.
      split; [done|]. split; [done|].
      split; [rewrite nxt_lt; [done|unfold nb, X, sizeof_block in *; lia]|].
      split; [done|]. split; [unfold X, sizeof_block in *; lia|].
      replace (nb + sizeof_block + X) with (next + sizeof_block + blk_size b)
        by (unfold nb, X; lia).
      split; [done|].
      eapply seg_frame; [exact Hseg2|]. intros x Hx.
      apply Hframe; unfold nb, X, sizeof_block in *; lia.
  - exists (l1 ++ set_free false b :: l2).
    split; [|split; [by rewrite view_app|done]].
    unfold layout, finish_state. state_simpl. by apply seg_set_free_at.
Qed.

Lemma grow_layout c st l last size :
  wf c st -> layout c st l ->
  last = last_addr (place (brk_lo c) l) (heapList st) ->
  0 <= size -> size + sizeof_block < 2 ^ 63 ->
  brk st + sizeof_block + size <= brk_hi c ->
  let st' := finish_state size (brk st) (grown_state last size st) in
  exists l', layout c st' l' /\ view l' = view l ++ [(size, false)] /\
    brk st' = brk st + sizeof_block + size /\
    heapList st' = brk_lo c.
Proof.
  intros Hwf Hseg Hlast Hsz Hbound Hok st'. unfold layout in *.
  pose proof (wf_env c st Hwf) as (He1 & He2 & He3).
  pose proof (wf_brk c st Hwf) as Hbrk.
  pose proof (wf_head c st Hwf) as Hhead.
  assert (Hincr : to_intptr (to_size_t (sizeof_block + size)) = sizeof_block + size).
  { rewrite to_size_t_id by (unfold sizeof_block in *; lia).
    apply to_intptr_id. unfold sizeof_block in *. lia. }
  set (e := brk st) in *. set (e' := e + (sizeof_block + size)).
  assert (Hbrk' : brk st' = e').
  { unfold st', finish_state, grown_state. cbv zeta. rewrite Hincr.
    destruct (heapList _ =? NULL), (negb (last =? NULL)); reflexivity. }
  assert (Hblocks : blocks st' =
    upd e (set_free false) (upd e (set_free false) (upd e (set_next NULL) (upd e (set_size size)
      (if negb (last =? NULL) then upd last (set_next e) (blocks st) else blocks st))))).
  { unfold st', finish_state, grown_state. cbv zeta.
    destruct (heapList _ =? NULL), (negb (last =? NULL)); reflexivity. }
  assert (Hnew : blocks st' !! e = Some (mkBlock size NULL false)).
  { rewrite Hblocks. rewrite !upd_lookup_eq. cbn [default from_option]. unfold id. reflexivity. }
  assert (Hhl' : heapList st' = if heapList st =? NULL then e else heapList st).
  { unfold st', finish_state, grown_state. cbv zeta. state_simpl.
    destruct (heapList st =? NULL), (negb (last =? NULL)); reflexivity. }
  destruct (place_last _ _ _ _ _ (heapList st) Hseg) as [[-> Hd]|(l0 & t & -> & Hseg0 & Hsegt)].
  - simpl in Hseg.
    assert (Hhl : heapList st = NULL) by (rewrite Hhead; fold e; rewrite <- Hseg; apply nxt_end).
    exists [mkBlock size NULL false]. rewrite Hbrk'. split; [|split; [done|split; [lia|]]].
    + rewrite <- Hseg in *. cbn [seg blk_size blk_next]. split; [done|]. split; [done|].
      replace (brk_lo c + sizeof_block + size) with e' by (unfold e'; lia).
      split; [by rewrite nxt_end|done].
    + rewrite Hhl', Hhl. change (NULL =? NULL) with true. cbv iota. done.
  - rewrite <- Hlast in *.
    pose proof (seg_le _ _ _ _ _ Hseg0) as Hlo.
    pose proof (seg_cons_lt _ _ _ _ _ _ Hsegt) as [Hend Hlt].
    destruct Hsegt as (Ht & Hst & Hnt & Hte). simpl in Hte.
    assert (Hhl : heapList st = brk_lo c) by (rewrite Hhead; apply nxt_lt; lia).
    assert (Hlne : (last =? NULL) = false) by (apply Z.eqb_neq; unfold NULL; lia).
    rewrite Hlne in Hblocks. cbn [negb] in Hblocks.
    assert (Htail : blocks st' !! last = Some (set_next e t)).
    { rewrite Hblocks. rewrite !(upd_lookup_ne e last) by lia. by apply upd_lookup. }
    assert (Hframe : forall x, x <> e -> x <> last -> blocks st' !! x = blocks st !! x).
    { intros x Hx1 Hx2. rewrite Hblocks. rewrite !(upd_lookup_ne e x) by done.
      by rewrite upd_lookup_ne. }
    exists (l0 ++ [set_next e t; mkBlock size NULL false]). rewrite Hbrk'.
    split; [|split; [|split; [lia|]]].
    + apply seg_app. exists last. split.
      * eapply seg_frame; [eapply seg_end; [exact Hseg0|lia|unfold e', sizeof_block; lia]|].
        intros x Hx. apply Hframe; lia.
      * cbn [seg blk_size blk_next set_next]. rewrite Hte.
        split; [done|]. split; [done|].
        split; [rewrite nxt_lt; [done|unfold e', sizeof_block; lia]|].
        split; [done|]. split; [done|].
        replace (e + sizeof_block + size) with e' by (unfold e'; lia).
        split; [by rewrite nxt_end|done].
    + rewrite !view_app. cbn [view fmap list_fmap blk_size blk_free set_next].
      by rewrite <- app_assoc.
    + rewrite Hhl', Hhl.
      destruct (Z.eqb_spec (brk_lo c) NULL) as [|_]; [unfold NULL in *; lia|done].
Qed.

Lemma layout_registered c st l : layout c st l -> layout c (registered st) l.
Proof.
  unfold layout. destruct (registered_fields st) as (_ & _ & _ & -> & _ & ->). done.
Qed.

Lemma malloc_reuse_at c size st l1 b l2 last' :
  wf c st -> layout c st (l1 ++ b :: l2) -> ALIGN4 size <> 0 ->
  findFreeBlock c (heapList st) (ALIGN4 size) (registered st)
    = Done ((brk_lo c + extent (view l1), last'), registered st) ->
  malloc c size st =
  Done (brk_lo c + extent (view l1) + sizeof_block,
        reused_state (ALIGN4 size) (brk_lo c + extent (view l1)) b (registered st)).
Proof.
  intros Hwf Hl Hnz Hfind.
  destruct (layout_block c st l1 b l2 Hwf Hl) as (Hb & Hlo & _ & _ & Hdata & _).
  pose proof (wf_env c st Hwf) as (He1 & _).
  destruct (malloc_reuse c size st _ _ _ b Hnz Hfind) as [-> _];
    [unfold NULL; lia|done|]. by rewrite Hdata.
Qed.

Lemma malloc_grow_at c size st l last' :
  wf c st -> layout c st l -> ALIGN4 size <> 0 -> ALIGN4 size + sizeof_block < 2 ^ 63 ->
  findFreeBlock c (heapList st) (ALIGN4 size) (registered st)
    = Done ((NULL, last'), registered st) ->
  last' = last_addr (place (brk_lo c) l) (heapList st) ->
  (malloc c size st = Abort /\ brk_hi c < brk st + sizeof_block + ALIGN4 size) \/
  (malloc c size st =
   Done (brk st + sizeof_block,
         finish_state (ALIGN4 size) (brk st) (grown_state last' (ALIGN4 size) (registered st))) /\
   brk st + sizeof_block + ALIGN4 size <= brk_hi c).
Proof.
  intros Hwf Hl Hnz Hbound Hfind Hlast.
  pose proof (wf_registered c st Hwf) as Hwfr.
  destruct (registered_fields st) as (Hc & Hh & Ha & Hb & Hby & Hbrk).
  pose proof (ALIGN4_range size) as Hrange.
  pose proof (wf_env c st Hwf) as (He1 & He2 & He3).
  pose proof (wf_brk c st Hwf) as Hbrk'.
  rewrite malloc_eq. cbv zeta.
  destruct (Z.eqb_spec (ALIGN4 size) 0) as [|_]; [done|]. rewrite Hfind.
  change (NULL =? NULL) with true. cbv iota.
  destruct (grow_wf c (registered st) l last' (ALIGN4 size) Hwfr)
    as [[-> Hden]|(-> & Hne & Hok & _)];
    [by apply layout_registered|by rewrite Hh|lia|lia| |].
  - left. by rewrite <- Hbrk.
  - right. rewrite Hbrk in *. destruct (Z.eqb_spec (brk st) NULL) as [|_]; [done|].
    unfold BLOCK_DATA. rewrite to_size_t_id by (unfold sizeof_block; lia). done.
Qed.

Lemma fitting_place c st l r b size :
  layout c st l -> fitting size (place (brk_lo c) l) r b ->
  exists l1 l2, l = l1 ++ b :: l2 /\ r = brk_lo c + extent (view l1) /\ fits b size = true.
Proof.
  intros Hl [Hin Hfit].
  destruct (place_elem _ _ _ _ _ _ _ Hl Hin) as (l1 & l2 & -> & Hseg1 & _).
  exists l1, l2. split; [done|]. split; [by apply seg_extent in Hseg1|done].
Qed.

(* the paths of malloc through a well-formed heap, on the layout *)
Lemma malloc_paths c size st l :
  wf c st -> layout c st l -> ALIGN4 size <> 0 -> ALIGN4 size + sizeof_block < 2 ^ 63 ->
  (exists l1 b l2, l = l1 ++ b :: l2 /\ fits b (ALIGN4 size) = true /\
     malloc c size st =
     Done (brk_lo c + extent (view l1) + sizeof_block,
           reused_state (ALIGN4 size) (brk_lo c + extent (view l1)) b (registered st))) \/
  (malloc c size st = Abort /\ brk_hi c < brk st + sizeof_block + ALIGN4 size) \/
  (malloc c size st =
   Done (brk st + sizeof_block,
         finish_state (ALIGN4 size) (brk st)
           (grown_state (last_addr (place (brk_lo c) l) (heapList st)) (ALIGN4 size)
              (registered st))) /\
   brk st + sizeof_block + ALIGN4 size <= brk_hi c).
Proof.
  intros Hwf Hl Hnz Hbound.
  pose proof (wf_registered c st Hwf) as Hwfr.
  pose proof (layout_heap_list c _ l Hwfr (layout_registered c st l Hl)) as Hhl.
  destruct (findFreeBlock_wf c (registered st) _ (heapList st) (ALIGN4 size) Hhl
              (wf_cursor c _ Hwfr)) as (r & last' & Hfind & Hr).
  destruct Hr as [(-> & Hlast)|(b & Hfit)].
  - right. subst last'. by eapply malloc_grow_at.
  - left. destruct (fitting_place c st l r b _ Hl Hfit) as (l1 & l2 & -> & -> & Hf).
    exists l1, b, l2. split; [done|]. split; [done|]. by eapply malloc_reuse_at.
Qed.

Lemma Forall_unfit_place size a l :
  Forall (unfit size) (place a l) <-> Forall (fun b => fits b size = false) l.
Proof.
  revert a. induction l as [|b l IH]; intros a; simpl; [by split; constructor|].
  rewrite !Forall_cons, IH. done.
Qed.

(* first fit (and next fit, whose cursor is NULL): the first block that
   fits is reused, and the heap grows only when no block fits *)
Lemma malloc_paths_first c size st l :
  wf c st -> layout c st l -> ALIGN4 size <> 0 -> ALIGN4 size + sizeof_block < 2 ^ 63 ->
  fit c = FIT \/ fit c = NEXT ->
  (exists l1 b l2, l = l1 ++ b :: l2 /\ fits b (ALIGN4 size) = true /\
     Forall (fun x => fits x (ALIGN4 size) = false) l1 /\
     malloc c size st =
     Done (brk_lo c + extent (view l1) + sizeof_block,
           reused_state (ALIGN4 size) (brk_lo c + extent (view l1)) b (registered st))) \/
  (Forall (fun x => fits x (ALIGN4 size) = false) l /\
   ((malloc c size st = Abort /\ brk_hi c < brk st + sizeof_block + ALIGN4 size) \/
    (malloc c size st =
     Done (brk st + sizeof_block,
           finish_state (ALIGN4 size) (brk st)
             (grown_state (last_addr (place (brk_lo c) l) (heapList st)) (ALIGN4 size)
                (registered st))) /\
     brk st + sizeof_block + ALIGN4 size <= brk_hi c))).
Proof.
  intros Hwf Hl Hnz Hbound Hfit.
  pose proof (wf_registered c st Hwf) as Hwfr.
  pose proof (layout_heap_list c _ l Hwfr (layout_registered c st l Hl)) as Hhl.
  set (c1 := mkConfig FIT (brk_lo c) (brk_hi c)).
  assert (Hfind : findFreeBlock c (heapList st) (ALIGN4 size) (registered st)
                  = findFreeBlock c1 (heapList st) (ALIGN4 size) (registered st)).
  { destruct Hfit as [Hf|Hf].
    - unfold findFreeBlock. by rewrite Hf.
    - apply findFreeBlock_NEXT_FIT; [done|done|apply (wf_cursor c _ Hwfr)]. }
  destruct (findFreeBlock_FIT c1 (registered st) _ (heapList st) (ALIGN4 size) eq_refl Hhl)
    as (r & last' & Hrun & Hr).
  rewrite <- Hfind in Hrun.
  destruct Hr as [(-> & Hun & Hlast)|(pl1 & b & pl2 & Hpl & Hun & Hf & _)].
  - right. split; [by apply Forall_unfit_place in Hun|]. subst last'.
    by eapply malloc_grow_at.
  - left. destruct (place_split _ _ _ _ _ _ Hpl) as (l1 & l2 & -> & -> & ->).
    exists l1, b, l2. split; [done|]. split; [done|].
    split; [by apply Forall_unfit_place in Hun|]. by eapply malloc_reuse_at.
Qed.

(** ** The allocations of a layout *)

Lemma payloads_app a v1 v2 :
  payloads a (v1 ++ v2) = payloads a v1 ++ payloads (a + extent v1) v2.
Proof.
  revert a. induction v1 as [|[s f] v1 IH]; intros a; simpl.
  - by rewrite Z.add_0_r.
  - rewrite IH. replace (a + sizeof_block + s + extent v1)
      with (a + (sizeof_block + s + extent v1)) by lia.
    by destruct f.
Qed.

Lemma extent_cons x v : extent (x :: v) = sizeof_block + x.1 + extent v.
Proof. reflexivity. Qed.

Lemma coalesce_pass_cons2 s f s' f' v :
  coalesce_pass ((s, f) :: (s', f') :: v) =
  if f && f' then (s + s' + sizeof_block, true) :: coalesce_pass v
  else (s, f) :: coalesce_pass ((s', f') :: v).
Proof. reflexivity. Qed.

(* coalescing does not touch a live block *)
Lemma payloads_coalesce_pass : forall n v a, (length v <= n)%nat ->
  payloads a (coalesce_pass v) = payloads a v.
Proof.
  induction n as [|n IH]; intros v a Hn.
  - destruct v; [done|simpl in Hn; lia].
  - destruct v as [|[s f] [|[s' f'] v]]; [done|done|].
    rewrite coalesce_pass_cons2. simpl in Hn. destruct f, f'; cbn [andb payloads].
    + rewrite IH by lia. f_equal. lia.
    + by rewrite (IH ((s', false) :: v)) by (simpl; lia).
    + by rewrite (IH ((s', true) :: v)) by (simpl; lia).
    + by rewrite (IH ((s', false) :: v)) by (simpl; lia).
Qed.

(* an allocation of the list is a live block of the layout *)
Lemma payloads_split l : forall a A1 p s A2,
  payloads a (view l) = A1 ++ (p, s) :: A2 ->
  exists l1 b l2, l = l1 ++ b :: l2 /\ blk_free b = false /\ blk_size b = s /\
    p = a + extent (view l1) + sizeof_block /\
    A1 = payloads a (view l1) /\
    A2 = payloads (a + extent (view l1) + sizeof_block + s) (view l2).
Proof.
  induction l as [|x l IH]; intros a A1 p s A2 H.
  - by destruct A1.
  - rewrite view_cons in H. cbn [payloads] in H. destruct (blk_free x) eqn:Hf.
    + apply IH in H as (l1 & b & l2 & -> & Hb & Hs & -> & -> & ->).
      exists (x :: l1), b, l2. split; [done|]. split; [done|]. split; [done|].
      rewrite (view_cons x l1), extent_cons. cbn [payloads fst]. rewrite Hf.
      split; [lia|]. split; [done|]. f_equal. lia.
    + destruct A1 as [|q A1].
      * injection H as <- <- <-. exists [], x, l. split; [done|]. split; [done|].
        split; [done|]. simpl. split; [lia|]. split; [done|]. f_equal. lia.
      * injection H as <- H.
        apply IH in H as (l1 & b & l2 & -> & Hb & Hs & -> & -> & ->).
        exists (x :: l1), b, l2. split; [done|]. split; [done|]. split; [done|].
        rewrite (view_cons x l1), extent_cons. cbn [payloads fst]. rewrite Hf.
        split; [lia|]. split; [done|]. f_equal. lia.
Qed.

Lemma apart_weaken a a' e A : a <= a' -> apart a' e A -> apart a e A.
Proof.
  destruct A as [|[p s] A]; simpl; [lia|].
  intros Ha (H1 & H2 & H3). repeat split; [lia|done..].
Qed.

Lemma payloads_apart h e l : forall a m,
  seg h e a l m -> apart a m (payloads a (view l)).
Proof.
  induction l as [|b l IH]; intros a m Hseg.
  - simpl in *. lia.
  - destruct Hseg as (_ & Hs & _ & Hseg). specialize (IH _ _ Hseg).
    rewrite view_cons. cbn [payloads]. destruct (blk_free b).
    + eapply apart_weaken; [|exact IH]. unfold sizeof_block. lia.
    + cbn [apart]. split; [lia|]. split; [done|]. exact IH.
Qed.

(** ** The operations on the allocations *)

Lemma payloads_reuse a size b v :
  size <= blk_size b ->
  exists s, size <= s <= size + sizeof_block /\
    payloads a (reuse_view size b ++ v)
    = (a + sizeof_block, s) :: payloads (a + sizeof_block + blk_size b) v.
Proof.
  intros Hle. unfold reuse_view. destruct (Z.ltb_spec (size + sizeof_block) (blk_size b)).
  - exists size. split; [unfold sizeof_block in *; lia|]. cbn [app payloads].
    do 2 f_equal. lia.
  - exists (blk_size b). split; [lia|]. reflexivity.
Qed.

Lemma layout_extent c st l : layout c st l -> brk st = brk_lo c + extent (view l).
Proof. apply seg_extent. Qed.

(* a successful malloc adds one allocation, of the rounded size or up to
   one header more, and leaves the others as they are *)
Lemma malloc_allocations c size st A p st' :
  wf c st -> ALIGN4 size + sizeof_block < 2 ^ 63 -> allocations c st A ->
  malloc c size st = Done (p, st') -> p <> NULL ->
  exists A1 A2 s, A = A1 ++ A2 /\ allocations c st' (A1 ++ (p, s) :: A2) /\
    ALIGN4 size <= s <= ALIGN4 size + sizeof_block /\ wf c st' /\ brk st <= brk st'.
Proof.
  intros Hwf Hbound (l & Hl & ->) Hrun Hp.
  assert (Hnz : ALIGN4 size <> 0).
  { intros Hz. rewrite (malloc_zero c size st Hz) in Hrun. by injection Hrun as <- _. }
  pose proof (ALIGN4_range size) as Hrange.
  pose proof (wf_registered c st Hwf) as Hwfr.
  destruct (registered_fields st) as (Hc & Hh & Ha & Hb & Hby & Hbrk).
  destruct (malloc_paths c size st l Hwf Hl Hnz Hbound)
    as [(l1 & b & l2 & -> & Hfit & Hm)|[[Hm _]|[Hm Hok]]]; rewrite Hm in Hrun; [| done |].
  - injection Hrun as <- <-.
    destruct (reuse_layout c (registered st) l1 b l2 (ALIGN4 size) Hwfr
                (layout_registered c st _ Hl) ltac:(lia) Hfit) as (l' & Hl' & Hv & Hwf').
    pose proof Hfit as Hfit'. apply fits_spec in Hfit' as [Hfree Hle].
    destruct (payloads_reuse (brk_lo c + extent (view l1)) (ALIGN4 size) b (view l2) Hle)
      as (s & Hs & Hpay).
    exists (payloads (brk_lo c) (view l1)),
      (payloads (brk_lo c + extent (view l1) + sizeof_block + blk_size b) (view l2)), s.
    split.
    { rewrite view_app, payloads_app, view_cons. cbn [payloads]. by rewrite Hfree. }
    split.
    { exists l'. split; [done|]. rewrite Hv, payloads_app, Hpay. done. }
    split; [lia|]. split; [done|].
    unfold reused_state, finish_state, split_state. destruct (_ <? _); state_simpl; lia.
  - injection Hrun as <- <-.
    destruct (grow_layout c (registered st) l
                (last_addr (place (brk_lo c) l) (heapList st)) (ALIGN4 size) Hwfr
                (layout_registered c st _ Hl) ltac:(by rewrite Hh) ltac:(lia) Hbound
                ltac:(by rewrite Hbrk)) as (l' & Hl' & Hv & Hbrk'' & _).
    rewrite Hbrk in *.
    exists (payloads (brk_lo c) (view l)), [], (ALIGN4 size).
    split; [by rewrite app_nil_r|]. split.
    { exists l'. split; [done|]. rewrite Hv, payloads_app. cbn [payloads].
      by rewrite (layout_extent c st l Hl). }
    split; [unfold sizeof_block; lia|]. split; [|rewrite Hbrk''; unfold sizeof_block; lia].
    destruct (malloc_wf c size st Hwf Hbound) as [[Hab _]|(q & st2 & Hd & Hwf2 & _)];
      rewrite Hm in *; [done|]. by injection Hd as <- <-.
Qed.

(* free of an allocation removes it and leaves the others as they are *)
Lemma free_allocations c st A1 p s A2 :
  wf c st -> allocations c st (A1 ++ (p, s) :: A2) ->
  exists st', free p st = Done (tt, st') /\ wf c st' /\
    allocations c st' (A1 ++ A2) /\ heap_only st st'.
Proof.
  intros Hwf (l & Hl & HA). symmetry in HA.
  apply payloads_split in HA as (l1 & b & l2 & -> & Hlive & <- & -> & -> & ->).
  destruct (free_layout c st l1 b l2 Hwf Hl Hlive)
    as (st' & l' & Hrun & Hwf' & Hl' & Hv & _ & _ & Hho).
  exists st'. split; [done|]. split; [done|]. split; [|done].
  exists l'. split; [done|].
  rewrite Hv, (payloads_coalesce_pass _ _ _ (le_n _)), payloads_app. cbn [payloads].
  f_equal.
Qed.

Lemma allocations_apart c st A :
  allocations c st A -> apart (brk_lo c) (brk st) A.
Proof. intros (l & Hl & ->). by eapply payloads_apart. Qed.

Lemma wf_allocations c st : wf c st -> exists A, allocations c st A.
Proof.
  intros Hwf. destruct (wf_layout c st Hwf) as (l & Hl).
  by exists (payloads (brk_lo c) (view l)), l.
Qed.

Lemma apart_lower a e A : apart a e A -> Forall (fun qt => a + sizeof_block <= qt.1) A.
Proof.
  revert a. induction A as [|[q t] A IH]; intros a; [constructor|].
  intros (H1 & H2 & H3). constructor; [done|].
  eapply Forall_impl; [apply (IH _ H3)|]. intros [q' t'] Hq. simpl in *.
  unfold sizeof_block in *. lia.
Qed.

(* the allocations after one of them start behind its end *)
Lemma apart_after a e X p s Y :
  apart a e (X ++ (p, s) :: Y) -> Forall (fun qt => p + s + sizeof_block <= qt.1) Y.
Proof.
  revert a. induction X as [|[q t] X IH]; intros a.
  - intros (_ & _ & H). apply (apart_lower _ e) in H.
    eapply Forall_impl; [exact H|]. intros [q t] Hq. simpl in *. lia.
  - intros (_ & _ & H). by eapply IH.
Qed.

Lemma apart_first a e X p s Y :
  apart a e (X ++ (p, s) :: Y) -> a + sizeof_block <= p /\ 0 <= s /\ p + s <= e.
Proof.
  revert a. induction X as [|[q t] X IH]; intros a.
  - intros (H1 & H2 & H3). split; [done|]. split; [done|].
    clear H1. revert H3. generalize (p + s). clear.
    induction Y as [|[q t] Y IH]; intros z; simpl; [done|].
    intros (H1 & H2 & H3). apply IH in H3. unfold sizeof_block in *. lia.
  - intros (H1 & H2 & H3). apply IH in H3. unfold sizeof_block in *. lia.
Qed.

(* an allocation is the payload of a live header *)
Lemma allocation_header c st X p s Y :
  wf c st -> allocations c st (X ++ (p, s) :: Y) ->
  exists b, blocks st !! BLOCK_HEADER p = Some b /\ blk_size b = s /\
    blk_free b = false /\ p <> NULL /\ BLOCK_DATA (BLOCK_HEADER p) = p.
Proof.
  intros Hwf (l & Hl & HA). symmetry in HA.
  apply payloads_split in HA as (l1 & b & l2 & -> & Hlive & Hs & -> & _).
  destruct (layout_block c st l1 b l2 Hwf Hl) as (Hb & _ & _ & _ & Hd & Hh & Hn).
  exists b. rewrite Hh. done.
Qed.

Lemma app_cons_eq_inv {A} (A1 : list A) x A2 C1 C2 :
  A1 ++ x :: A2 = C1 ++ C2 ->
  (exists M, C1 = A1 ++ x :: M /\ A2 = M ++ C2) \/
  (exists M, C2 = M ++ x :: A2 /\ A1 = C1 ++ M).
Proof.
  intros H. apply app_eq_inv in H as [(k & -> & ->)|(k & -> & H)].
  - right. by exists k.
  - destruct k as [|y k]; simpl in H.
    + right. exists []. subst C2. by rewrite !app_nil_r.
    + injection H as <- ->. left. by exists k.
Qed.

Lemma apart_other a e B1 q t B2 r u :
  apart a e (B1 ++ (q, t) :: B2) -> (r, u) ∈ B1 ++ B2 ->
  r + u + sizeof_block <= q \/ q + t + sizeof_block <= r.
Proof.
  intros Hap Hin. apply elem_of_app in Hin as [Hin|Hin].
  - left. apply list_elem_of_split in Hin as (X & Y & ->).
    rewrite <- app_assoc in Hap. cbn [app] in Hap.
    pose proof (apart_after _ _ _ _ _ _ Hap) as Hlt.
    apply Forall_app in Hlt as [_ Hlt]. by apply Forall_cons in Hlt as [Hlt _].
  - right. pose proof (apart_after _ _ _ _ _ _ Hap) as Hlt.
    by apply (proj1 (Forall_forall _ _) Hlt (r, u)).
Qed.

Lemma memcpy_outside dst src n m a : a < dst \/ dst + n <= a -> memcpy dst src n m a = m a.
Proof.
  intros Ha. unfold memcpy.
  destruct (Z.leb_spec dst a), (Z.ltb_spec a (dst + n)); simpl; (done || lia).
Qed.

(* realloc of an allocation to a size that does not round to zero: a new
   allocation takes the content, the old one is gone, the others stay *)
Lemma realloc_allocations c ptr size st A1 s A2 :
  wf c st -> allocations c st (A1 ++ (ptr, s) :: A2) ->
  0 <= size < 2 ^ 64 -> ALIGN4 size <> 0 -> ALIGN4 size + sizeof_block < 2 ^ 63 ->
  (realloc c ptr size st = Abort /\ brk_hi c < brk st + sizeof_block + ALIGN4 size) \/
  exists q st' t B1 B2,
    realloc c ptr size st = Done (q, st') /\ wf c st' /\ q <> NULL /\ q <> ptr /\
    A1 ++ A2 = B1 ++ B2 /\ allocations c st' (B1 ++ (q, t) :: B2) /\
    ALIGN4 size <= t <= ALIGN4 size + sizeof_block /\ size <= ALIGN4 size /\
    (forall i, 0 <= i < Z.min s size -> bytes st' (q + i) = bytes st (ptr + i)) /\
    (forall r u i, (r, u) ∈ A1 ++ A2 -> 0 <= i < u ->
       bytes st' (r + i) = bytes st (r + i)).
Proof.
  intros Hwf HA Hsize Hnz Hbound.
  destruct (allocation_header c st _ _ _ _ Hwf HA) as (b0 & _ & _ & _ & Hp & _).
  assert (Hs0 : size <> 0) by (intros ->; by apply Hnz).
  destruct (malloc_wf c size st Hwf Hbound) as [(Hab & _ & Hden)|(q & st1 & Hm & Hwf1 & Hq)].
  { left. split; [|done]. unfold realloc. destruct (Z.eqb_spec ptr NULL) as [|_]; [done|].
    destruct (Z.eqb_spec size 0) as [|_]; [done|]. munfold. by rewrite Hab. }
  right.
  assert (Hqn : q <> NULL) by (rewrite Hq; done).
  destruct (malloc_allocations c size st _ q st1 Hwf Hbound HA Hm Hqn)
    as (C1 & C2 & t & HC & HA1 & Ht & _ & _).
  assert (Hpos : exists L1 L2 B1 B2,
    C1 ++ (q, t) :: C2 = L1 ++ (ptr, s) :: L2 /\ L1 ++ L2 = B1 ++ (q, t) :: B2 /\
    A1 ++ A2 = B1 ++ B2 /\ q <> ptr).
  { pose proof (allocations_apart c st1 _ HA1) as Hap.
    apply app_cons_eq_inv in HC as [(M & -> & ->)|(M & -> & ->)].
    - exists A1, (M ++ (q, t) :: C2), (A1 ++ M), C2.
      rewrite <- !app_assoc. split; [done|]. split; [done|]. split; [done|].
      rewrite <- app_assoc in Hap. cbn [app] in Hap.
      pose proof (apart_after _ _ _ _ _ _ Hap) as Hlt.
      apply Forall_app in Hlt as [_ Hlt]. apply Forall_cons in Hlt as [Hlt _].
      destruct (apart_first _ _ _ _ _ _ Hap) as (_ & Hs & _).
      simpl in Hlt. unfold sizeof_block in *. lia.
    - exists (C1 ++ (q, t) :: M), A2, C1, (M ++ A2).
      rewrite <- !app_assoc. split; [done|]. split; [done|]. split; [done|].
      pose proof (apart_after _ _ _ _ _ _ Hap) as Hlt.
      apply Forall_app in Hlt as [_ Hlt]. apply Forall_cons in Hlt as [Hlt _].
      destruct (apart_first _ _ _ _ _ _ Hap) as (_ & Hs & _).
      simpl in Hlt. unfold sizeof_block in *. lia. }
  destruct Hpos as (L1 & L2 & B1 & B2 & HL & HB & HAB & Hne).
  rewrite HL in HA1.
  destruct (allocation_header c st1 _ _ _ _ Hwf1 HA1) as (ob & Hob & Hsz & _).
  destruct (free_allocations c
              (set_bytes (memcpy q ptr (Z.min (blk_size ob) size)) st1) L1 ptr s L2)
    as (st' & Hfree & Hwf' & HA' & _); [by apply wf_set_bytes|done|].
  destruct (realloc_copy c ptr size st q st1 ob st' Hp Hs0 Hm Hqn Hob Hfree) as [Hr Hcopy].
  assert (Hle : size <= ALIGN4 size).
  { destruct (ALIGN4_zero size Hsize) as [_ Hz].
    apply (ALIGN4_small size). split; [|apply Z.nlt_ge; intros ?; apply Hnz, Hz; lia].
    apply Z.nlt_ge. intros ?. apply Hnz, Hz. lia. }
  exists q, st', t, B1, B2. split; [done|]. split; [done|]. split; [done|].
  split; [done|]. split; [done|]. rewrite <- HB. split; [done|]. split; [done|]. split; [done|].
  split; [by rewrite <- Hsz|].
  intros r u i Hin Hi.
  rewrite (free_bytes _ _ _ Hfree). state_simpl.
  rewrite memcpy_outside; [by rewrite (malloc_bytes _ _ _ _ _ Hm)|].
  rewrite HAB in Hin.
  pose proof (allocations_apart c st' _ HA') as Hap. rewrite HB in Hap.
  destruct (apart_other _ _ _ _ _ _ _ _ Hap Hin) as [H1|H1];
    unfold sizeof_block in *; lia.
Qed.

(** ** When one pass is enough *)

Lemma adjacent_free_view_cons2 s f s' f' v :
  adjacent_free_view ((s, f) :: (s', f') :: v) <->
  (f = true /\ f' = true) \/ adjacent_free_view ((s', f') :: v).
Proof. reflexivity. Qed.

Lemma adjacent_free_view_tail x v : ~ adjacent_free_view (x :: v) -> ~ adjacent_free_view v.
Proof.
  destruct x as [s f]. destruct v as [|[s' f'] v]; [done|].
  rewrite adjacent_free_view_cons2. tauto.
Qed.

(* a view without free neighbours is left as it is *)
Lemma coalesce_pass_tidy v : ~ adjacent_free_view v -> coalesce_pass v = v.
Proof.
  induction v as [|[s f] v IH]; [done|]. intros H.
  destruct v as [|[s' f'] v]; [done|].
  rewrite coalesce_pass_cons2.
  rewrite adjacent_free_view_cons2 in H.
  destruct f, f'; cbn [andb]; try (rewrite IH; [done|tauto]).
  exfalso. apply H. by left.
Qed.

Lemma head_coalesce_pass v : (snd <$> head (coalesce_pass v)) = (snd <$> head v).
Proof.
  destruct v as [|[s f] [|[s' f'] v]]; [done|done|].
  rewrite coalesce_pass_cons2. by destruct f, f'.
Qed.

Lemma adjacent_free_view_cons s f v :
  adjacent_free_view ((s, f) :: v) <->
  (f = true /\ (snd <$> head v) = Some true) \/ adjacent_free_view v.
Proof.
  destruct v as [|[s' f'] v].
  - simpl. split; [done|]. intros [[_ H]|H]; done.
  - rewrite adjacent_free_view_cons2. cbn [head fmap option_fmap option_map snd].
    split; intros [[H1 H2]|H].
    + left. by rewrite H2.
    + by right.
    + left. split; [done|]. by injection H2.
    + by right.
Qed.

(* free of a block in a view without free neighbours: a pair of free
   neighbours is left exactly when both neighbours of the block are free *)
Lemma coalesce_pass_marked v1 s v2 :
  ~ adjacent_free_view (v1 ++ (s, false) :: v2) ->
  adjacent_free_view (coalesce_pass (v1 ++ (s, true) :: v2)) <->
  (snd <$> last v1) = Some true /\ (snd <$> head v2) = Some true.
Proof.
  revert s v2. induction v1 as [|[s0 f0] v1 IH]; intros s v2 H.
  - cbn [app last fmap option_fmap option_map] in *.
    split; [|intros [? _]; done]. intros Hadj. exfalso.
    pose proof (adjacent_free_view_tail _ _ H) as H2.
    destruct v2 as [|[s2 f2] v3]; [done|].
    rewrite coalesce_pass_cons2 in Hadj. destruct f2; cbn [andb] in Hadj.
    + pose proof (adjacent_free_view_tail _ _ H2) as H3.
      rewrite (coalesce_pass_tidy v3 H3) in Hadj.
      apply adjacent_free_view_cons in Hadj as [[_ Hh]|Hadj]; [|done].
      apply H2. apply adjacent_free_view_cons. by left.
    + rewrite (coalesce_pass_tidy _ H2) in Hadj.
      apply adjacent_free_view_cons2 in Hadj as [[_ ?]|Hadj]; done.
  - cbn [app] in *.
    pose proof (adjacent_free_view_tail _ _ H) as H1.
    specialize (IH s v2 H1).
    destruct v1 as [|[s1 f1] v1].
    + cbn [app last fmap option_fmap option_map snd] in *.
      rewrite coalesce_pass_cons2. destruct f0; cbn [andb].
      * pose proof (adjacent_free_view_tail _ _ H1) as H2.
        rewrite (coalesce_pass_tidy v2 H2).
        rewrite adjacent_free_view_cons. split; [|tauto].
        intros [[_ Hh]|Hadj]; [done|]. by destruct (H2 Hadj).
      * rewrite adjacent_free_view_cons. split.
        -- intros [[? _]|Hadj]; [done|]. apply IH in Hadj as [? _]. done.
        -- intros [? _]. done.
    + cbn [app] in *. rewrite coalesce_pass_cons2.
      assert (Hff : f0 && f1 = false).
      { destruct f0, f1; try done. exfalso. apply H.
        apply adjacent_free_view_cons2. by left. }
      rewrite Hff. rewrite adjacent_free_view_cons, head_coalesce_pass.
      cbn [head fmap option_fmap option_map snd].
      change (last ((s0, f0) :: (s1, f1) :: v1)) with (last ((s1, f1) :: v1)).
      rewrite <- IH. split; [|tauto].
      intros [[-> Hf1]|Hadj]; [|done]. injection Hf1 as ->. done.
Qed.

Lemma last_view_free l :
  (snd <$> last (view l)) = Some true <-> exists b, last l = Some b /\ blk_free b = true.
Proof.
  unfold view. rewrite fmap_last. destruct (last l) as [b|]; simpl.
  - split; [intros [= H]; by exists b|]. intros (b' & [= <-] & H). by rewrite H.
  - split; [done|]. by intros (b' & ? & _).
Qed.

Lemma head_view_free l :
  (snd <$> head (view l)) = Some true <-> exists b, head l = Some b /\ blk_free b = true.
Proof.
  destruct l as [|b l]; simpl.
  - split; [done|]. by intros (b' & ? & _).
  - split; [intros [= H]; by exists b|]. intros (b' & [= <-] & H). by rewrite H.
Qed.

(** ** Invariants of sequences of calls *)

Lemma to_int_add_l a b : to_int (to_int a + b) = to_int (a + b).
Proof.
  unfold to_int. change (2 ^ 31) with 2147483648. change (2 ^ 32) with 4294967296.
  Z.div_mod_to_equations. lia.
Qed.

Lemma to_int_add_r a b : to_int (a + to_int b) = to_int (a + b).
Proof. rewrite (Z.add_comm a), to_int_add_l. f_equal. lia. Qed.

Lemma to_int_cong a b k : to_int a = to_int b -> to_int (a + k) = to_int (b + k).
Proof. intros H. by rewrite <- to_int_add_l, H, to_int_add_l. Qed.

Lemma to_int_mul_r a b : to_int (a + sizeof_block * to_int b) = to_int (a + sizeof_block * b).
Proof.
  unfold to_int, sizeof_block.
  change (2 ^ 31) with 2147483648. change (2 ^ 32) with 4294967296.
  Z.div_mod_to_equations. lia.
Qed.

Lemma stats_ok_init c : stats_ok c (init_state c).
Proof. unfold stats_ok. simpl. rewrite Z.sub_diag. done. Qed.

Lemma stats_ok_ext c st st' :
  counters st' = counters st -> brk st' = brk st -> stats_ok c st -> stats_ok c st'.
Proof. unfold stats_ok. by intros -> ->. Qed.

Lemma stats_ok_reuse c st st' size (split : bool) :
  counters st' = count_malloc size (incr_reuses
    (if split then incr_splits (counters st) else counters st)) ->
  brk st' = brk st -> stats_ok c st -> stats_ok c st'.
Proof.
  unfold stats_ok. intros -> -> (H1 & H2 & H3).
  destruct split;
    cbn [count_malloc incr_reuses incr_splits num_blocks num_grows num_mallocs
         num_reuses max_heap];
    (split; [done|]; split; [|done]);
    by rewrite H2, !to_int_add_l, (Z.add_comm _ 1), Z.add_assoc, (Z.add_comm 1).
Qed.

Lemma stats_ok_grow c st st' size :
  counters st' = count_malloc size (count_grow size (counters st)) ->
  brk st' = brk st + sizeof_block + size -> stats_ok c st -> stats_ok c st'.
Proof.
  unfold stats_ok. intros -> -> (H1 & H2 & H3).
  cbn [count_malloc count_grow num_blocks num_grows num_mallocs num_reuses max_heap].
  split; [by rewrite H1|]. split.
  - rewrite H2, to_int_add_l, to_int_add_r. f_equal. lia.
  - rewrite int_add_size, to_int_mul_r, to_int_add_l.
    replace (brk st + sizeof_block + size - brk_lo c)
      with (brk st - brk_lo c + (sizeof_block + size)) by lia.
    rewrite (to_int_cong _ _ _ H3). f_equal. lia.
Qed.

Lemma counters_reused_state size next b st :
  counters (reused_state size next b st) =
  count_malloc size (incr_reuses
    (if to_size_t (size + sizeof_block) <? blk_size b
     then incr_splits (counters st) else counters st)) /\
  brk (reused_state size next b st) = brk st.
Proof. unfold reused_state, finish_state, split_state. by destruct (_ <? _). Qed.

Lemma counters_grown_state last size x st :
  counters (finish_state size x (grown_state last size st))
    = count_malloc size (count_grow size (counters st)).
Proof.
  unfold finish_state. state_simpl.
  by rewrite (proj1 (grown_state_fields last size st)).
Qed.

(* a successful malloc counts one reuse (and at most one split) or one grow *)
Lemma malloc_counters c size st p st' :
  wf c st -> ALIGN4 size + sizeof_block < 2 ^ 63 ->
  malloc c size st = Done (p, st') -> p <> NULL ->
  (brk st' = brk st /\
   exists split : bool,
     counters st' = count_malloc (ALIGN4 size) (incr_reuses
       (if split then incr_splits (counters st) else counters st))) \/
  (brk st' = brk st + sizeof_block + ALIGN4 size /\
   counters st' = count_malloc (ALIGN4 size) (count_grow (ALIGN4 size) (counters st))).
Proof.
  intros Hwf Hbound Hrun Hp.
  assert (Hnz : ALIGN4 size <> 0).
  { intros Hz. rewrite (malloc_zero c size st Hz) in Hrun. by injection Hrun as <- _. }
  pose proof (ALIGN4_range size) as Hrange.
  pose proof (wf_registered c st Hwf) as Hwfr.
  destruct (registered_fields st) as (Hc & Hh & Ha & Hb & Hby & Hbrk).
  destruct (wf_layout c st Hwf) as (l & Hl).
  destruct (malloc_paths c size st l Hwf Hl Hnz Hbound)
    as [(l1 & b & l2 & -> & Hfit & Hm)|[[Hm _]|[Hm Hok]]]; rewrite Hm in Hrun; [| done |].
  - injection Hrun as <- <-. left.
    destruct (counters_reused_state (ALIGN4 size) (brk_lo c + extent (view l1)) b
                (registered st)) as [-> ->].
    split; [done|]. rewrite Hc. by eexists.
  - injection Hrun as <- <-. right.
    rewrite counters_grown_state, Hc. split; [|done].
    destruct (grow_layout c (registered st) l
                (last_addr (place (brk_lo c) l) (heapList st)) (ALIGN4 size) Hwfr
                (layout_registered c st _ Hl) ltac:(by rewrite Hh) ltac:(lia) Hbound
                ltac:(by rewrite Hbrk)) as (l' & _ & _ & Hbrk'' & _).
    by rewrite Hbrk in Hbrk''.
Qed.

Lemma malloc_stats c size st p st' :
  wf c st -> ALIGN4 size + sizeof_block < 2 ^ 63 -> stats_ok c st ->
  malloc c size st = Done (p, st') -> stats_ok c st'.
Proof.
  intros Hwf Hbound Hs Hrun. destruct (Z.eqb_spec p NULL) as [->|Hp].
  - destruct (malloc_result_cases c size st _ _ Hwf Hrun) as [(_ & _ & ->)|(? & _)]; [|done].
    destruct (registered_fields st) as (Hc & _ & _ & _ & _ & Hbrk).
    by eapply stats_ok_ext.
  - destruct (malloc_counters c size st p st' Hwf Hbound Hrun Hp)
      as [(Hb & split & Hc)|(Hb & Hc)].
    + by eapply stats_ok_reuse.
    + by eapply stats_ok_grow.
Qed.

Lemma iter_incr_coalesces_fields k s :
  num_blocks (Nat.iter k incr_coalesces s) = num_blocks s /\
  num_grows (Nat.iter k incr_coalesces s) = num_grows s /\
  num_mallocs (Nat.iter k incr_coalesces s) = num_mallocs s /\
  num_reuses (Nat.iter k incr_coalesces s) = num_reuses s /\
  max_heap (Nat.iter k incr_coalesces s) = max_heap s.
Proof. induction k as [|k IH]; [done|]. simpl. apply IH. Qed.

Lemma free_stats c ptr st st' :
  stats_ok c st -> free ptr st = Done (tt, st') -> stats_ok c st'.
Proof.
  intros Hs Hrun. destruct (Z.eqb_spec ptr NULL) as [->|Hp].
  { cbv in Hrun. by injection Hrun as <-. }
  destruct (free_done ptr st st' Hp Hrun)
    as (b & st2 & _ & _ & ((_ & _ & _ & _ & Hbrk) & _ & _ & k & Hk) & ->).
  revert Hs. unfold stats_ok. state_simpl. rewrite Hk, Hbrk.
  destruct (iter_incr_coalesces_fields k (counters st)) as (H1 & H2 & H3 & H4 & H5).
  cbn [incr_frees num_blocks num_grows num_mallocs num_reuses max_heap].
  by rewrite H1, H2, H3, H4, H5.
Qed.

Lemma calloc_done c nmemb size st p st' :
  calloc c nmemb size st = Done (p, st') ->
  exists st1, malloc c (to_size_t (nmemb * size)) st = Done (p, st1) /\
    ((p = NULL /\ st' = st1) \/
     (p <> NULL /\ st' = set_bytes (memset p 0 (to_size_t (nmemb * size))) st1)).
Proof.
  unfold calloc. cbv zeta. munfold.
  destruct (malloc c _ st) as [[q st1]| | |]; [|done..].
  destruct (Z.eqb_spec q NULL) as [->|Hq]; cbn [negb]; intros [= <- <-]; eauto.
Qed.

(* the paths of realloc that return *)
Lemma realloc_done c ptr size st p st' :
  realloc c ptr size st = Done (p, st') ->
  (ptr = NULL /\ malloc c size st = Done (p, st')) \/
  (ptr <> NULL /\ size = 0 /\ p = NULL /\ free ptr st = Done (tt, st')) \/
  (ptr <> NULL /\ size <> 0 /\
   exists st1, malloc c size st = Done (p, st1) /\
     ((p = NULL /\ st' = st1) \/
      (p <> NULL /\ exists ob, blocks st1 !! BLOCK_HEADER ptr = Some ob /\
         free ptr (set_bytes (memcpy p ptr (Z.min (blk_size ob) size)) st1)
           = Done (tt, st')))).
Proof.
  unfold realloc. destruct (Z.eqb_spec ptr NULL) as [|Hp]; [by left|].
  destruct (Z.eqb_spec size 0) as [|Hs].
  { munfold. destruct (free ptr st) as [[[] st1]| | |]; [|done..].
    intros [= <- <-]. by right; left. }
  munfold. destruct (malloc c size st) as [[q st1]| | |]; [|done..].
  destruct (Z.eqb_spec q NULL) as [->|Hq]; cbn [negb].
  { intros [= <- <-]. right. right. split; [done|]. split; [done|].
    exists st1. split; [done|]. by left. }
  unfold load. destruct (blocks st1 !! BLOCK_HEADER ptr) as [ob|] eqn:Hob; [|done].
  rewrite min_ltb.
  match goal with |- context [free ptr ?s] =>
    destruct (free ptr s) as [[[] st2]| | |] eqn:Hfree; [|done..] end.
  intros [= <- <-]. right. right. split; [done|]. split; [done|].
  exists st1. split; [done|]. right. split; [done|]. by exists ob.
Qed.

Lemma perform_wf c k st r st' :
  wf c st -> request k + sizeof_block < 2 ^ 63 ->
  perform c k st = Done (r, st') -> wf c st'.
Proof.
  intros Hwf Hb. destruct k as [size|ptr|nmemb size|ptr size]; cbn [perform request] in *.
  - intros Hrun.
    destruct (malloc_wf c size st Hwf Hb) as [[Hab _]|(q & st1 & Hd & Hwf1 & _)];
      rewrite Hrun in *; [done|]. by injection Hd as <- <-.
  - munfold. destruct (free ptr st) as [[[] st1]| | |] eqn:Hfree; [|done..].
    intros [= <- <-]. by eapply free_wf.
  - intros Hrun. destruct (calloc_wf c nmemb size st Hwf Hb) as [Hab|(q & st1 & Hd & Hwf1)];
      rewrite Hrun in *; [done|]. by injection Hd as <- <-.
  - by apply realloc_wf.
Qed.

Lemma perform_stats c k st r st' :
  wf c st -> request k + sizeof_block < 2 ^ 63 -> stats_ok c st ->
  perform c k st = Done (r, st') -> stats_ok c st'.
Proof.
  intros Hwf Hb Hs. destruct k as [size|ptr|nmemb size|ptr size]; cbn [perform request] in *.
  - by apply malloc_stats.
  - munfold. destruct (free ptr st) as [[[] st1]| | |] eqn:Hfree; [|done..].
    intros [= <- <-]. by eapply free_stats.
  - intros Hrun. apply calloc_done in Hrun as (st1 & Hm & Hst).
    pose proof (malloc_stats c _ st r st1 Hwf Hb Hs Hm) as Hs1.
    by destruct Hst as [[_ ->]|[_ ->]].
  - intros Hrun.
    apply realloc_done in Hrun
      as [[_ Hm]|[(_ & _ & _ & Hf)|(_ & _ & st1 & Hm & Hst)]].
    + by eapply malloc_stats.
    + by eapply free_stats.
    + pose proof (malloc_stats c _ st r st1 Hwf Hb Hs Hm) as Hs1.
      destruct Hst as [[_ ->]|(_ & ob & _ & Hf)]; [done|].
      eapply free_stats; [|exact Hf]. exact Hs1.
Qed.

(* a property that the initial state has and every call keeps on a
   well-formed heap holds after every sequence of calls that returns *)
Lemma run_calls_ind c (P : state -> Prop) :
  (forall k st r st', wf c st -> P st -> request k + sizeof_block < 2 ^ 63 ->
     perform c k st = Done (r, st') -> P st') ->
  forall ks st st',
    wf c st -> P st -> Forall (fun k => request k + sizeof_block < 2 ^ 63) ks ->
    run_calls c ks st = Done (tt, st') -> wf c st' /\ P st'.
Proof.
  intros Hstep. induction ks as [|k ks IH]; intros st st' Hwf HP Hks.
  - by intros [= <-].
  - apply Forall_cons in Hks as [Hk Hks]. cbn [run_calls]. munfold.
    destruct (perform c k st) as [[r st1]| | |] eqn:Hrun; [|done..].
    apply IH; [by eapply perform_wf|by eapply Hstep|done].
Qed.

(* the break after a call that returns: malloc leaves it or raises it *)
Lemma malloc_brk c size st p st' :
  wf c st -> ALIGN4 size + sizeof_block < 2 ^ 63 ->
  malloc c size st = Done (p, st') -> brk st <= brk st'.
Proof.
  intros Hwf Hb Hrun. destruct (Z.eq_dec p NULL) as [->|Hp].
  - destruct (malloc_wf c size st Hwf Hb) as [[Hab _]|(q & st1 & Hd & _ & Hz)];
      rewrite Hrun in *; [done|]. injection Hd as <- <-.
    rewrite (malloc_zero c size st (proj1 Hz eq_refl)) in Hrun. injection Hrun as <-.
    destruct (registered_fields st) as (_ & _ & _ & _ & _ & ->). lia.
  - destruct (wf_allocations c st Hwf) as (A & HA).
    by destruct (malloc_allocations c size st A p st' Hwf Hb HA Hrun Hp)
      as (_ & _ & _ & _ & _ & _ & _ & Hle).
Qed.

(* free leaves it where it is *)
Lemma free_brk ptr st st' : free ptr st = Done (tt, st') -> brk st' = brk st.
Proof.
  intros Hrun. destruct (Z.eq_dec ptr NULL) as [->|Hp].
  { cbv in Hrun. by injection Hrun as <-. }
  apply free_done in Hrun as (b & st2 & _ & _ & ((_ & _ & _ & _ & Hbrk) & _) & ->); [|done].
  revert Hbrk. state_simpl. done.
Qed.

Lemma perform_brk c k st r st' :
  wf c st -> request k + sizeof_block < 2 ^ 63 ->
  perform c k st = Done (r, st') -> brk st <= brk st'.
Proof.
  intros Hwf Hb. destruct k as [size|ptr|nmemb size|ptr size]; cbn [perform request] in *.
  - by apply malloc_brk.
  - munfold. destruct (free ptr st) as [[[] st1]| | |] eqn:Hfree; [|done..].
    intros [= <- <-]. rewrite (free_brk _ _ _ Hfree). lia.
  - intros Hrun. apply calloc_done in Hrun as (st1 & Hm & Hst).
    pose proof (malloc_brk c _ st r st1 Hwf Hb Hm) as Hle.
    by destruct Hst as [[_ ->]|[_ ->]].
  - intros Hrun.
    apply realloc_done in Hrun
      as [[_ Hm]|[(_ & _ & _ & Hf)|(_ & _ & st1 & Hm & Hst)]].
    + by eapply malloc_brk.
    + rewrite (free_brk _ _ _ Hf). lia.
    + pose proof (malloc_brk c _ st r st1 Hwf Hb Hm) as Hle.
      destruct Hst as [[_ ->]|(_ & ob & _ & Hf)]; [done|].
      rewrite (free_brk _ _ _ Hf). revert Hle. state_simpl. done.
Qed.

(** ** Alignment *)

Lemma mod4_size_t z : z mod 4 = 0 -> to_size_t z mod 4 = 0.
Proof.
  unfold to_size_t. change (2 ^ 64) with 18446744073709551616.
  intros H. Z.div_mod_to_equations. lia.
Qed.

Lemma mod4_split b size :
  b mod 4 = 0 -> size mod 4 = 0 ->
  to_size_t (to_size_t (b - size) - sizeof_block) mod 4 = 0.
Proof.
  intros Hb Hs. apply mod4_size_t.
  assert (H : to_size_t (b - size) mod 4 = 0).
  { apply mod4_size_t. Z.div_mod_to_equations. lia. }
  unfold sizeof_block. Z.div_mod_to_equations. lia.
Qed.

Lemma mod4_merge t n :
  t mod 4 = 0 -> n mod 4 = 0 ->
  to_size_t (t + to_size_t (n + sizeof_block)) mod 4 = 0.
Proof.
  intros Ht Hn. apply mod4_size_t.
  assert (H : to_size_t (n + sizeof_block) mod 4 = 0).
  { apply mod4_size_t. unfold sizeof_block. Z.div_mod_to_equations. lia. }
  Z.div_mod_to_equations. lia.
Qed.

Lemma aligned_upd a f h :
  aligned_headers h ->
  (forall b, blk_size b mod 4 = 0 -> blk_size (f b) mod 4 = 0) ->
  aligned_headers (upd a f h).
Proof.
  intros Hh Hf x b. destruct (decide (x = a)) as [->|Hne].
  - rewrite upd_lookup_eq. intros [= <-]. apply Hf.
    destruct (h !! a) as [b0|] eqn:Hb0; simpl; [by eapply Hh|done].
  - rewrite upd_lookup_ne by done. apply Hh.
Qed.

Lemma aligned_default h a : aligned_headers h -> blk_size (default blank (h !! a)) mod 4 = 0.
Proof. intros Hh. destruct (h !! a) as [b|] eqn:Hb; simpl; [by eapply Hh|done]. Qed.

Local Ltac aligned_stores :=
  repeat first
    [ assumption
    | apply aligned_upd; [|intros ? ?; cbn [blk_size set_size set_next set_free]; try done] ].

Lemma aligned_split size next h :
  aligned_headers h -> size mod 4 = 0 -> aligned_headers (split_blocks size next h).
Proof.
  intros Hh Hs. unfold split_blocks. cbv zeta. aligned_stores.
  apply mod4_split; [by apply aligned_default|done].
Qed.

Lemma aligned_grown last size st :
  sizes_aligned st -> size mod 4 = 0 -> sizes_aligned (grown_state last size st).
Proof.
  intros Hh Hs. unfold sizes_aligned, grown_state in *. cbv zeta.
  destruct (heapList _ =? NULL), (negb (last =? NULL)); state_simpl; aligned_stores.
Qed.

Lemma malloc_aligned c size st p st' :
  sizes_aligned st -> malloc c size st = Done (p, st') -> sizes_aligned st'.
Proof.
  intros Hh. pose proof (ALIGN4_mod4 size) as Hs.
  rewrite malloc_eq. cbv zeta.
  destruct (ALIGN4 size =? 0).
  { intros [= <- <-]. unfold sizes_aligned.
    by rewrite (proj1 (proj2 (proj2 (proj2 (registered_fields st))))). }
  destruct (findFreeBlock _ _ _ _) as [[[next last] st1]| | |] eqn:Hfind; [|done..].
  destruct (findFreeBlock_frame _ _ _ _ _ _ Hfind) as (_ & _ & _ & Hbl & _).
  rewrite (proj1 (proj2 (proj2 (proj2 (registered_fields st))))) in Hbl.
  assert (Hh1 : sizes_aligned st1) by (unfold sizes_aligned; by rewrite Hbl).
  destruct (next =? NULL).
  - rewrite growHeap_eq. cbv zeta.
    pose proof (aligned_grown last (ALIGN4 size) st1 Hh1 Hs) as Hg.
    repeat match goal with
    | |- context [if ?b then _ else _] => destruct b
    end; intros [= <- <-]; try done;
      unfold sizes_aligned, finish_state in *; state_simpl; aligned_stores.
  - destruct (blocks st1 !! next) as [b|]; [|done].
    intros [= <- <-]. unfold sizes_aligned, finish_state, split_state in *.
    destruct (_ <? _); state_simpl; (apply aligned_upd; [|done]);
      [by apply aligned_split|done].
Qed.

Lemma coalesce_loop_aligned : forall fuel temp st st',
  sizes_aligned st -> coalesce_loop fuel temp st = Done (tt, st') -> sizes_aligned st'.
Proof.
  induction fuel as [|fuel IH]; intros temp st st' Hh; cbn [coalesce_loop]; [done|].
  destruct (temp =? NULL); [by intros [= <-]|].
  munfold. unfold load.
  destruct (blocks st !! temp) as [t|] eqn:Ht; [|done].
  destruct (blk_free t && negb (blk_next t =? NULL)).
  2: { rewrite Ht. by apply IH. }
  destruct (blocks st !! blk_next t) as [n|] eqn:Hn; [|done].
  destruct (blk_free n).
  2: { rewrite Ht. by apply IH. }
  rewrite Ht, Hn.
  repeat (state_simpl; match goal with
  | |- context [match ?h !! ?a with Some _ => _ | None => _ end] =>
      destruct (h !! a); [|done]
  end).
  apply IH. unfold sizes_aligned in *. state_simpl. aligned_stores.
  apply mod4_merge; by eapply Hh.
Qed.

Lemma free_aligned ptr st st' :
  sizes_aligned st -> free ptr st = Done (tt, st') -> sizes_aligned st'.
Proof.
  intros Hh. unfold free. destruct (ptr =? NULL); [by intros [= <-]|].
  munfold. unfold load. destruct (blocks st !! BLOCK_HEADER ptr) as [b|]; [|done].
  destruct (blk_free b); [done|]. cbn [negb].
  match goal with |- context [coalesce_loop ?f ?t ?s] =>
    destruct (coalesce_loop f t s) as [[[] st2]| | |] eqn:Hloop; [|done..] end.
  intros [= <-]. apply coalesce_loop_aligned in Hloop; [done|].
  unfold sizes_aligned in *. state_simpl. aligned_stores.
Qed.

Lemma perform_aligned c k st r st' :
  sizes_aligned st -> perform c k st = Done (r, st') -> sizes_aligned st'.
Proof.
  intros Hh. destruct k as [size|ptr|nmemb size|ptr size]; cbn [perform].
  - by apply malloc_aligned.
  - munfold. destruct (free ptr st) as [[[] st1]| | |] eqn:Hfree; [|done..].
    intros [= <- <-]. by eapply free_aligned.
  - intros Hrun. apply calloc_done in Hrun as (st1 & Hm & Hst).
    pose proof (malloc_aligned c _ st r st1 Hh Hm) as Hs1.
    by destruct Hst as [[_ ->]|[_ ->]].
  - intros Hrun.
    apply realloc_done in Hrun
      as [[_ Hm]|[(_ & _ & _ & Hf)|(_ & _ & st1 & Hm & Hst)]].
    + by eapply malloc_aligned.
    + by eapply free_aligned.
    + pose proof (malloc_aligned c _ st r st1 Hh Hm) as Hs1.
      destruct Hst as [[_ ->]|(_ & ob & _ & Hf)]; [done|].
      eapply free_aligned; [|exact Hf]. exact Hs1.
Qed.

Lemma seg_aligned h e l : forall a m,
  aligned_headers h -> seg h e a l m -> Forall (fun b => blk_size b mod 4 = 0) l.
Proof.
  induction l as [|b l IH]; intros a m Hh; [constructor|].
  intros (Hb & _ & _ & Hseg). constructor; [by eapply Hh|by eapply IH].
Qed.

Lemma payloads_aligned a0 l : forall a,
  Forall (fun b => blk_size b mod 4 = 0) l -> (a - a0) mod 4 = 0 ->
  Forall (fun ps => (ps.1 - a0) mod 4 = 0 /\ ps.2 mod 4 = 0) (payloads a (view l)).
Proof.
  induction l as [|b l IH]; intros a Hl Ha; [constructor|].
  apply Forall_cons in Hl as [Hb Hl]. rewrite view_cons. cbn [payloads].
  assert (Ha' : (a + sizeof_block + blk_size b - a0) mod 4 = 0).
  { unfold sizeof_block. Z.div_mod_to_equations. lia. }
  destruct (blk_free b); [by apply IH|].
  constructor; [|by apply IH]. cbn [fst snd]. split; [|done].
  unfold sizeof_block. Z.div_mod_to_equations. lia.
Qed.

Lemma allocations_aligned c st A :
  sizes_aligned st -> allocations c st A ->
  Forall (fun ps => (ps.1 - brk_lo c) mod 4 = 0 /\ ps.2 mod 4 = 0) A.
Proof.
  intros Hh (l & Hl & ->). apply payloads_aligned; [by eapply seg_aligned|].
  by rewrite Z.sub_diag.
Qed.

(** ** More on free, on first fit and on the byte store *)

(* a free that returns leaves the header marked free *)
Lemma free_marks_free ptr st st' :
  ptr <> NULL -> free ptr st = Done (tt, st') ->
  exists b', blocks st' !! BLOCK_HEADER ptr = Some b' /\ blk_free b' = true.
Proof.
  intros Hp Hrun.
  destruct (free_done ptr st st' Hp Hrun) as (b & st2 & Hb & _ & (_ & Hfl & _) & ->).
  specialize (Hfl (BLOCK_HEADER ptr)). state_simpl.
  rewrite (upd_lookup _ _ _ _ Hb) in Hfl.
  destruct (blocks st2 !! BLOCK_HEADER ptr) as [b2|] eqn:Hb2; [|done].
  injection Hfl as Hfl. by exists b2.
Qed.

(* the first block that fits is unique *)
Lemma first_fit_unique size (k1 : list block) x k2 m1 y m2 :
  k1 ++ x :: k2 = m1 ++ y :: m2 ->
  Forall (fun b => fits b size = false) k1 -> fits x size = true ->
  Forall (fun b => fits b size = false) m1 -> fits y size = true ->
  k1 = m1.
Proof.
  revert m1. induction k1 as [|a k1 IH]; intros m1 H Hk Hx Hm Hy.
  - destruct m1 as [|b m1]; [done|]. injection H as <- _.
    apply Forall_cons in Hm as [Hb _]. congruence.
  - destruct m1 as [|b m1].
    + injection H as <- _. apply Forall_cons in Hk as [Ha _]. congruence.
    + injection H as <- H. apply Forall_cons in Hk as [_ Hk].
      apply Forall_cons in Hm as [_ Hm]. f_equal. by apply IH.
Qed.

Lemma fits_view b b' size :
  blk_size b = blk_size b' -> blk_free b = blk_free b' -> fits b size = fits b' size.
Proof. unfold fits. by intros -> ->. Qed.

Lemma Forall_unfit_view size l : forall m,
  view m = view l -> Forall (fun b => fits b size = false) l ->
  Forall (fun b => fits b size = false) m.
Proof.
  induction l as [|b l IH]; intros m Hv Hl.
  - destruct m; [constructor|done].
  - destruct m as [|b' m]; [done|]. rewrite !view_cons in Hv. injection Hv as Hs Hf Hv.
    apply Forall_cons in Hl as [Hb Hl]. constructor; [|by apply IH].
    by rewrite (fits_view b' b).
Qed.

(** ** The example states *)

Lemma env_ok_c_first : env_ok c_first.
Proof. unfold env_ok. simpl. lia. Qed.

Lemma wf_st_live : wf c_first st_live.
Proof.
  apply (perform_wf c_first (Malloc 10) (init_state c_first) 4120).
  - apply wf_init, env_ok_c_first.
  - vm_compute. reflexivity.
  - vm_compute. reflexivity.
Qed.

Lemma wf_st_two : wf c_first st_two.
Proof.
  apply (perform_wf c_first (Malloc 32) st_live 4156).
  - apply wf_st_live.
  - vm_compute. reflexivity.
  - vm_compute. reflexivity.
Qed.

Lemma wf_st_reuse : wf c_first st_reuse.
Proof.
  apply (free_wf c_first 4120 st_hundred).
  - apply (perform_wf c_first (Malloc 100) (init_state c_first) 4120).
    + apply wf_init, env_ok_c_first.
    + vm_compute. reflexivity.
    + vm_compute. reflexivity.
  - vm_compute. reflexivity.
Qed.

Local Ltac concrete_layout :=
  unfold layout; cbn [seg];
  repeat (split; [first [vm_compute; reflexivity | vm_compute; discriminate]|]);
  vm_compute; reflexivity.

Lemma layout_st_live : layout c_first st_live [mkBlock 12 NULL false].
Proof. concrete_layout. Qed.

Lemma layout_st_two : layout c_first st_two [mkBlock 12 4132 false; mkBlock 32 NULL false].
Proof. concrete_layout. Qed.

Lemma layout_st_reuse : layout c_first st_reuse [mkBlock 100 NULL true].
Proof. concrete_layout. Qed.

Lemma allocations_st_live : allocations c_first st_live [(4120, 12)].
Proof. exists [mkBlock 12 NULL false]. split; [apply layout_st_live|reflexivity]. Qed.

Lemma allocations_st_two : allocations c_first st_two [(4120, 12); (4156, 32)].
Proof.
  exists [mkBlock 12 4132 false; mkBlock 32 NULL false].
  split; [apply layout_st_two|reflexivity].
Qed.

Lemma calls_example_bounded :
  Forall (fun k => request k + sizeof_block < 2 ^ 63) calls_example.
Proof. repeat (constructor; [vm_compute; reflexivity|]). constructor. Qed.

Lemma calls_example_run :
  run_calls c_first calls_example (init_state c_first) = Done (tt, st_run).
Proof. vm_compute. reflexivity. Qed.

(** * The claims of the specification *)

(** ** C1: a heap extension that the OS denies *)

(** C1 (fails on the code): at an empty heap whose break the OS refuses to
    move, the scan of malloc(16) finds no block, sbrk returns (void * ) -1,
    and malloc does not return null to its caller: the assertion of growHeap
    aborts the process. *)
Theorem malloc_denied_by_os_aborts :
  findFreeBlock c_full (heapList (init_state c_full)) (ALIGN4 16)
    (registered (init_state c_full)) = Done ((NULL, NULL), registered (init_state c_full)) /\
  sbrk c_full (sizeof_block + ALIGN4 16) (registered (init_state c_full))
    = Done (SBRK_FAILED, registered (init_state c_full)) /\
  malloc c_full 16 (init_state c_full) = Abort.
Proof.
  split; [vm_compute; reflexivity|]. split; [vm_compute; reflexivity|].
  eapply malloc_os_denial_aborts with (last := NULL).
  - vm_compute. discriminate.
  - vm_compute. reflexivity.
  - vm_compute. discriminate.
  - vm_compute. intros [H1 H2]. apply H2. reflexivity.
  - vm_compute. discriminate.
Qed.

(** ** C2: coalescing *)

(** C2 (fails on the code): three blocks are allocated and freed in the order
    left, right, middle; when the last free returns, the list holds two
    adjacent free blocks. *)
Theorem free_leaves_adjacent_free_blocks :
  exists ps st l,
    run_free_lrm (init_state c_first) = Done (ps, st) /\
    heap_list (blocks st) (heapList st) l /\ adjacent_free l.
Proof.
  eexists _, _, [(4096, mkBlock 56 4176 true); (4176, mkBlock 16 NULL true)].
  split; [vm_compute; reflexivity|]. split.
  - apply heap_list_cons; [done | vm_compute; reflexivity |].
    apply heap_list_cons; [done | vm_compute; reflexivity |].
    apply heap_list_nil.
  - simpl. left. split; reflexivity.
Qed.

(* freed in the order middle, left, right the three blocks do become one *)
Example free_mlr_merges_all :
  exists ps st,
    run_free_mlr (init_state c_first) = Done (ps, st) /\
    heap_list (blocks st) (heapList st) [(4096, mkBlock 96 NULL true)].
Proof.
  eexists _, _. split; [vm_compute; reflexivity|].
  apply heap_list_cons; [done | vm_compute; reflexivity |]. apply heap_list_nil.
Qed.

(** ** C3: placement strategies *)




(** ** C4: splitting *)

(** C4, as amended: when the block that malloc found exceeds the rounded
    request by more than one header, it is split: the block keeps exactly the
    rounded request and points to the carved block, which is free, holds the
    leftover minus one header and points to the old successor, so the two
    sizes plus one header add up to the old size.  When the excess is at most
    one header and the rounded request plus one header does not wrap around
    (it is below 2^64), no split occurs. *)
Theorem malloc_splits c size st next last st1 b :
  ALIGN4 size <> 0 ->
  findFreeBlock c (heapList st) (ALIGN4 size) (registered st) = Done ((next, last), st1) ->
  next <> NULL -> blocks st !! next = Some b -> sized b ->
  (ALIGN4 size + sizeof_block < blk_size b ->
   exists st', malloc c size st = Done (BLOCK_DATA next, st') /\
     blocks st' !! next =
       Some (mkBlock (ALIGN4 size) (to_size_t (next + sizeof_block + ALIGN4 size)) false) /\
     blocks st' !! to_size_t (next + sizeof_block + ALIGN4 size) =
       Some (mkBlock (blk_size b - ALIGN4 size - sizeof_block) (blk_next b) true) /\
     ALIGN4 size + (blk_size b - ALIGN4 size - sizeof_block) + sizeof_block = blk_size b /\
     (forall x, x <> next -> x <> to_size_t (next + sizeof_block + ALIGN4 size) ->
        blocks st' !! x = blocks st !! x) /\
     num_splits (counters st') = to_int (num_splits (counters st) + 1)) /\
  (blk_size b <= ALIGN4 size + sizeof_block -> ALIGN4 size + sizeof_block < 2 ^ 64 ->
   exists st', malloc c size st = Done (BLOCK_DATA next, st') /\
     blocks st' = upd next (set_free false) (blocks st) /\
     num_splits (counters st') = num_splits (counters st)).
Proof.
  intros Hnz Hfind Hnext Hb Hsized.
  destruct (malloc_reuse c size st next last st1 b Hnz Hfind Hnext Hb) as (Hm & Hbl & Hc).
  pose proof (ALIGN4_range size) as Hrange. pose proof Hsized as Hsized'.
  unfold sized in Hsized'.
  split.
  - intros Hex.
    assert (Hlt : (to_size_t (ALIGN4 size + sizeof_block) <? blk_size b) = true).
    { apply Z.ltb_lt. rewrite to_size_t_id; [done|unfold sizeof_block in *; lia]. }
    rewrite Hlt in Hm. eexists. split; [exact Hm|].
    destruct (split_lookup (ALIGN4 size) next b (blocks st) Hb Hsized ltac:(lia) Hex)
      as (_ & Hnext' & Hnew & Hframe).
    unfold finish_state, split_state. state_simpl. rewrite Hbl, Hc.
    split; [done|]. split; [done|]. split; [lia|]. split; done.
  - intros Hle Hnowrap.
    assert (Hge : (to_size_t (ALIGN4 size + sizeof_block) <? blk_size b) = false).
    { apply Z.ltb_ge. rewrite to_size_t_id; [done|unfold sizeof_block in *; lia]. }
    rewrite Hge in Hm. eexists. split; [exact Hm|].
    unfold finish_state. state_simpl. by rewrite Hbl, Hc.
Qed.

Lemma malloc_splits_witness :
  ALIGN4 16 <> 0 /\
  findFreeBlock c_first (heapList st_reuse) (ALIGN4 16) (registered st_reuse)
    = Done ((4096, 4096), st_reuse) /\
  4096 <> NULL /\ blocks st_reuse !! 4096 = Some (mkBlock 100 NULL true) /\
  sized (mkBlock 100 NULL true) /\
  exists st', malloc c_first 16 st_reuse = Done (BLOCK_DATA 4096, st') /\
    blocks st' !! 4096 = Some (mkBlock 16 4136 false) /\
    blocks st' !! 4136 = Some (mkBlock 60 NULL true).
Proof.
  assert (H1 : ALIGN4 16 <> 0) by (vm_compute; discriminate).
  assert (H2 : findFreeBlock c_first (heapList st_reuse) (ALIGN4 16) (registered st_reuse)
    = Done ((4096, 4096), st_reuse)) by (vm_compute; reflexivity).
  assert (H3 : 4096 <> NULL) by discriminate.
  assert (H4 : blocks st_reuse !! 4096 = Some (mkBlock 100 NULL true))
    by (vm_compute; reflexivity).
  assert (H5 : sized (mkBlock 100 NULL true)) by (unfold sized; simpl; lia).
  repeat (split; [assumption|]).
  destruct (malloc_splits c_first 16 st_reuse 4096 4096 st_reuse _ H1 H2 H3 H4 H5)
    as [Hsplit _].
  destruct Hsplit as (st' & Hm & Ha & Hb & _); [vm_compute; reflexivity|].
  exists st'. split; [exact Hm|]. split; [exact Ha|exact Hb].
Defined.

(* C4 as stated fails: the free block has exactly the requested size, and
   malloc splits it all the same, because the rounded request plus one
   header wraps around to 20 *)
Lemma huge_request_splits_exact_fit :
  run_huge (init_state c_first) = Done (tt, st_huge) /\
  exists last st',
    findFreeBlock c_first (heapList st_huge) (ALIGN4 (2 ^ 64 - 4)) (registered st_huge)
      = Done ((4096, last), st_huge) /\
    blocks st_huge !! 4096 = Some (mkBlock (ALIGN4 (2 ^ 64 - 4)) NULL true) /\
    malloc c_first (2 ^ 64 - 4) st_huge = Done (BLOCK_DATA 4096, st') /\
    num_splits (counters st_huge) = 0 /\ num_splits (counters st') = 1 /\
    blocks st' !! 4096 = Some (mkBlock (2 ^ 64 - 4) 4116 false) /\
    blocks st' !! 4116 = Some (mkBlock (2 ^ 64 - 24) NULL true).
Proof.
  split; [vm_compute; reflexivity|].
  eexists _, _. split; [vm_compute; reflexivity|].
  split; [vm_compute; reflexivity|].
  split; [vm_compute; reflexivity|].
  split; [vm_compute; reflexivity|].
  split; [vm_compute; reflexivity|].
  split; vm_compute; reflexivity.
Qed.

(** ** C5: rounding and zero-sized requests *)




(** ** C6: realloc *)




(** ** C7: calloc *)

(** C7 (fails on the code): calloc(3, 4) asks malloc for 3 * 4 = 12 bytes; at
    an empty heap whose break the OS refuses to move the allocation fails,
    and calloc does not return null: the assertion of growHeap aborts the
    process inside malloc, before calloc tests the pointer. *)
Theorem calloc_denied_by_os_aborts :
  to_size_t (3 * 4) = 12 /\
  sbrk c_full (sizeof_block + ALIGN4 12) (registered (init_state c_full))
    = Done (SBRK_FAILED, registered (init_state c_full)) /\
  malloc c_full 12 (init_state c_full) = Abort /\
  calloc c_full 3 4 (init_state c_full) = Abort.
Proof.
  split; [reflexivity|]. split; [vm_compute; reflexivity|].
  split; vm_compute; reflexivity.
Qed.

(** ** C8: free of null, of a free block, of a live block *)

(** C8: free(NULL) changes nothing; free of a pointer whose header is marked
    free is aborted by the assertion; free of a pointer whose header is
    marked live is never aborted, and on a well-formed heap it returns. *)
Theorem free_null_and_double_free :
  (forall st, free NULL st = Done (tt, st)) /\
  (forall ptr st b, ptr <> NULL -> blocks st !! BLOCK_HEADER ptr = Some b ->
     blk_free b = true -> free ptr st = Abort) /\
  (forall ptr st b, ptr <> NULL -> blocks st !! BLOCK_HEADER ptr = Some b ->
     blk_free b = false -> free ptr st <> Abort) /\
  (forall c ptr st b, wf c st -> ptr <> NULL ->
     blocks st !! BLOCK_HEADER ptr = Some b -> blk_free b = false ->
     exists st', free ptr st = Done (tt, st')).
Proof.
  split; [reflexivity|]. split; [|split].
  - intros ptr st b Hp Hb Hf. by rewrite (free_eq ptr st b Hp Hb), Hf.
  - intros ptr st b Hp Hb Hf. rewrite (free_eq ptr st b Hp Hb), Hf.
    match goal with |- context [coalesce_loop ?f ?t ?s] =>
      pose proof (coalesce_loop_no_abort f t s);
      destruct (coalesce_loop f t s) as [[[] ?]| | |] eqn:E end; done.
  - intros c ptr st b Hwf Hp Hb Hf.
    destruct (free_wf_live c ptr st b Hwf Hp Hb Hf) as (st' & Hfree & _). eauto.
Qed.

Lemma free_null_and_double_free_witness :
  4120 <> NULL /\
  blocks st_reuse !! BLOCK_HEADER 4120 = Some (mkBlock 100 NULL true) /\
  blk_free (mkBlock 100 NULL true) = true /\
  free 4120 st_reuse = Abort.
Proof.
  assert (H1 : 4120 <> NULL) by discriminate.
  assert (H2 : blocks st_reuse !! BLOCK_HEADER 4120 = Some (mkBlock 100 NULL true))
    by (vm_compute; reflexivity).
  repeat (split; [first [assumption | reflexivity]|]).
  destruct free_null_and_double_free as (_ & H & _).
  exact (H 4120 st_reuse _ H1 H2 eq_refl).
Defined.

(** ** C9: address order *)




(** ** C10: statistics *)

(** C10, as amended: a malloc that returns a block adds the rounded size to
    num_requested and one to num_mallocs, both in int arithmetic: the sums
    are taken modulo 2^32 and are exact whenever they fit an int.  A malloc
    of a size that rounds to zero returns null and leaves every counter as
    it was, and on a well-formed heap malloc returns null in no other
    case. *)
Theorem malloc_counts c size st p st' :
  malloc c size st = Done (p, st') ->
  (p <> NULL ->
   num_requested (counters st') = to_int (num_requested (counters st) + ALIGN4 size) /\
   num_mallocs (counters st') = to_int (num_mallocs (counters st) + 1) /\
   (- 2 ^ 31 <= num_requested (counters st) + ALIGN4 size <= INT_MAX ->
    num_requested (counters st') = num_requested (counters st) + ALIGN4 size) /\
   (- 2 ^ 31 <= num_mallocs (counters st) + 1 <= INT_MAX ->
    num_mallocs (counters st') = num_mallocs (counters st) + 1)) /\
  (ALIGN4 size = 0 -> p = NULL /\ counters st' = counters st) /\
  (wf c st -> p = NULL -> ALIGN4 size = 0 /\ counters st' = counters st).
Proof.
  intros Hrun. split; [|split].
  - intros Hp. destruct (malloc_counted c size st p st' Hrun Hp) as (s & Hs & Hr & Hm).
    rewrite Hs. cbn [count_malloc num_requested num_mallocs].
    rewrite int_add_size, Hr, Hm.
    split; [done|]. split; [done|]. split; intros H; by apply to_int_id.
  - intros Hz. rewrite (malloc_zero c size st Hz) in Hrun. injection Hrun as <- <-.
    split; [done|]. apply registered_fields.
  - intros Hwf ->.
    destruct (malloc_result_cases c size st NULL st' Hwf Hrun)
      as [(_ & Hz & ->)|(Hne & _)]; [|done].
    split; [done|]. apply registered_fields.
Qed.

Lemma malloc_counts_witness :
  malloc c_first 10 (init_state c_first) = Done (4120, st_live) /\
  4120 <> NULL /\
  num_requested (counters st_live) = 12 /\
  num_mallocs (counters st_live) = 1.
Proof.
  assert (Hrun : malloc c_first 10 (init_state c_first) = Done (4120, st_live))
    by (vm_compute; reflexivity).
  assert (Hp : 4120 <> NULL) by discriminate.
  split; [exact Hrun|]. split; [exact Hp|].
  destruct (malloc_counts c_first 10 (init_state c_first) _ _ Hrun) as [H _].
  destruct (H Hp) as (_ & _ & Hr & Hm).
  split; [rewrite Hr|rewrite Hm]; first [reflexivity | vm_compute; split; discriminate].
Defined.

(* C10 as stated fails: a successful malloc of 2^32 bytes leaves
   num_requested where it was, and the second of two successful mallocs of
   2^30 bytes takes it from 2^30 to -2^31 *)
Lemma num_requested_wraps :
  (exists st1,
     malloc c_first (2 ^ 32) (init_state c_first) = Done (4120, st1) /\
     ALIGN4 (2 ^ 32) = 2 ^ 32 /\
     num_requested (counters (init_state c_first)) = 0 /\
     num_requested (counters st1) = 0) /\
  (exists st1 st2,
     malloc c_first (2 ^ 30) (init_state c_first) = Done (4120, st1) /\
     malloc c_first (2 ^ 30) st1 = Done (1073745968, st2) /\
     ALIGN4 (2 ^ 30) = 2 ^ 30 /\
     num_requested (counters st1) = 2 ^ 30 /\
     num_requested (counters st2) = - 2 ^ 31).
Proof.
  split.
  - eexists. split; [vm_compute; reflexivity|]. split; [reflexivity|].
    split; reflexivity.
  - eexists _, _. split; [vm_compute; reflexivity|]. split; [vm_compute; reflexivity|].
    split; [reflexivity|]. split; reflexivity.
Qed.

(** * Further properties of the code *)

(** X1: BLOCK_DATA and BLOCK_HEADER undo each other on every 64-bit address, also
    where the addition or subtraction of the header size wraps around. *)
Theorem block_macros_round_trip b :
  0 <= b < 2 ^ 64 ->
  BLOCK_HEADER (BLOCK_DATA b) = b /\ BLOCK_DATA (BLOCK_HEADER b) = b.
Proof.
  intros Hb. unfold BLOCK_HEADER, BLOCK_DATA, to_size_t, sizeof_block.
  change (2 ^ 64) with 18446744073709551616 in *.
  split; Z.div_mod_to_equations; lia.
Qed.

Lemma block_macros_round_trip_witness :
  0 <= 2 ^ 64 - 8 < 2 ^ 64 /\
  BLOCK_DATA (2 ^ 64 - 8) = 16 /\ BLOCK_HEADER 16 = 2 ^ 64 - 8 /\
  BLOCK_HEADER (BLOCK_DATA (2 ^ 64 - 8)) = 2 ^ 64 - 8.
Proof.
  assert (H : 0 <= 2 ^ 64 - 8 < 2 ^ 64) by lia.
  split; [exact H|]. split; [reflexivity|]. split; [reflexivity|].
  exact (proj1 (block_macros_round_trip (2 ^ 64 - 8) H)).
Defined.

(** X2: ALIGN4 always yields a multiple of 4; for a size between 1 and
    SIZE_MAX - 3 it is the least multiple of 4 that is not below the size (so
    a multiple of 4 is left as it is), and rounding twice is rounding once. *)
Theorem ALIGN4_least_multiple s :
  ALIGN4 s mod 4 = 0 /\
  (1 <= s <= 2 ^ 64 - 4 ->
   s <= ALIGN4 s < s + 4 /\ (s mod 4 = 0 -> ALIGN4 s = s)) /\
  (0 <= s < 2 ^ 64 -> ALIGN4 (ALIGN4 s) = ALIGN4 s).
Proof.
  split; [apply ALIGN4_mod4|]. split; [|apply ALIGN4_idem].
  intros Hs. destruct (ALIGN4_small s Hs) as [Hr Hm]. split; [done|].
  intros H4. Z.div_mod_to_equations. lia.
Qed.

Lemma ALIGN4_least_multiple_witness :
  1 <= 13 <= 2 ^ 64 - 4 /\ ALIGN4 13 = 16 /\ 13 <= ALIGN4 13 < 13 + 4.
Proof.
  assert (H : 1 <= 13 <= 2 ^ 64 - 4) by lia.
  split; [exact H|]. split; [reflexivity|].
  destruct (ALIGN4_least_multiple 13) as (_ & H1 & _).
  exact (proj1 (H1 H)).
Defined.

(** X3: a scan that returns has changed nothing but, at most, the next-fit
    cursor actualLast: headers, counters, list head, break and payload are
    as before, and under first, best and worst fit the state is the same. *)
Theorem findFreeBlock_reads_only c last size st r st1 :
  findFreeBlock c last size st = Done (r, st1) ->
  st1 = set_actualLast (actualLast st1) st /\ (fit c <> NEXT -> st1 = st).
Proof.
  intros Hrun.
  destruct (findFreeBlock_frame c last size st r st1 Hrun) as (Ha & Hc & Hh & Hb & Hby & Hbrk).
  split; [by apply state_eq|]. intros Hfit. by eapply findFreeBlock_pure.
Qed.

Lemma findFreeBlock_reads_only_witness :
  findFreeBlock c_next NULL 16 st_reuse = Done ((4096, NULL), st_reuse) /\
  st_reuse = set_actualLast (actualLast st_reuse) st_reuse.
Proof.
  assert (H : findFreeBlock c_next NULL 16 st_reuse = Done ((4096, NULL), st_reuse))
    by (vm_compute; reflexivity).
  split; [exact H|]. exact (proj1 (findFreeBlock_reads_only c_next NULL 16 st_reuse _ _ H)).
Defined.

(** X4: while the cursor actualLast is NULL (it is in every state the
    allocator reaches, see X24), the next-fit scan returns what the first-fit
    scan returns, leaves the cursor NULL, and malloc of a next-fit build
    behaves exactly as malloc of a first-fit build. *)
Theorem next_fit_allocates_like_first_fit c c' last size st :
  fit c = NEXT -> fit c' = FIT -> brk_lo c' = brk_lo c -> brk_hi c' = brk_hi c ->
  actualLast st = NULL ->
  findFreeBlock c last size st = findFreeBlock c' last size st /\
  malloc c size st = malloc c' size st /\
  forall r st1, findFreeBlock c last size st = Done (r, st1) -> actualLast st1 = NULL.
Proof.
  intros Hc Hc' Hlo Hhi Hal.
  split; [by apply findFreeBlock_NEXT_FIT|]. split.
  - rewrite !malloc_eq. cbv zeta.
    destruct (registered_fields st) as (_ & _ & Har & _).
    rewrite (findFreeBlock_NEXT_FIT c c') by (try done; by rewrite Har).
    destruct (ALIGN4 size =? 0); [done|].
    destruct (findFreeBlock c' _ _ _) as [[[next l] st1]| | |]; [|done..].
    by rewrite (growHeap_config c c').
  - intros r st1. rewrite (findFreeBlock_NEXT_FIT c c') by done. intros Hrun.
    rewrite (findFreeBlock_pure c' last size st r st1); [done| |done].
    by rewrite Hc'.
Qed.

Lemma next_fit_allocates_like_first_fit_witness :
  fit c_next = NEXT /\ fit c_first = FIT /\
  brk_lo c_first = brk_lo c_next /\ brk_hi c_first = brk_hi c_next /\
  actualLast st_reuse = NULL /\
  malloc c_next 16 st_reuse = malloc c_first 16 st_reuse.
Proof.
  assert (H : actualLast st_reuse = NULL) by (vm_compute; reflexivity).
  repeat (split; [first [reflexivity | exact H]|]).
  exact (proj1 (proj2 (next_fit_allocates_like_first_fit c_next c_first NULL 16 st_reuse
                         eq_refl eq_refl eq_refl eq_refl H))).
Defined.

(** X5: best fit never selects a block of INT_MAX bytes or more: the scan
    returns NULL exactly when every free block that is large enough has at
    least INT_MAX bytes, and a block it returns has fewer. *)
Theorem best_fit_ignores_large_blocks c st l last size :
  fit c = BEST -> heap_list (blocks st) (heapList st) l ->
  Forall (fun ab => sized ab.2) l ->
  exists r last', findFreeBlock c last size st = Done ((r, last'), st) /\
    (r = NULL <-> forall a b, fitting size l a b -> INT_MAX <= blk_size b) /\
    (r <> NULL -> exists b, fitting size l r b /\ blk_size b < INT_MAX).
Proof.
  intros Hc Hl Hs. pose proof (heap_list_fuel _ _ _ Hl) as Hfuel.
  destruct (best_fit_loop_spec (blocks st) size l _ (heapList st) last INT_MAX NULL
              Hl Hs Hfuel ltac:(unfold INT_MAX; lia)) as (r & Hrun & Hr).
  exists r, (last_addr l last). unfold findFreeBlock. rewrite Hc. munfold. rewrite Hrun.
  split; [done|].
  destruct Hr as [(-> & Hall)|(b & Hfit & Hlt & Hmin)].
  - split; [done|]. done.
  - assert (Hne : r <> NULL).
    { destruct Hfit as [Hin _]. by destruct (heap_list_lookup _ _ _ _ _ Hl Hin). }
    split; [|intros _; by exists b]. split; [done|].
    intros Hall. specialize (Hall r b Hfit). lia.
Qed.

Lemma best_fit_ignores_large_blocks_witness :
  fit c_best = BEST /\
  heap_list (blocks st_big) (heapList st_big) big_list /\
  Forall (fun ab => sized ab.2) big_list /\
  exists r last', findFreeBlock c_best NULL 4 st_big = Done ((r, last'), st_big) /\
    (r = NULL <-> forall a b, fitting 4 big_list a b -> INT_MAX <= blk_size b).
Proof.
  assert (Hl : heap_list (blocks st_big) (heapList st_big) big_list).
  { repeat (apply heap_list_cons; [done | vm_compute; reflexivity |]).
    apply heap_list_nil. }
  assert (Hs : Forall (fun ab => sized ab.2) big_list).
  { repeat (constructor; [unfold sized; simpl; lia|]). constructor. }
  split; [reflexivity|]. split; [exact Hl|]. split; [exact Hs|].
  destruct (best_fit_ignores_large_blocks c_best st_big big_list NULL 4 eq_refl Hl Hs)
    as (r & last' & Hrun & Hiff & _).
  exists r, last'. split; [exact Hrun|exact Hiff].
Defined.

(** X6: growHeap for a request that does not overflow the sbrk increment: when
    the OS denies the extension the assertion aborts (NULL is never
    returned); otherwise the old break is returned, the break has moved by
    one header plus the size, the new header holds the size, a NULL next and
    is live, the block at last points to it, an empty list gets it as head,
    no other header changes, and one grow, one block and size bytes of heap
    are counted. *)
Theorem growHeap_appends_block c last size st :
  0 <= size -> size + sizeof_block < 2 ^ 63 ->
  brk_lo c <= brk st -> brk st < 2 ^ 63 ->
  (brk_hi c < brk st + sizeof_block + size -> growHeap c last size st = Abort) /\
  (brk st + sizeof_block + size <= brk_hi c ->
   exists st',
     growHeap c last size st = Done (brk st, st') /\
     brk st' = brk st + sizeof_block + size /\
     blocks st' !! brk st = Some (mkBlock size NULL false) /\
     heapList st' = (if heapList st =? NULL then brk st else heapList st) /\
     (forall lb, last <> NULL -> last <> brk st -> blocks st !! last = Some lb ->
        blocks st' !! last = Some (set_next (brk st) lb)) /\
     (forall x, x <> brk st -> x <> last \/ last = NULL ->
        blocks st' !! x = blocks st !! x) /\
     counters st' = count_grow size (counters st)).
Proof.
  intros Hsz Hbound Hlo Hhi.
  assert (Hincr : to_intptr (to_size_t (sizeof_block + size)) = sizeof_block + size).
  { rewrite to_size_t_id by (unfold sizeof_block in *; lia).
    apply to_intptr_id. unfold sizeof_block in *. lia. }
  rewrite growHeap_eq. cbv zeta. rewrite Hincr.
  destruct (Z.eqb_spec (sizeof_block + size) 0) as [|_]; [unfold sizeof_block in *; lia|].
  destruct (Z.eqb_spec (brk st) SBRK_FAILED) as [|_]; [unfold SBRK_FAILED in *; lia|].
  destruct (Z.leb_spec (brk_lo c) (brk st + (sizeof_block + size))) as [_|];
    [|unfold sizeof_block in *; lia].
  destruct (Z.leb_spec (brk st + (sizeof_block + size)) (brk_hi c)) as [Hok|Hden];
    cbn [andb]; (split; [intros ?; (done || lia)|intros ?; try lia]).
  exists (grown_state last size st). split; [done|].
  unfold grown_state. cbv zeta. rewrite Hincr. state_simpl.
  destruct (heapList st =? NULL), (Z.eqb_spec last NULL) as [->|Hl]; cbn [negb]; state_simpl.
  all: split; [lia|].
  all: split; [rewrite !upd_lookup_eq; cbn [default from_option]; by unfold id|].
  all: split; [done|].
  all: split; [intros lb Hl1 Hl2 Hlb; try done;
               rewrite !(upd_lookup_ne (brk st) last) by done; by apply upd_lookup|].
  all: split; [|done].
  all: intros x Hx Hxl; rewrite !(upd_lookup_ne (brk st) x) by done; try done.
  all: destruct Hxl as [Hxl|?]; [|done]; by rewrite upd_lookup_ne.
Qed.

Lemma growHeap_appends_block_witness :
  0 <= 16 /\ 16 + sizeof_block < 2 ^ 63 /\
  brk_lo c_first <= brk (init_state c_first) /\ brk (init_state c_first) < 2 ^ 63 /\
  brk (init_state c_first) + sizeof_block + 16 <= brk_hi c_first /\
  exists st', growHeap c_first NULL 16 (init_state c_first) = Done (4096, st') /\
    brk st' = 4136 /\ blocks st' !! 4096 = Some (mkBlock 16 NULL false) /\
    heapList st' = 4096.
Proof.
  assert (H1 : 0 <= 16) by lia.
  assert (H2 : 16 + sizeof_block < 2 ^ 63) by (vm_compute; reflexivity).
  assert (H3 : brk_lo c_first <= brk (init_state c_first)) by (vm_compute; discriminate).
  assert (H4 : brk (init_state c_first) < 2 ^ 63) by (vm_compute; reflexivity).
  assert (H5 : brk (init_state c_first) + sizeof_block + 16 <= brk_hi c_first)
    by (vm_compute; discriminate).
  repeat (split; [assumption|]).
  destruct (growHeap_appends_block c_first NULL 16 (init_state c_first) H1 H2 H3 H4)
    as [_ H].
  destruct (H H5) as (st' & Hg & Hb & Hn & Hh & _).
  exists st'. split; [exact Hg|]. split; [exact Hb|]. split; [exact Hn|exact Hh].
Defined.

(** X7: on a well-formed heap malloc, calloc and realloc (of a non-zero
    size) return NULL exactly when the requested size rounds to zero, and
    then nothing but the atexit flag has changed; exhaustion never shows as a
    NULL result. *)
Theorem null_only_for_zero_size c st :
  wf c st ->
  (forall size p st', malloc c size st = Done (p, st') ->
     (p = NULL <-> ALIGN4 size = 0) /\ (p = NULL -> st' = registered st)) /\
  (forall nmemb size p st', calloc c nmemb size st = Done (p, st') ->
     (p = NULL <-> ALIGN4 (to_size_t (nmemb * size)) = 0) /\
     (p = NULL -> st' = registered st)) /\
  (forall ptr size p st', size <> 0 -> realloc c ptr size st = Done (p, st') ->
     (p = NULL <-> ALIGN4 size = 0) /\ (p = NULL -> st' = registered st)).
Proof.
  intros Hwf.
  assert (Hm : forall size p st', malloc c size st = Done (p, st') ->
     (p = NULL <-> ALIGN4 size = 0) /\ (p = NULL -> st' = registered st)).
  { intros size p st' Hrun.
    destruct (malloc_result_cases c size st p st' Hwf Hrun)
      as [(-> & Hz & ->)|(Hne & Hnz & _)]; [done|]. split; [done|]. done. }
  split; [exact Hm|]. split.
  - intros nmemb size p st' Hrun. apply calloc_done in Hrun as (st1 & Hrun & Hst).
    destruct (Hm _ _ _ Hrun) as [Hiff Hnull]. split; [done|].
    intros Hp. destruct Hst as [[_ ->]|[Hne _]]; [by apply Hnull|done].
  - intros ptr size p st' Hs Hrun.
    apply realloc_done in Hrun
      as [[_ Hrun]|[(_ & ? & _)|(_ & _ & st1 & Hrun & Hst)]]; [by apply Hm|done|].
    destruct (Hm _ _ _ Hrun) as [Hiff Hnull]. split; [done|].
    intros Hp. destruct Hst as [[_ ->]|[Hne _]]; [by apply Hnull|done].
Qed.

Lemma null_only_for_zero_size_witness :
  wf c_first st_live /\
  malloc c_first 32 st_live = Done (4156, st_two) /\
  (4156 = NULL <-> ALIGN4 32 = 0).
Proof.
  assert (Hm : malloc c_first 32 st_live = Done (4156, st_two)) by (vm_compute; reflexivity).
  split; [exact wf_st_live|]. split; [exact Hm|].
  destruct (null_only_for_zero_size c_first st_live wf_st_live) as (H & _).
  exact (proj1 (H 32 4156 st_two Hm)).
Defined.

(** X8: what malloc does to the list of a well-formed heap, for a request
    that does not round to zero and whose rounded size plus one header is
    below 2^63: the process is aborted because the OS denies the growth, or a
    free block that is large enough is reused at its address (split into a
    live block of the rounded size and a free rest when it exceeds the
    request by more than a header, otherwise handed out whole) with the break
    where it was, or a live block of the rounded size is appended at the
    break; all other blocks keep their size, their flag and their place. *)
Theorem malloc_layout c size st l :
  wf c st -> layout c st l -> ALIGN4 size <> 0 -> ALIGN4 size + sizeof_block < 2 ^ 63 ->
  (malloc c size st = Abort /\ brk_hi c < brk st + sizeof_block + ALIGN4 size) \/
  exists p st' l',
    malloc c size st = Done (p, st') /\ wf c st' /\ layout c st' l' /\
    ((exists l1 b l2, l = l1 ++ b :: l2 /\ fits b (ALIGN4 size) = true /\
        p = brk_lo c + extent (view l1) + sizeof_block /\
        view l' = view l1 ++ reuse_view (ALIGN4 size) b ++ view l2 /\
        brk st' = brk st) \/
     (p = brk st + sizeof_block /\
      view l' = view l ++ [(ALIGN4 size, false)] /\
      brk st' = brk st + sizeof_block + ALIGN4 size)).
Proof.
  intros Hwf Hl Hnz Hbound.
  pose proof (ALIGN4_range size) as Hrange.
  pose proof (wf_registered c st Hwf) as Hwfr.
  destruct (registered_fields st) as (Hc & Hh & Ha & Hb & Hby & Hbrk).
  destruct (malloc_paths c size st l Hwf Hl Hnz Hbound)
    as [(l1 & b & l2 & -> & Hfit & Hm)|[Hm|[Hm Hok]]]; [right|by left|right].
  - destruct (reuse_layout c (registered st) l1 b l2 (ALIGN4 size) Hwfr
                (layout_registered c st _ Hl) ltac:(lia) Hfit) as (l' & Hl' & Hv & Hwf').
    eexists _, _, l'. split; [exact Hm|]. split; [done|]. split; [done|]. left.
    exists l1, b, l2. split; [done|]. split; [done|]. split; [done|]. split; [done|].
    by rewrite (proj2 (counters_reused_state _ _ _ _)).
  - destruct (grow_layout c (registered st) l
                (last_addr (place (brk_lo c) l) (heapList st)) (ALIGN4 size) Hwfr
                (layout_registered c st _ Hl) ltac:(by rewrite Hh) ltac:(lia) Hbound
                ltac:(by rewrite Hbrk)) as (l' & Hl' & Hv & Hbrk'' & _).
    rewrite Hbrk in *.
    eexists _, _, l'. split; [exact Hm|]. split; [|split; [done|by right]].
    destruct (malloc_wf c size st Hwf Hbound) as [[Hab _]|(q & st2 & Hd & Hwf2 & _)];
      rewrite Hm in *; [done|]. by injection Hd as <- <-.
Qed.

Lemma malloc_layout_witness :
  wf c_first st_live /\ layout c_first st_live [mkBlock 12 NULL false] /\
  ALIGN4 32 <> 0 /\ ALIGN4 32 + sizeof_block < 2 ^ 63 /\
  exists p st' l',
    malloc c_first 32 st_live = Done (p, st') /\ wf c_first st' /\ layout c_first st' l'.
Proof.
  assert (Hnz : ALIGN4 32 <> 0) by (vm_compute; discriminate).
  assert (Hb : ALIGN4 32 + sizeof_block < 2 ^ 63) by (vm_compute; reflexivity).
  split; [exact wf_st_live|]. split; [exact layout_st_live|].
  split; [exact Hnz|]. split; [exact Hb|].
  destruct (malloc_layout c_first 32 st_live _ wf_st_live layout_st_live Hnz Hb)
    as [[Hab _]|(p & st' & l' & Hm & Hwf & Hl & _)].
  - vm_compute in Hab. discriminate Hab.
  - exists p, st', l'. split; [exact Hm|]. split; [exact Hwf|exact Hl].
Defined.

(** X9: on a well-formed heap, for a request that does not round to zero and
    whose rounded size plus one header is below 2^63, under first fit (and
    next fit) malloc returns the payload of the first free block of the list
    that is large enough, without moving the break; when no block of the
    list fits it is aborted (the OS denies the growth) or returns the old
    break plus one header, with the break moved up by the rounded size and
    one header. *)
Theorem first_fit_reuses_before_growing c size st l :
  wf c st -> layout c st l -> ALIGN4 size <> 0 -> ALIGN4 size + sizeof_block < 2 ^ 63 ->
  fit c = FIT \/ fit c = NEXT ->
  (forall l1 b l2,
     l = l1 ++ b :: l2 -> Forall (fun x => fits x (ALIGN4 size) = false) l1 ->
     fits b (ALIGN4 size) = true ->
     exists st', malloc c size st = Done (brk_lo c + extent (view l1) + sizeof_block, st') /\
       brk st' = brk st) /\
  (Forall (fun x => fits x (ALIGN4 size) = false) l ->
   malloc c size st = Abort \/
   exists st', malloc c size st = Done (brk st + sizeof_block, st') /\
     brk st' = brk st + sizeof_block + ALIGN4 size).
Proof.
  intros Hwf Hl Hnz Hbound Hfit.
  pose proof (ALIGN4_range size) as Hrange.
  pose proof (wf_registered c st Hwf) as Hwfr.
  destruct (registered_fields st) as (Hc & Hh & Ha & Hb & Hby & Hbrk).
  destruct (malloc_paths_first c size st l Hwf Hl Hnz Hbound Hfit)
    as [(k1 & x & k2 & Hk & Hx & Hun & Hm)|(Hun & Hm)].
  - split.
    + intros l1 b l2 Hl1 Hun1 Hb1. rewrite Hk in Hl1.
      rewrite <- (first_fit_unique _ _ _ _ _ _ _ Hl1 Hun Hx Hun1 Hb1).
      eexists. split; [exact Hm|].
      by rewrite (proj2 (counters_reused_state _ _ _ _)).
    + intros Hall. rewrite Hk in Hall. apply Forall_app in Hall as [_ Hall].
      apply Forall_cons in Hall as [Hall _]. congruence.
  - split.
    + intros l1 b l2 -> _ Hb1. apply Forall_app in Hun as [_ Hun].
      apply Forall_cons in Hun as [Hun _]. congruence.
    + intros _. destruct Hm as [[Hm _]|[Hm Hok]]; [by left|right].
      eexists. split; [exact Hm|].
      destruct (grow_layout c (registered st) l
                  (last_addr (place (brk_lo c) l) (heapList st)) (ALIGN4 size) Hwfr
                  (layout_registered c st _ Hl) ltac:(by rewrite Hh) ltac:(lia) Hbound
                  ltac:(by rewrite Hbrk)) as (l' & _ & _ & Hbrk'' & _).
      by rewrite Hbrk in Hbrk''.
Qed.

Lemma first_fit_reuses_before_growing_witness :
  wf c_first st_reuse /\ layout c_first st_reuse [mkBlock 100 NULL true] /\
  ALIGN4 16 <> 0 /\ ALIGN4 16 + sizeof_block < 2 ^ 63 /\
  (fit c_first = FIT \/ fit c_first = NEXT) /\
  exists st', malloc c_first 16 st_reuse = Done (4120, st') /\ brk st' = brk st_reuse.
Proof.
  assert (Hnz : ALIGN4 16 <> 0) by (vm_compute; discriminate).
  assert (Hb : ALIGN4 16 + sizeof_block < 2 ^ 63) by (vm_compute; reflexivity).
  assert (Hf : fit c_first = FIT \/ fit c_first = NEXT) by (left; reflexivity).
  split; [exact wf_st_reuse|]. split; [exact layout_st_reuse|].
  split; [exact Hnz|]. split; [exact Hb|]. split; [exact Hf|].
  destruct (first_fit_reuses_before_growing c_first 16 st_reuse _ wf_st_reuse
              layout_st_reuse Hnz Hb Hf) as [H _].
  exact (H [] (mkBlock 100 NULL true) [] eq_refl (Forall_nil_2 _) eq_refl).
Defined.

(** X10: on a well-formed heap, for a request whose rounded size plus one
    header is below 2^63, a successful malloc counts either one reuse (and at
    most one split, with num_grows, num_blocks, max_heap and the break
    unchanged) or one grow (num_grows and num_blocks one up, max_heap up by
    the rounded size, the break up by the size and a header, no reuse, no
    split); it never touches num_frees or num_coalesces.  The counters are
    ints: every sum is taken in int arithmetic, modulo 2^32. *)
Theorem malloc_counts_one_reuse_or_one_grow c size st p st' :
  wf c st -> ALIGN4 size + sizeof_block < 2 ^ 63 ->
  malloc c size st = Done (p, st') -> p <> NULL ->
  num_frees (counters st') = num_frees (counters st) /\
  num_coalesces (counters st') = num_coalesces (counters st) /\
  ((brk st' = brk st /\
    num_reuses (counters st') = to_int (num_reuses (counters st) + 1) /\
    num_grows (counters st') = num_grows (counters st) /\
    num_blocks (counters st') = num_blocks (counters st) /\
    max_heap (counters st') = max_heap (counters st) /\
    (num_splits (counters st') = num_splits (counters st) \/
     num_splits (counters st') = to_int (num_splits (counters st) + 1))) \/
   (brk st' = brk st + sizeof_block + ALIGN4 size /\
    num_reuses (counters st') = num_reuses (counters st) /\
    num_grows (counters st') = to_int (num_grows (counters st) + 1) /\
    num_blocks (counters st') = to_int (num_blocks (counters st) + 1) /\
    max_heap (counters st') = to_int (max_heap (counters st) + ALIGN4 size) /\
    num_splits (counters st') = num_splits (counters st))).
Proof.
  intros Hwf Hbound Hrun Hp.
  destruct (malloc_counters c size st p st' Hwf Hbound Hrun Hp)
    as [(Hb & split & ->)|(Hb & ->)].
  - split; [by destruct split|]. split; [by destruct split|]. left.
    split; [done|]. destruct split; cbn; repeat (split; [done|]); [by right|by left].
  - split; [done|]. split; [done|]. right. split; [done|].
    cbn [count_malloc count_grow num_reuses num_grows num_blocks max_heap num_splits].
    by rewrite int_add_size.
Qed.

Lemma malloc_counts_one_reuse_or_one_grow_witness :
  wf c_first st_live /\ ALIGN4 32 + sizeof_block < 2 ^ 63 /\
  malloc c_first 32 st_live = Done (4156, st_two) /\ 4156 <> NULL /\
  num_frees (counters st_two) = num_frees (counters st_live) /\
  num_coalesces (counters st_two) = num_coalesces (counters st_live).
Proof.
  assert (Hb : ALIGN4 32 + sizeof_block < 2 ^ 63) by (vm_compute; reflexivity).
  assert (Hm : malloc c_first 32 st_live = Done (4156, st_two)) by (vm_compute; reflexivity).
  assert (Hp : 4156 <> NULL) by discriminate.
  split; [exact wf_st_live|]. split; [exact Hb|]. split; [exact Hm|]. split; [exact Hp|].
  destruct (malloc_counts_one_reuse_or_one_grow c_first 32 st_live 4156 st_two
              wf_st_live Hb Hm Hp) as (H1 & H2 & _).
  split; [exact H1|exact H2].
Defined.

(** X11: on a well-formed heap, for a request whose rounded size plus one
    header is below 2^63, a successful malloc adds exactly one allocation to
    the allocations of the heap: its size is the rounded request or up to one
    header more, it lies at least a header away from every allocation that
    was there, and those keep their address, size and content. *)
Theorem malloc_adds_allocation c size st A p st' :
  wf c st -> ALIGN4 size + sizeof_block < 2 ^ 63 -> allocations c st A ->
  malloc c size st = Done (p, st') -> p <> NULL ->
  exists A1 A2 s,
    A = A1 ++ A2 /\ allocations c st' (A1 ++ (p, s) :: A2) /\
    ALIGN4 size <= s <= ALIGN4 size + sizeof_block /\
    (forall r u, (r, u) ∈ A -> r + u + sizeof_block <= p \/ p + s + sizeof_block <= r) /\
    (forall r u i, (r, u) ∈ A -> 0 <= i < u -> bytes st' (r + i) = bytes st (r + i)).
Proof.
  intros Hwf Hbound HA Hrun Hp.
  destruct (malloc_allocations c size st A p st' Hwf Hbound HA Hrun Hp)
    as (A1 & A2 & s & -> & HA' & Hs & _ & _).
  exists A1, A2, s. split; [done|]. split; [done|]. split; [done|]. split.
  - intros r u Hin. eapply apart_other; [|exact Hin]. by eapply allocations_apart.
  - intros r u i _ _. by rewrite (malloc_bytes _ _ _ _ _ Hrun).
Qed.

Lemma malloc_adds_allocation_witness :
  wf c_first st_live /\ ALIGN4 32 + sizeof_block < 2 ^ 63 /\
  allocations c_first st_live [(4120, 12)] /\
  malloc c_first 32 st_live = Done (4156, st_two) /\ 4156 <> NULL /\
  exists A1 A2 s,
    [(4120, 12)] = A1 ++ A2 /\ allocations c_first st_two (A1 ++ (4156, s) :: A2) /\
    ALIGN4 32 <= s <= ALIGN4 32 + sizeof_block.
Proof.
  assert (Hb : ALIGN4 32 + sizeof_block < 2 ^ 63) by (vm_compute; reflexivity).
  assert (Hm : malloc c_first 32 st_live = Done (4156, st_two)) by (vm_compute; reflexivity).
  assert (Hp : 4156 <> NULL) by discriminate.
  split; [exact wf_st_live|]. split; [exact Hb|]. split; [exact allocations_st_live|].
  split; [exact Hm|]. split; [exact Hp|].
  destruct (malloc_adds_allocation c_first 32 st_live _ 4156 st_two wf_st_live Hb
              allocations_st_live Hm Hp) as (A1 & A2 & s & H1 & H2 & H3 & _).
  exists A1, A2, s. split; [exact H1|]. split; [exact H2|exact H3].
Defined.

(** X12: free of an allocation returns, removes exactly that allocation,
    leaves every other allocation at its address with its size and content,
    and does not move the break. *)
Theorem free_removes_allocation c st A1 p s A2 :
  wf c st -> allocations c st (A1 ++ (p, s) :: A2) ->
  exists st', free p st = Done (tt, st') /\ wf c st' /\
    allocations c st' (A1 ++ A2) /\ brk st' = brk st /\
    (forall r u i, (r, u) ∈ A1 ++ A2 -> 0 <= i < u ->
       bytes st' (r + i) = bytes st (r + i)).
Proof.
  intros Hwf HA.
  destruct (free_allocations c st A1 p s A2 Hwf HA) as (st' & Hrun & Hwf' & HA' & Hho).
  exists st'. split; [done|]. split; [done|]. split; [done|].
  destruct Hho as (_ & _ & _ & Hby & Hbrk). split; [done|].
  intros r u i _ _. by rewrite Hby.
Qed.

Lemma free_removes_allocation_witness :
  wf c_first st_two /\ allocations c_first st_two ([] ++ (4120, 12) :: [(4156, 32)]) /\
  exists st', free 4120 st_two = Done (tt, st') /\ wf c_first st' /\
    allocations c_first st' ([] ++ [(4156, 32)]).
Proof.
  split; [exact wf_st_two|]. split; [exact allocations_st_two|].
  destruct (free_removes_allocation c_first st_two [] 4120 12 [(4156, 32)] wf_st_two
              allocations_st_two) as (st' & H1 & H2 & H3 & _).
  exists st'. split; [exact H1|]. split; [exact H2|exact H3].
Defined.

(** X13: free of a live block of the list marks it free and then makes one
    pass over the list from the head: a free block that is followed by a free
    block absorbs it (size of both plus one header) and the pass goes on
    behind the absorbed block; one coalesce is counted for every block that
    disappears. *)
Theorem free_coalesces_in_one_pass c st l1 b l2 :
  wf c st -> layout c st (l1 ++ b :: l2) -> blk_free b = false ->
  exists st' l',
    free (brk_lo c + extent (view l1) + sizeof_block) st = Done (tt, st') /\
    layout c st' l' /\
    view l' = coalesce_pass (view l1 ++ (blk_size b, true) :: view l2) /\
    (length l' <= length (l1 ++ b :: l2))%nat /\
    num_coalesces (counters st') =
      Nat.iter (length (l1 ++ b :: l2) - length l') (fun n => to_int (n + 1))
        (num_coalesces (counters st)).
Proof.
  intros Hwf Hl Hlive.
  destruct (free_layout c st l1 b l2 Hwf Hl Hlive)
    as (st' & l' & Hrun & _ & Hl' & Hv & Hlen & Hc & _).
  exists st', l'. split; [done|]. split; [done|]. split; [done|]. split; [done|].
  rewrite Hc. cbn [incr_frees num_coalesces]. apply num_coalesces_iter.
Qed.

Lemma free_coalesces_in_one_pass_witness :
  wf c_first st_two /\
  layout c_first st_two ([] ++ mkBlock 12 4132 false :: [mkBlock 32 NULL false]) /\
  blk_free (mkBlock 12 4132 false) = false /\
  exists st' l',
    free 4120 st_two = Done (tt, st') /\ layout c_first st' l' /\
    view l' = [(12, true); (32, false)].
Proof.
  split; [exact wf_st_two|]. split; [exact layout_st_two|]. split; [reflexivity|].
  destruct (free_coalesces_in_one_pass c_first st_two [] (mkBlock 12 4132 false)
              [mkBlock 32 NULL false] wf_st_two layout_st_two eq_refl)
    as (st' & l' & H1 & H2 & H3 & _).
  exists st', l'. split; [exact H1|]. split; [exact H2|exact H3].
Defined.

(** X14: if no two neighbours of the list are free before the call, then
    after free two free neighbours remain exactly when the block freed lies
    between two free blocks (the pass merges it into its predecessor and
    steps over its successor). *)
Theorem free_exhaustive_unless_between_free c st l1 b l2 :
  wf c st -> layout c st (l1 ++ b :: l2) -> blk_free b = false ->
  ~ adjacent_free (place (brk_lo c) (l1 ++ b :: l2)) ->
  exists st' hl,
    free (brk_lo c + extent (view l1) + sizeof_block) st = Done (tt, st') /\
    heap_list (blocks st') (heapList st') hl /\
    (adjacent_free hl <->
     (exists bp, last l1 = Some bp /\ blk_free bp = true) /\
     (exists bn, head l2 = Some bn /\ blk_free bn = true)).
Proof.
  intros Hwf Hl Hlive Htidy.
  destruct (free_layout c st l1 b l2 Hwf Hl Hlive)
    as (st' & l' & Hrun & Hwf' & Hl' & Hv & _).
  exists st', (place (brk_lo c) l'). split; [done|].
  split; [by apply layout_heap_list|].
  rewrite adjacent_free_place, Hv.
  rewrite adjacent_free_place, view_app, view_cons, Hlive in Htidy.
  rewrite (coalesce_pass_marked _ _ _ Htidy).
  by rewrite last_view_free, head_view_free.
Qed.

Lemma free_exhaustive_unless_between_free_witness :
  wf c_first st_two /\
  layout c_first st_two ([] ++ mkBlock 12 4132 false :: [mkBlock 32 NULL false]) /\
  blk_free (mkBlock 12 4132 false) = false /\
  ~ adjacent_free
      (place (brk_lo c_first) ([] ++ mkBlock 12 4132 false :: [mkBlock 32 NULL false])) /\
  exists st' hl,
    free 4120 st_two = Done (tt, st') /\
    heap_list (blocks st') (heapList st') hl /\ ~ adjacent_free hl.
Proof.
  assert (Ht : ~ adjacent_free
      (place (brk_lo c_first) ([] ++ mkBlock 12 4132 false :: [mkBlock 32 NULL false]))).
  { simpl. intros [[H _]|H]; [discriminate H|exact H]. }
  split; [exact wf_st_two|]. split; [exact layout_st_two|]. split; [reflexivity|].
  split; [exact Ht|].
  destruct (free_exhaustive_unless_between_free c_first st_two [] (mkBlock 12 4132 false)
              [mkBlock 32 NULL false] wf_st_two layout_st_two eq_refl Ht)
    as (st' & hl & H1 & H2 & H3).
  exists st', hl. split; [exact H1|]. split; [exact H2|].
  intros Hadj. apply H3 in Hadj. destruct Hadj as [(bp & Hbp & _) _]. discriminate Hbp.
Defined.

(** X15: free changes no header of a live block other than the one it is
    given: coalescing writes to free blocks only. *)
Theorem free_keeps_other_blocks ptr st st' a b :
  free ptr st = Done (tt, st') ->
  blocks st !! a = Some b -> blk_free b = false -> a <> BLOCK_HEADER ptr ->
  blocks st' !! a = Some b.
Proof.
  intros Hrun Ha Hb Hne. destruct (Z.eqb_spec ptr NULL) as [->|Hp].
  { cbv in Hrun. by injection Hrun as <-. }
  destruct (free_done ptr st st' Hp Hrun) as (b0 & st2 & _ & _ & (_ & _ & Hl & _) & ->).
  state_simpl. apply Hl; [|done]. state_simpl. by rewrite upd_lookup_ne.
Qed.

Lemma free_keeps_other_blocks_witness :
  free 4120 st_two = Done (tt, st_freed) /\
  blocks st_two !! 4132 = Some (mkBlock 32 NULL false) /\
  blk_free (mkBlock 32 NULL false) = false /\ 4132 <> BLOCK_HEADER 4120 /\
  blocks st_freed !! 4132 = Some (mkBlock 32 NULL false).
Proof.
  assert (H1 : free 4120 st_two = Done (tt, st_freed)) by (vm_compute; reflexivity).
  assert (H2 : blocks st_two !! 4132 = Some (mkBlock 32 NULL false))
    by (vm_compute; reflexivity).
  assert (H3 : 4132 <> BLOCK_HEADER 4120) by (vm_compute; discriminate).
  split; [exact H1|]. split; [exact H2|]. split; [reflexivity|]. split; [exact H3|].
  exact (free_keeps_other_blocks 4120 st_two st_freed 4132 _ H1 H2 eq_refl H3).
Defined.

(** X16: after a free that returned, freeing the same pointer again fails the
    assertion: coalescing never clears a free flag, not even that of an
    absorbed block. *)
Theorem free_twice_aborts ptr st st' :
  ptr <> NULL -> free ptr st = Done (tt, st') -> free ptr st' = Abort.
Proof.
  intros Hp Hrun.
  destruct (free_done ptr st st' Hp Hrun) as (b & st2 & Hb & _ & (_ & Hfl & _) & ->).
  specialize (Hfl (BLOCK_HEADER ptr)). state_simpl.
  rewrite (upd_lookup _ _ _ _ Hb) in Hfl.
  destruct (blocks st2 !! BLOCK_HEADER ptr) as [b2|] eqn:Hb2; [|done].
  injection Hfl as Hfl. cbn [blk_free set_free] in Hfl.
  rewrite (free_eq ptr _ b2 Hp); [by rewrite Hfl|done].
Qed.

Lemma free_twice_aborts_witness :
  4120 <> NULL /\ free 4120 st_two = Done (tt, st_freed) /\ free 4120 st_freed = Abort.
Proof.
  assert (H0 : 4120 <> NULL) by discriminate.
  assert (H1 : free 4120 st_two = Done (tt, st_freed)) by (vm_compute; reflexivity).
  split; [exact H0|]. split; [exact H1|].
  exact (free_twice_aborts 4120 st_two st_freed H0 H1).
Defined.



(** X18: under first fit (and next fit), when a live block is freed in a list
    that then has no two free neighbours, and no block before it fits, the
    next malloc of a size the block can hold returns the same pointer and
    does not move the break. *)
Theorem free_then_malloc_returns_same_block c st l1 b l2 size :
  wf c st -> layout c st (l1 ++ b :: l2) -> blk_free b = false ->
  fit c = FIT \/ fit c = NEXT ->
  ~ adjacent_free_view (view l1 ++ (blk_size b, true) :: view l2) ->
  Forall (fun x => fits x (ALIGN4 size) = false) l1 ->
  ALIGN4 size <> 0 -> ALIGN4 size <= blk_size b ->
  exists st1 st2,
    free (brk_lo c + extent (view l1) + sizeof_block) st = Done (tt, st1) /\
    malloc c size st1 = Done (brk_lo c + extent (view l1) + sizeof_block, st2) /\
    brk st2 = brk st.
Proof.
  intros Hwf Hl Hlive Hfit Htidy Hun Hnz Hle.
  destruct (layout_block c st l1 b l2 Hwf Hl) as (_ & Hlo & Hhi & _).
  pose proof (wf_env c st Hwf) as (He1 & He2 & He3).
  pose proof (wf_brk c st Hwf) as Hbrk.
  destruct (free_layout c st l1 b l2 Hwf Hl Hlive)
    as (st1 & l' & Hrun & Hwf1 & Hl' & Hv & _ & _ & Hho).
  rewrite (coalesce_pass_tidy _ Htidy) in Hv.
  unfold view in Hv at 1. apply fmap_app_inv in Hv as (m1 & m' & Hv1 & Hv2 & ->).
  destruct m' as [|b' m2]; [done|]. injection Hv2 as Hs' Hf' Hv2.
  fold (view m1) in Hv1.
  assert (Hb' : fits b' (ALIGN4 size) = true).
  { apply fits_spec. split; [done|lia]. }
  assert (Hun' : Forall (fun x => fits x (ALIGN4 size) = false) m1)
    by (by eapply Forall_unfit_view).
  destruct (malloc_paths_first c size st1 _ Hwf1 Hl' Hnz
              ltac:(unfold sizeof_block in *; lia) Hfit)
    as [(k1 & x & k2 & Hk & Hx & Hunk & Hm)|(Hall & _)].
  - rewrite (first_fit_unique _ _ _ _ _ _ _ (eq_sym Hk) Hunk Hx Hun' Hb'), <- Hv1 in Hm.
    eexists _, _. split; [done|]. split; [exact Hm|].
    rewrite (proj2 (counters_reused_state _ _ _ _)).
    destruct Hho as (_ & _ & _ & _ & Hb1).
    by rewrite (proj2 (proj2 (proj2 (proj2 (proj2 (registered_fields st1)))))).
  - apply Forall_app in Hall as [_ Hall]. apply Forall_cons in Hall as [Hall _].
    congruence.
Qed.

Lemma free_then_malloc_returns_same_block_witness :
  wf c_first st_two /\
  layout c_first st_two ([] ++ mkBlock 12 4132 false :: [mkBlock 32 NULL false]) /\
  blk_free (mkBlock 12 4132 false) = false /\
  (fit c_first = FIT \/ fit c_first = NEXT) /\
  ~ adjacent_free_view (view [] ++ (12, true) :: view [mkBlock 32 NULL false]) /\
  Forall (fun x => fits x (ALIGN4 10) = false) [] /\
  ALIGN4 10 <> 0 /\ ALIGN4 10 <= 12 /\
  exists st1 st2,
    free 4120 st_two = Done (tt, st1) /\ malloc c_first 10 st1 = Done (4120, st2) /\
    brk st2 = brk st_two.
Proof.
  assert (Hf : fit c_first = FIT \/ fit c_first = NEXT) by (left; reflexivity).
  assert (Ht : ~ adjacent_free_view
                 (view [] ++ (12, true) :: view [mkBlock 32 NULL false])).
  { simpl. intros [[_ H]|H]; [discriminate H|exact H]. }
  assert (Hnz : ALIGN4 10 <> 0) by (vm_compute; discriminate).
  assert (Hle : ALIGN4 10 <= 12) by (vm_compute; discriminate).
  split; [exact wf_st_two|]. split; [exact layout_st_two|]. split; [reflexivity|].
  split; [exact Hf|]. split; [exact Ht|]. split; [exact (Forall_nil_2 _)|].
  split; [exact Hnz|]. split; [exact Hle|].
  exact (free_then_malloc_returns_same_block c_first st_two [] (mkBlock 12 4132 false)
           [mkBlock 32 NULL false] 10 wf_st_two layout_st_two eq_refl Hf Ht
           (Forall_nil_2 _) Hnz Hle).
Defined.

(** X19: on a well-formed heap, when the product nmemb * size (mod 2^64),
    rounded, plus one header is below 2^63, a successful calloc adds one
    allocation that holds at least nmemb * size (mod 2^64) bytes, the first
    nmemb * size of them zero; the zero fill stays inside the new allocation,
    every other allocation keeps its content. *)
Theorem calloc_adds_zeroed_allocation c nmemb size st A p st' :
  wf c st -> ALIGN4 (to_size_t (nmemb * size)) + sizeof_block < 2 ^ 63 ->
  allocations c st A -> calloc c nmemb size st = Done (p, st') -> p <> NULL ->
  exists A1 A2 s,
    A = A1 ++ A2 /\ allocations c st' (A1 ++ (p, s) :: A2) /\
    to_size_t (nmemb * size) <= s /\
    (forall i, 0 <= i < to_size_t (nmemb * size) -> bytes st' (p + i) = 0) /\
    (forall r u i, (r, u) ∈ A -> 0 <= i < u -> bytes st' (r + i) = bytes st (r + i)).
Proof.
  intros Hwf Hbound HA Hrun Hp.
  apply calloc_done in Hrun as (st1 & Hm & [[? _]|[_ ->]]); [done|].
  set (total := to_size_t (nmemb * size)) in *.
  destruct (malloc_allocations c total st A p st1 Hwf Hbound HA Hm Hp)
    as (A1 & A2 & s & -> & HA' & Hs & _ & _).
  assert (Hle : total <= ALIGN4 total).
  { pose proof (to_size_t_range (nmemb * size)) as Hr. fold total in Hr.
    destruct (ALIGN4_zero total Hr) as [_ Hz].
    assert (Hnz : ALIGN4 total <> 0).
    { intros Hz'. rewrite (malloc_zero c total st Hz') in Hm. by injection Hm as <- _. }
    apply (ALIGN4_small total). split; [|apply Z.nlt_ge; intros ?; apply Hnz, Hz; lia].
    apply Z.nlt_ge. intros ?. apply Hnz, Hz. lia. }
  exists A1, A2, s. split; [done|]. split; [done|]. split; [lia|]. state_simpl. split.
  - intros i Hi. apply memset_inside. lia.
  - intros r u i Hin Hi. rewrite memset_outside; [by rewrite (malloc_bytes _ _ _ _ _ Hm)|].
    pose proof (allocations_apart c st1 _ HA') as Hap.
    destruct (apart_other _ _ _ _ _ _ _ _ Hap Hin) as [H1|H1];
      unfold sizeof_block in *; lia.
Qed.

Lemma calloc_adds_zeroed_allocation_witness :
  wf c_first st_live /\ ALIGN4 (to_size_t (3 * 4)) + sizeof_block < 2 ^ 63 /\
  allocations c_first st_live [(4120, 12)] /\
  calloc c_first 3 4 st_live = Done (4156, st_zeroed) /\ 4156 <> NULL /\
  (forall i, 0 <= i < to_size_t (3 * 4) -> bytes st_zeroed (4156 + i) = 0) /\
  (forall r u i, (r, u) ∈ [(4120, 12)] -> 0 <= i < u ->
     bytes st_zeroed (r + i) = bytes st_live (r + i)).
Proof.
  assert (Hb : ALIGN4 (to_size_t (3 * 4)) + sizeof_block < 2 ^ 63)
    by (vm_compute; reflexivity).
  assert (Hm : calloc c_first 3 4 st_live = Done (4156, st_zeroed))
    by (vm_compute; reflexivity).
  assert (Hp : 4156 <> NULL) by discriminate.
  split; [exact wf_st_live|]. split; [exact Hb|]. split; [exact allocations_st_live|].
  split; [exact Hm|]. split; [exact Hp|].
  destruct (calloc_adds_zeroed_allocation c_first 3 4 st_live _ 4156 st_zeroed wf_st_live Hb
              allocations_st_live Hm Hp) as (A1 & A2 & s & _ & _ & _ & H4 & H5).
  split; [exact H4|exact H5].
Defined.

(** X20: on a well-formed heap, realloc of an allocation to a size that does
    not round to zero and whose rounded value plus one header is below 2^63
    is aborted on OS denial or returns a different pointer: the old
    allocation is gone, a new one of at least the new size has been added,
    its first min(old size, new size) bytes are the old content, and every
    other allocation keeps its address, size and content (the copy never
    runs over the new block). *)
Theorem realloc_moves_allocation c ptr size st A1 s A2 :
  wf c st -> allocations c st (A1 ++ (ptr, s) :: A2) ->
  0 <= size < 2 ^ 64 -> ALIGN4 size <> 0 -> ALIGN4 size + sizeof_block < 2 ^ 63 ->
  realloc c ptr size st = Abort \/
  exists q st' t B1 B2,
    realloc c ptr size st = Done (q, st') /\ wf c st' /\ q <> NULL /\ q <> ptr /\
    A1 ++ A2 = B1 ++ B2 /\ allocations c st' (B1 ++ (q, t) :: B2) /\
    size <= t /\
    (forall i, 0 <= i < Z.min s size -> bytes st' (q + i) = bytes st (ptr + i)) /\
    (forall r u i, (r, u) ∈ A1 ++ A2 -> 0 <= i < u ->
       bytes st' (r + i) = bytes st (r + i)).
Proof.
  intros Hwf HA Hsize Hnz Hbound.
  destruct (realloc_allocations c ptr size st A1 s A2 Hwf HA Hsize Hnz Hbound)
    as [[Hab _]|(q & st' & t & B1 & B2 & Hr & Hwf' & Hq & Hne & HAB & HA' & Ht & Hle & Hcp &
                 Hoth)]; [by left|].
  right. exists q, st', t, B1, B2. repeat (split; [done|]). split; [lia|]. done.
Qed.

Lemma realloc_moves_allocation_witness :
  wf c_first st_two /\ allocations c_first st_two ([] ++ (4120, 12) :: [(4156, 32)]) /\
  0 <= 40 < 2 ^ 64 /\ ALIGN4 40 <> 0 /\ ALIGN4 40 + sizeof_block < 2 ^ 63 /\
  (realloc c_first 4120 40 st_two = Abort \/
   exists q st' t B1 B2,
     realloc c_first 4120 40 st_two = Done (q, st') /\ q <> 4120 /\
     [] ++ [(4156, 32)] = B1 ++ B2 /\ allocations c_first st' (B1 ++ (q, t) :: B2) /\
     forall i, 0 <= i < Z.min 12 40 -> bytes st' (q + i) = bytes st_two (4120 + i)).
Proof.
  assert (Hs : 0 <= 40 < 2 ^ 64) by lia.
  assert (Hnz : ALIGN4 40 <> 0) by (vm_compute; discriminate).
  assert (Hb : ALIGN4 40 + sizeof_block < 2 ^ 63) by (vm_compute; reflexivity).
  split; [exact wf_st_two|]. split; [exact allocations_st_two|].
  split; [exact Hs|]. split; [exact Hnz|]. split; [exact Hb|].
  destruct (realloc_moves_allocation c_first 4120 40 st_two [] 12 [(4156, 32)] wf_st_two
              allocations_st_two Hs Hnz Hb)
    as [Hab|(q & st' & t & B1 & B2 & H1 & _ & _ & H4 & H5 & H6 & _ & H8 & _)].
  - left. exact Hab.
  - right. exists q, st', t, B1, B2.
    split; [exact H1|]. split; [exact H4|]. split; [exact H5|]. split; [exact H6|exact H8].
Defined.

(** X21: after a realloc that freed or moved the block (size 0, or a non-null
    result), the old pointer is a freed pointer: free of it aborts. *)
Theorem realloc_releases_old_block c ptr size st p st' :
  ptr <> NULL -> size = 0 \/ p <> NULL ->
  realloc c ptr size st = Done (p, st') -> free ptr st' = Abort.
Proof.
  intros Hp Hcase Hrun.
  assert (Hfree : exists st0, free ptr st0 = Done (tt, st')).
  { apply realloc_done in Hrun
      as [[? _]|[(_ & _ & _ & Hf)|(_ & Hs & st1 & _ & Hst)]]; [done|by eexists|].
    destruct Hcase as [?|Hq]; [done|].
    destruct Hst as [[? _]|(_ & ob & _ & Hf)]; [done|by eexists]. }
  destruct Hfree as (st0 & Hfree).
  destruct (free_marks_free ptr st0 st' Hp Hfree) as (b' & Hb' & Hf').
  by rewrite (free_eq ptr st' b' Hp Hb'), Hf'.
Qed.

Lemma realloc_releases_old_block_witness :
  4120 <> NULL /\ (40 = 0 \/ 4212 <> NULL) /\
  realloc c_first 4120 40 st_two = Done (4212, st_moved) /\
  free 4120 st_moved = Abort.
Proof.
  assert (H0 : 4120 <> NULL) by discriminate.
  assert (H1 : 40 = 0 \/ 4212 <> NULL) by (right; discriminate).
  assert (H2 : realloc c_first 4120 40 st_two = Done (4212, st_moved))
    by (vm_compute; reflexivity).
  split; [exact H0|]. split; [exact H1|]. split; [exact H2|].
  exact (realloc_releases_old_block c_first 4120 40 st_two 4212 st_moved H0 H1 H2).
Defined.

(** X24: after every sequence of calls of malloc, free, calloc and realloc
    that returns, started on the empty heap with requests whose rounded size
    plus a header is below 2^63, the heap is well formed, the break is
    between its bounds, the next-fit cursor is still NULL, and the
    allocations are apart from each other. *)
Theorem reachable_heap_is_well_formed c ks st :
  env_ok c -> Forall (fun k => request k + sizeof_block < 2 ^ 63) ks ->
  run_calls c ks (init_state c) = Done (tt, st) ->
  wf c st /\ brk_lo c <= brk st <= brk_hi c /\ actualLast st = NULL /\
  exists A, allocations c st A /\ apart (brk_lo c) (brk st) A.
Proof.
  intros Henv Hks Hrun.
  destruct (run_calls_ind c (fun _ => True) ltac:(done) ks _ st (wf_init c Henv) I Hks Hrun)
    as [Hwf _].
  split; [done|]. split; [apply (wf_brk c st Hwf)|]. split; [apply (wf_cursor c st Hwf)|].
  destruct (wf_allocations c st Hwf) as (A & HA). exists A. split; [done|].
  by apply allocations_apart.
Qed.

Lemma reachable_heap_is_well_formed_witness :
  env_ok c_first /\
  Forall (fun k => request k + sizeof_block < 2 ^ 63) calls_example /\
  run_calls c_first calls_example (init_state c_first) = Done (tt, st_run) /\
  wf c_first st_run /\ actualLast st_run = NULL.
Proof.
  split; [exact env_ok_c_first|]. split; [exact calls_example_bounded|].
  split; [exact calls_example_run|].
  destruct (reachable_heap_is_well_formed c_first calls_example st_run env_ok_c_first
              calls_example_bounded calls_example_run) as (H1 & _ & H2 & _).
  split; [exact H1|exact H2].
Defined.





(** X27: started on a well-formed heap, a sequence of calls that returns and
    whose requests, rounded, plus one header are all below 2^63 never lowers
    the break: free gives no memory back to the system, and the break stays
    within the upper bound. *)
Theorem break_never_decreases c ks st st' :
  wf c st -> Forall (fun k => request k + sizeof_block < 2 ^ 63) ks ->
  run_calls c ks st = Done (tt, st') -> brk st <= brk st' <= brk_hi c.
Proof.
  revert st. induction ks as [|k ks IH]; intros st Hwf Hks.
  - intros [= <-]. pose proof (wf_brk c st Hwf). lia.
  - apply Forall_cons in Hks as [Hk Hks]. cbn [run_calls]. munfold.
    destruct (perform c k st) as [[r st1]| | |] eqn:Hrun; [|done..].
    intros Hrest. pose proof (perform_brk c k st r st1 Hwf Hk Hrun).
    pose proof (IH st1 (perform_wf c k st r st1 Hwf Hk Hrun) Hks Hrest). lia.
Qed.

Lemma break_never_decreases_witness :
  wf c_first (init_state c_first) /\
  Forall (fun k => request k + sizeof_block < 2 ^ 63) calls_example /\
  run_calls c_first calls_example (init_state c_first) = Done (tt, st_run) /\
  brk (init_state c_first) <= brk st_run <= brk_hi c_first.
Proof.
  split; [exact (wf_init c_first env_ok_c_first)|]. split; [exact calls_example_bounded|].
  split; [exact calls_example_run|].
  exact (break_never_decreases c_first calls_example (init_state c_first) st_run
           (wf_init c_first env_ok_c_first) calls_example_bounded calls_example_run).
Defined.

(** X28: on a well-formed heap, for a request whose rounded size plus one
    header is below 2^63, the pointer that a successful malloc returns can be
    freed at once, and free then leaves the heap well formed and the
    allocations as they were before the malloc, with their content. *)
Theorem malloc_then_free_restores_allocations c size st A p st1 :
  wf c st -> ALIGN4 size + sizeof_block < 2 ^ 63 -> allocations c st A ->
  malloc c size st = Done (p, st1) -> p <> NULL ->
  exists st2, free p st1 = Done (tt, st2) /\ wf c st2 /\ allocations c st2 A /\
    (forall r u i, (r, u) ∈ A -> 0 <= i < u -> bytes st2 (r + i) = bytes st (r + i)).
Proof.
  intros Hwf Hb HA Hm Hp.
  destruct (malloc_allocations c size st A p st1 Hwf Hb HA Hm Hp)
    as (A1 & A2 & s & -> & HA1 & _ & Hwf1 & _).
  destruct (free_allocations c st1 A1 p s A2 Hwf1 HA1) as (st2 & Hf & Hwf2 & HA2 & Hho).
  exists st2. split; [done|]. split; [done|]. split; [done|].
  intros r u i _ _. destruct Hho as (_ & _ & _ & -> & _).
  by rewrite (malloc_bytes _ _ _ _ _ Hm).
Qed.

Lemma malloc_then_free_restores_allocations_witness :
  wf c_first st_live /\ ALIGN4 32 + sizeof_block < 2 ^ 63 /\
  allocations c_first st_live [(4120, 12)] /\
  malloc c_first 32 st_live = Done (4156, st_two) /\ 4156 <> NULL /\
  exists st2, free 4156 st_two = Done (tt, st2) /\ wf c_first st2 /\
    allocations c_first st2 [(4120, 12)].
Proof.
  assert (Hb : ALIGN4 32 + sizeof_block < 2 ^ 63) by (vm_compute; reflexivity).
  assert (Hm : malloc c_first 32 st_live = Done (4156, st_two)) by (vm_compute; reflexivity).
  assert (Hp : 4156 <> NULL) by discriminate.
  split; [exact wf_st_live|]. split; [exact Hb|]. split; [exact allocations_st_live|].
  split; [exact Hm|]. split; [exact Hp|].
  destruct (malloc_then_free_restores_allocations c_first 32 st_live _ 4156 st_two
              wf_st_live Hb allocations_st_live Hm Hp) as (st2 & H1 & H2 & H3 & _).
  exists st2. split; [exact H1|]. split; [exact H2|exact H3].
Defined.
